(** * med_inventory: the daily FEFO dosage engine

    A shallow embedding of [src/apply_daily_dosage.py] over the tables of
    [src/create_schema.py], and the properties of one daily run; then the
    write paths and the FEFO listing of the dashboard, [src/app.py].

    Modelling conventions.
    - A table is the list of its rows in rowid order.  A SELECT without
      ORDER BY returns the rows in the order of the access path SQLite
      takes: the order of the table for a scan of the table, and for the
      query of reclamation, whose WHERE clause bounds [date(expiry_date)],
      the order of the index [idx_batches_expiry].
    - Quantities are SQLite INTEGERs.  Python's [float(...)] of them, the
      float arithmetic of the allocation loop and the REAL column
      [qty_change] are exact on integers below 2^53, so quantities are
      modelled in [Z]; the properties of quantities are stated for
      databases within that range ([wf_db]), in which every dosage slot is
      within it too, so that the 64-bit sum of [v_daily_units] is exact.
    - Key columns ([batch_id], [medicine_id]) hold no NULL.
    - SQLite's [date()] function, the wall clock and the failures of the
      storage layer are not code of the repository: they are the fields of a
      [World] the engine is run in.
    - Of [--verbose] the extra queries are modelled (they can fail like any
      other call), the [DEBUG] lines they print are not.
    - Of the dashboard, the texts of the forms are taken after [strip()],
      the numbers after [int()]; what an action reads from the cached query
      [q] (the batch selected, the stock shown) is a parameter of the
      action, since the cache may be stale.  Every connection an action
      opens meets a [World] of its own.  The value [sqlite_sequence] keeps
      for AUTOINCREMENT is a parameter of the upsert. *)

From Stdlib Require Import ZArith List String Ascii Bool Lia.
From Stdlib Require Import QArith.QArith_base.
From Stdlib Require Import Permutation Sorted.
From Stdlib Require Import DecimalString.
From Stdlib Require Import OrderedTypeEx.
Import ListNotations.


Local Open Scope string_scope.
Local Open Scope list_scope.
Local Open Scope Z_scope.

(** ** The schema ([create_schema.py]) *)

(** A row of [batches]. *)
Record Batch := mkBatch {
  batch_id     : Z;               (* INTEGER PRIMARY KEY AUTOINCREMENT *)
  medicine_id  : string;          (* TEXT NOT NULL, references medicines(id) *)
  batch_no     : string;          (* TEXT NOT NULL *)
  stock_units  : Z;               (* INTEGER NOT NULL CHECK (stock_units >= 0) *)
  expiry_date  : option string;   (* TEXT, nullable *)
  last_updated : string           (* TEXT, kept by trg_batches_touch_last_updated *)
}.

(** A row of [daily_dosage]; every slot is a nullable INTEGER. *)
Record DailyDosage := mkDailyDosage {
  dd_medicine_id : string;        (* TEXT PRIMARY KEY *)
  before_bf      : option Z;
  after_bf       : option Z;
  at_8pm         : option Z;
  after_dinner   : option Z;
  dd_daily_dosage : option Z      (* column daily_dosage *)
}.

(** A row of [stock_moves]. *)
Record StockMove := mkStockMove {
  mv_id          : Z;             (* INTEGER PRIMARY KEY *)
  ts             : string;        (* TEXT NOT NULL *)
  mv_medicine_id : string;        (* TEXT NOT NULL, references medicines(id) *)
  mv_batch_id    : option Z;      (* INTEGER, nullable, references batches *)
  qty_change     : Z;             (* REAL NOT NULL *)
  reason         : string;        (* TEXT NOT NULL *)
  note           : option string  (* TEXT *)
}.

(** The database file.  Of [medicines] only the primary key [id] matters to
    the engine. *)
Record DB := mkDB {
  medicines    : list string;
  batches      : list Batch;
  daily_dosage : list DailyDosage;
  stock_moves  : list StockMove
}.

Definition set_batches (bs : list Batch) (db : DB) : DB :=
  mkDB (medicines db) bs (daily_dosage db) (stock_moves db).

Definition set_stock_moves (ms : list StockMove) (db : DB) : DB :=
  mkDB (medicines db) (batches db) (daily_dosage db) ms.

(** ** SQL values and three-valued logic *)

(** A boolean SQL expression evaluates to true, false or NULL ([None]). *)
Definition sql_and (a b : option bool) : option bool :=
  match a, b with
  | Some false, _ | _, Some false => Some false
  | Some true, Some true => Some true
  | _, _ => None
  end.

Definition sql_or (a b : option bool) : option bool :=
  match a, b with
  | Some true, _ | _, Some true => Some true
  | Some false, Some false => Some false
  | _, _ => None
  end.

(** A WHERE clause keeps a row iff its condition is true. *)
Definition where_true (c : option bool) : bool :=
  match c with Some true => true | _ => false end.

(** Comparison of two TEXT values (BINARY collation); NULL if either is. *)
Definition sql_text_lt (a b : option string) : option bool :=
  match a, b with
  | Some x, Some y => Some (String.ltb x y)
  | _, _ => None
  end.

Definition sql_text_ge (a b : option string) : option bool :=
  match a, b with
  | Some x, Some y => Some (String.leb y x)
  | _, _ => None
  end.

Definition sql_text_eq (a b : option string) : option bool :=
  match a, b with
  | Some x, Some y => Some (String.eqb x y)
  | _, _ => None
  end.

Definition is_null {A} (v : option A) : bool :=
  match v with None => true | Some _ => false end.

(** [COALESCE(v, 0)] *)
Definition coalesce0 (v : option Z) : Z :=
  match v with Some z => z | None => 0 end.

(** ** The world a run executes in *)

Record World := mkWorld {
  (** SQLite's [date(text)]: the calendar date of a time value as
      'YYYY-MM-DD', or NULL when the text is not a time value. *)
  sql_date : string -> option string;
  (** whether the [n]-th call on the connection raises
      [sqlite3.OperationalError] (storage unreachable, disk full, locked) *)
  operational_error : nat -> bool;
  (** CURRENT_TIMESTAMP as read by the [n]-th call *)
  current_timestamp : nat -> string;
  (** [date.today().strftime("%Y-%m-%d")] *)
  today : string
}.

Definition date_of (w : World) (v : option string) : option string :=
  match v with Some s => sql_date w s | None => None end.

(** ** Pure pieces of [apply_daily_dosage.py] *)

(** [log_ts] *)
Definition log_ts (run_date : string) : string :=
  (run_date ++ " 20:00:00")%string.

(** Python's [str] of a float holding an integer (below 1e16): the decimal
    digits followed by ".0". *)
Definition py_float_str (z : Z) : string :=
  (NilZero.string_of_int (Z.to_int z) ++ ".0")%string.

(** The view [v_daily_units]. *)
Definition units_per_day (d : DailyDosage) : Z :=
  coalesce0 (before_bf d) + coalesce0 (after_bf d)
  + coalesce0 (at_8pm d) + coalesce0 (after_dinner d).

Definition v_daily_units (db : DB) : list (string * Z) :=
  map (fun d => (dd_medicine_id d, units_per_day d)) (daily_dosage db).

(** [SELECT medicine_id, units_per_day FROM v_daily_units
     WHERE units_per_day > 0] *)
Definition select_plan (db : DB) : list (string * Z) :=
  filter (fun r => 0 <? snd r) (v_daily_units db).

(** *** The order of rows *)

(** Comparison of sort keys; in ascending order NULL comes before every
    text. *)
Definition cmp_bool (a b : bool) : comparison :=
  match a, b with
  | false, true => Lt
  | true, false => Gt
  | _, _ => Eq
  end.

Definition cmp_text (a b : option string) : comparison :=
  match a, b with
  | None, None => Eq
  | None, Some _ => Lt
  | Some _, None => Gt
  | Some x, Some y => String.compare x y
  end.

Definition lex (c1 c2 : comparison) : comparison :=
  match c1 with Eq => c2 | _ => c1 end.

(** Rows in ascending order of a key (ORDER BY, or the order an index
    keeps), as an insertion sort on the key. *)
Fixpoint insert_by {A} (leb : A -> A -> bool) (x : A) (l : list A) : list A :=
  match l with
  | [] => [x]
  | y :: l' => if leb x y then x :: l else y :: insert_by leb x l'
  end.

Fixpoint order_by {A} (leb : A -> A -> bool) (l : list A) : list A :=
  match l with
  | [] => []
  | x :: l' => insert_by leb x (order_by leb l')
  end.

(** *** Statements of [scrap_expired] *)

(** A row of the temporary table [_to_scrap]. *)
Record ScrapRow := mkScrapRow {
  s_batch_id    : Z;
  s_medicine_id : string;
  qty           : Z
}.

(** [WHERE stock_units > 0 AND expiry_date IS NOT NULL
       AND date(expiry_date) < date(?)] *)
Definition scrap_condition (w : World) (run_date : string) (b : Batch)
  : option bool :=
  sql_and (sql_and (Some (0 <? stock_units b))
                   (Some (negb (is_null (expiry_date b)))))
          (sql_text_lt (date_of w (expiry_date b)) (sql_date w run_date)).

(** The key of [idx_batches_expiry ON batches (date(expiry_date),
    medicine_id)]; the rowid ends the key of every index entry. *)
Definition expiry_index_compare (w : World) (a b : Batch) : comparison :=
  lex (cmp_text (date_of w (expiry_date a)) (date_of w (expiry_date b)))
      (lex (String.compare (medicine_id a) (medicine_id b))
           (Z.compare (batch_id a) (batch_id b))).

Definition expiry_index_leb (w : World) (a b : Batch) : bool :=
  match expiry_index_compare w a b with Gt => false | _ => true end.

(** The rows of [batches] in the order [idx_batches_expiry] keeps them. *)
Definition idx_batches_expiry (w : World) (db : DB) : list Batch :=
  order_by (expiry_index_leb w) (batches db).

(** [SELECT batch_id, medicine_id, stock_units FROM batches WHERE ...].
    The statement has no ORDER BY.  Its WHERE clause bounds
    [date(expiry_date)], the leading key of [idx_batches_expiry], and SQLite
    answers it by a scan of that index: the rows come in the order of the
    index, not of the table. *)
Definition select_to_scrap (w : World) (run_date : string) (db : DB)
  : list ScrapRow :=
  map (fun b => mkScrapRow (batch_id b) (medicine_id b) (stock_units b))
      (filter (fun b => where_true (scrap_condition w run_date b))
              (idx_batches_expiry w db)).

(** The trigger [trg_batches_touch_last_updated]: an UPDATE OF stock_units
    that changes the value stamps the row with CURRENT_TIMESTAMP. *)
Definition touch_last_updated (now : string) (old new_ : Batch) : Batch :=
  if negb (stock_units new_ =? stock_units old)
  then mkBatch (batch_id new_) (medicine_id new_) (batch_no new_)
               (stock_units new_) (expiry_date new_) now
  else new_.

Definition with_stock (b : Batch) (s : Z) : Batch :=
  mkBatch (batch_id b) (medicine_id b) (batch_no b) s
          (expiry_date b) (last_updated b).

(** [UPDATE batches SET stock_units = <f stock_units> WHERE <sel>], with the
    trigger; the statement fails when a new value breaks
    [CHECK (stock_units >= 0)]. *)
Definition update_stock (now : string) (sel : Batch -> bool) (f : Z -> Z)
    (bs : list Batch) : option (list Batch) :=
  if forallb (fun b => negb (sel b) || (0 <=? f (stock_units b))) bs
  then Some (map (fun b => if sel b
                           then touch_last_updated now b
                                  (with_stock b (f (stock_units b)))
                           else b) bs)
  else None.

Definition in_scrap (scrap : list ScrapRow) (b : Batch) : bool :=
  existsb (fun r => s_batch_id r =? batch_id b) scrap.

(** The rowid SQLite gives to the next row of [stock_moves]: one more than
    the largest in use. *)
Definition next_id (ms : list StockMove) : Z :=
  1 + fold_right (fun m acc => Z.max (mv_id m) acc) 0 ms.

(** The foreign keys of [stock_moves], checked when [PRAGMA foreign_keys]
    is on. *)
Definition fk_ok (db : DB) (med : string) (bid : option Z) : bool :=
  existsb (String.eqb med) (medicines db)
  && match bid with
     | None => true
     | Some i => existsb (fun b => batch_id b =? i) (batches db)
     end.

(** One row of an [INSERT INTO stock_moves (ts, medicine_id, batch_id,
    qty_change, reason, note)]. *)
Record MoveValues := mkMoveValues {
  v_ts          : string;
  v_medicine_id : string;
  v_batch_id    : option Z;
  v_qty_change  : Z;
  v_reason      : string;
  v_note        : option string
}.

Definition stored (i : Z) (v : MoveValues) : StockMove :=
  mkStockMove i (v_ts v) (v_medicine_id v) (v_batch_id v)
              (v_qty_change v) (v_reason v) (v_note v).

(** Appending the rows of one INSERT statement; the whole statement fails
    on the first row that breaks a foreign key. *)
Fixpoint insert_moves (fk : bool) (db : DB) (vs : list MoveValues)
    (ms : list StockMove) : option (list StockMove) :=
  match vs with
  | [] => Some ms
  | v :: vs' =>
      if negb fk || fk_ok db (v_medicine_id v) (v_batch_id v)
      then insert_moves fk db vs' (ms ++ [stored (next_id ms) v])
      else None
  end.

(** [SELECT ?, medicine_id, batch_id, -qty, 'expired',
            'Auto-scrap expired before ' || ? FROM _to_scrap WHERE qty > 0] *)
Definition expired_values (run_date : string) (scrap : list ScrapRow)
  : list MoveValues :=
  map (fun r => mkMoveValues (log_ts run_date) (s_medicine_id r)
                  (Some (s_batch_id r)) (- qty r) "expired"
                  (Some ("Auto-scrap expired before " ++ run_date)%string))
      (filter (fun r => 0 <? qty r) scrap).

(** *** Statements of [fefo_deduct] *)

(** [WHERE medicine_id = ? AND stock_units > 0
       AND (expiry_date IS NULL OR date(expiry_date) >= date(?))] *)
Definition candidate_condition (w : World) (med run_date : string)
    (b : Batch) : option bool :=
  sql_and (sql_and (Some (String.eqb (medicine_id b) med))
                   (Some (0 <? stock_units b)))
          (sql_or (Some (is_null (expiry_date b)))
                  (sql_text_ge (date_of w (expiry_date b))
                               (sql_date w run_date))).

(** The sort key [(expiry_date IS NULL), date(expiry_date), batch_id];
    in ascending order NULL comes before every text. *)
Definition fefo_compare (w : World) (a b : Batch) : comparison :=
  lex (cmp_bool (is_null (expiry_date a)) (is_null (expiry_date b)))
      (lex (cmp_text (date_of w (expiry_date a)) (date_of w (expiry_date b)))
           (Z.compare (batch_id a) (batch_id b))).

Definition fefo_leb (w : World) (a b : Batch) : bool :=
  match fefo_compare w a b with Gt => false | _ => true end.

(** The candidate rows of one medicine, in FEFO order. *)
Definition fefo_batches (w : World) (med run_date : string) (db : DB)
  : list Batch :=
  order_by (fefo_leb w)
    (filter (fun b => where_true (candidate_condition w med run_date b))
            (batches db)).

(** [SELECT batch_id, stock_units FROM batches WHERE ... ORDER BY ...] *)
Definition select_candidates (w : World) (med run_date : string) (db : DB)
  : list (Z * Z) :=
  map (fun b => (batch_id b, stock_units b)) (fefo_batches w med run_date db).

(** [VALUES (?, ?, ?, ?, 'daily_dose', ?)] *)
Definition daily_dose_values (run_date med : string) (bid take : Z)
  : MoveValues :=
  mkMoveValues (log_ts run_date) med (Some bid) (- take) "daily_dose"
               (Some ("FEFO daily deduction " ++ run_date)%string).

(** [VALUES (?, ?, NULL, 0, 'shortfall', ?)] *)
Definition shortfall_values (run_date med : string) (remaining : Z)
  : MoveValues :=
  mkMoveValues (log_ts run_date) med None 0 "shortfall"
               (Some ("Needed " ++ py_float_str remaining
                      ++ " more units on " ++ run_date)%string).

(** [remaining > 1e-6] *)
Definition tolerance : Q := 1 # 1000000.

Definition above_tolerance (remaining : Z) : bool :=
  negb (Qle_bool (inject_Z remaining) tolerance).

(** *** The statement of [already_ran_for] *)

(** [WHERE reason = 'daily_dose' AND date(ts) = date(?)] *)
Definition ran_condition (w : World) (run_date : string) (m : StockMove)
  : option bool :=
  sql_and (Some (String.eqb (reason m) "daily_dose"))
          (sql_text_eq (sql_date w (ts m)) (sql_date w run_date)).

(** [SELECT EXISTS(SELECT 1 FROM stock_moves WHERE ...)] *)
Definition select_exists_run (w : World) (run_date : string) (db : DB)
  : bool :=
  existsb (fun m => where_true (ran_condition w run_date m)) (stock_moves db).

(** ** The connection *)

(** What [sqlite3] raises. *)
Inductive Exn := OperationalError | IntegrityError.

Inductive Res (A : Type) :=
| Ok (a : A)
| Raise (e : Exn).
Arguments Ok {A} a.
Arguments Raise {A} e.

(** A [sqlite3] connection in its default (legacy) transaction mode: [disk]
    is the committed database, [view] what the connection reads and writes;
    they differ only while a transaction is open. *)
Record Conn := mkConn {
  disk           : DB;
  view           : DB;
  in_transaction : bool;
  foreign_keys   : bool;             (* PRAGMA foreign_keys *)
  to_scrap       : list ScrapRow;    (* TEMP TABLE _to_scrap *)
  calls          : nat;              (* calls made on the connection *)
  stdout         : list string       (* lines printed so far *)
}.

(** [sqlite3.connect(DB)] *)
Definition connect (db : DB) : Conn :=
  mkConn db db false false [] 0 [].

Definition M (A : Type) : Type := Conn -> Res A * Conn.

Definition ret {A} (a : A) : M A := fun c => (Ok a, c).

Definition bind {A B} (m : M A) (k : A -> M B) : M B :=
  fun c => match m c with
           | (Ok a, c') => k a c'
           | (Raise e, c') => (Raise e, c')
           end.

Declare Scope conn_scope.
Delimit Scope conn_scope with conn.
Notation "x <- m ;; k" := (bind m (fun x => k))
  (at level 61, m at next level, right associativity) : conn_scope.
Notation "m ;; k" := (bind m (fun _ => k))
  (at level 61, right associativity) : conn_scope.
Local Open Scope conn_scope.

Definition set_view (db : DB) (c : Conn) : Conn :=
  mkConn (disk c) db (in_transaction c) (foreign_keys c) (to_scrap c)
         (calls c) (stdout c).

Definition set_to_scrap (rows : list ScrapRow) (c : Conn) : Conn :=
  mkConn (disk c) (view c) (in_transaction c) (foreign_keys c) rows
         (calls c) (stdout c).

(** [print(line)] *)
Definition print (line : string) : M unit :=
  fun c => (Ok tt, mkConn (disk c) (view c) (in_transaction c)
                          (foreign_keys c) (to_scrap c) (calls c)
                          (stdout c ++ [line])).

Section Engine.

Variable w : World.

(** Every call on the connection is numbered and may raise. *)
Definition call : M nat :=
  fun c =>
    let n := calls c in
    let c' := mkConn (disk c) (view c) (in_transaction c) (foreign_keys c)
                     (to_scrap c) (S n) (stdout c) in
    if operational_error w n then (Raise OperationalError, c')
    else (Ok n, c').

(** Before an INSERT, UPDATE or DELETE the module opens a transaction if
    none is open. *)
Definition begin_implicit : M unit :=
  fun c => (Ok tt, mkConn (disk c) (view c) true (foreign_keys c)
                          (to_scrap c) (calls c) (stdout c)).

(** [conn.commit()]: nothing is sent when no transaction is open. *)
Definition commit : M unit :=
  fun c =>
    if in_transaction c
    then (_ <- call ;;
          fun c1 => (Ok tt, mkConn (view c1) (view c1) false (foreign_keys c1)
                                   (to_scrap c1) (calls c1) (stdout c1))) c
    else (Ok tt, c).

(** [conn.rollback()] *)
Definition rollback (c : Conn) : Conn :=
  mkConn (disk c) (disk c) false (foreign_keys c) (to_scrap c)
         (calls c) (stdout c).

(** [conn.execute("PRAGMA foreign_keys = ON;")] *)
Definition execute_pragma_foreign_keys : M unit :=
  _ <- call ;;
  fun c => (Ok tt, mkConn (disk c) (view c) (in_transaction c) true
                          (to_scrap c) (calls c) (stdout c)).

(** A SELECT on the database. *)
Definition execute_select {A} (q : DB -> A) : M A :=
  _ <- call ;;
  fun c => (Ok (q (view c)), c).

(** An UPDATE of [batches.stock_units]. *)
Definition execute_update (sel : Batch -> bool) (f : Z -> Z) : M unit :=
  n <- call ;;
  begin_implicit ;;
  fun c => match update_stock (current_timestamp w n) sel f
                              (batches (view c)) with
           | Some bs => (Ok tt, set_view (set_batches bs (view c)) c)
           | None => (Raise IntegrityError, c)
           end.

(** An INSERT INTO stock_moves. *)
Definition execute_insert (vs : list MoveValues) : M unit :=
  _ <- call ;;
  begin_implicit ;;
  fun c => match insert_moves (foreign_keys c) (view c) vs
                              (stock_moves (view c)) with
           | Some ms => (Ok tt, set_view (set_stock_moves ms (view c)) c)
           | None => (Raise IntegrityError, c)
           end.

(** [cur.executescript("CREATE TEMP TABLE IF NOT EXISTS _to_scrap (...);
    DELETE FROM _to_scrap;")]: a pending transaction is committed first,
    then the script runs outside any transaction. *)
Definition executescript_reset_to_scrap : M unit :=
  _ <- call ;;
  fun c => (Ok tt, mkConn (if in_transaction c then view c else disk c)
                          (view c) false (foreign_keys c) []
                          (calls c) (stdout c)).

(** [INSERT INTO _to_scrap (batch_id, medicine_id, qty) SELECT ...] *)
Definition execute_insert_to_scrap (run_date : string) : M unit :=
  _ <- call ;;
  begin_implicit ;;
  fun c => (Ok tt, set_to_scrap
                     (to_scrap c ++ select_to_scrap w run_date (view c)) c).

(** A SELECT on the temporary table. *)
Definition execute_select_to_scrap {A} (q : list ScrapRow -> A) : M A :=
  _ <- call ;;
  fun c => (Ok (q (to_scrap c)), c).

(** The rows of [_to_scrap], as the subquery of a statement reads them. *)
Definition from_to_scrap : M (list ScrapRow) :=
  fun c => (Ok (to_scrap c), c).

(** ** The engine *)

(** [already_ran_for] *)
Definition already_ran_for (run_date : string) : M bool :=
  execute_select (select_exists_run w run_date).

(** [scrap_expired].  Of [--verbose] the queries are modelled, the [DEBUG]
    lines are not. *)
Definition scrap_expired (run_date : string) (verbose : bool) : M unit :=
  executescript_reset_to_scrap ;;
  execute_insert_to_scrap run_date ;;
  scrap <- from_to_scrap ;;
  execute_update (in_scrap scrap) (fun _ => 0) ;;
  execute_insert (expired_values run_date scrap) ;;
  if verbose
  then execute_select_to_scrap
         (fun rows => List.length (filter (fun r => 0 <? qty r) rows)) ;; ret tt
  else ret tt.

(** The inner loop of [fefo_deduct] over the fetched rows; the result is
    [remaining] when the loop ends. *)
Fixpoint deduct_rows (run_date med : string) (rows : list (Z * Z))
    (remaining : Z) : M Z :=
  match rows with
  | [] => ret remaining
  | (bid, stock) :: rows' =>
      if remaining <=? 0 then ret remaining                       (* break *)
      else
        let take := Z.min stock remaining in
        if take <=? 0 then deduct_rows run_date med rows' remaining (* continue *)
        else
          execute_update (fun b => batch_id b =? bid) (fun s => s - take) ;;
          execute_insert [daily_dose_values run_date med bid take] ;;
          deduct_rows run_date med rows' (remaining - take)
  end.

(** The body of [for med_id, need in plan]. *)
Definition deduct_item (run_date : string) (item : string * Z) : M unit :=
  let (med, need) := item in
  rows <- execute_select (select_candidates w med run_date) ;;
  remaining <- deduct_rows run_date med rows need ;;
  if above_tolerance remaining
  then execute_insert [shortfall_values run_date med remaining]
  else ret tt.

Fixpoint deduct_plan (run_date : string) (plan : list (string * Z))
  : M unit :=
  match plan with
  | [] => ret tt
  | item :: plan' =>
      deduct_item run_date item ;; deduct_plan run_date plan'
  end.

(** [fefo_deduct] *)
Definition fefo_deduct (run_date : string) (verbose : bool) : M unit :=
  plan <- execute_select select_plan ;;
  match plan with
  | [] => print "[INFO] No daily dosage > 0 found. Nothing to deduct."
  | _ => deduct_plan run_date plan
  end.

(** How [main] ends. *)
Inductive Outcome :=
| Skipped                (* the guard refused *)
| Completed              (* "[OK] ..." *)
| Failed (e : Exn).      (* an exception left [main] *)

(** [args.date or date.today().strftime("%Y-%m-%d")] *)
Definition run_date_of (args_date : option string) : string :=
  match args_date with
  | Some (String a s) => String a s
  | _ => today w
  end.

(** [SELECT ... FROM stock_moves WHERE date(ts) = date(?) ORDER BY ts, id],
    of which only the execution matters here. *)
Definition select_moves_of_day (run_date : string) (db : DB)
  : list StockMove :=
  filter (fun m => where_true (sql_text_eq (sql_date w (ts m))
                                           (sql_date w run_date)))
         (stock_moves db).

(** The body of the [with sqlite3.connect(DB) as conn:] block of [main]. *)
Definition main_body (args_date : option string) (force verbose : bool)
  : M Outcome :=
  let run_date := run_date_of args_date in
  execute_pragma_foreign_keys ;;
  ran <- already_ran_for run_date ;;
  if ran && negb force
  then
    print ("[SKIP] FEFO already applied for " ++ run_date
           ++ ". Use --force to override.")%string ;;
    ret Skipped
  else
    scrap_expired run_date verbose ;;
    fefo_deduct run_date verbose ;;
    commit ;;
    print ("[OK] FEFO daily deduction complete for " ++ run_date
           ++ ".")%string ;;
    (if verbose
     then execute_select (select_moves_of_day run_date) ;; ret tt
     else ret tt) ;;
    ret Completed.

(** [main]: the connection is a context manager, which commits when the
    block ends normally and rolls back when an exception leaves it. *)
Definition main (args_date : option string) (force verbose : bool) (db : DB)
  : Outcome * Conn :=
  match main_body args_date force verbose (connect db) with
  | (Ok o, c) =>
      match commit c with
      | (Ok _, c') => (o, c')
      | (Raise e, c') => (Failed e, c')
      end
  | (Raise e, c) => (Failed e, rollback c)
  end.

End Engine.

(** ** A world to run examples in *)

Definition is_digit (a : ascii) : bool :=
  ((48 <=? nat_of_ascii a) && (nat_of_ascii a <=? 57))%nat.

(** [date()] on the two formats the repository itself writes, 'YYYY-MM-DD'
    and 'YYYY-MM-DD HH:MM:SS'. *)
Definition iso_date (s : string) : option string :=
  let digits := forallb (fun i => match get i s with
                                  | Some a => is_digit a
                                  | None => false
                                  end) in
  let seps (l : list (nat * ascii)) :=
    forallb (fun p => match get (fst p) s with
                      | Some a => Ascii.eqb a (snd p)
                      | None => false
                      end) l in
  let day := digits [0; 1; 2; 3; 5; 6; 8; 9]%nat
             && seps [(4, "-"); (7, "-")]%nat%char in
  let time := digits [11; 12; 14; 15; 17; 18]%nat
              && seps [(10, " "); (13, ":"); (16, ":")]%nat%char in
  if (day && (String.length s =? 10)%nat)
     || (day && time && (String.length s =? 19)%nat)
  then Some (substring 0 10 s)
  else None.

(** A world without storage failures, whose clock shows one instant. *)
Definition calm_world : World :=
  mkWorld iso_date (fun _ => false) (fun _ => "2024-01-05 08:00:00")
          "2024-01-05".

(** A pharmacy on 2024-01-05: medicine A is dosed 60 a day from two dated
    batches and has an empty one, B is dosed 7 a day and holds 5 in an
    undated batch, C is no longer dosed and its only batch expired in 2023. *)
Definition pharmacy : DB :=
  mkDB ["A"; "B"; "C"]
       [mkBatch 1 "A" "A-1" 50 (Some "2024-01-10") "2023-12-01 09:00:00";
        mkBatch 2 "A" "A-2" 30 (Some "2024-02-01") "2023-12-01 09:00:00";
        mkBatch 3 "B" "B-1" 5 None "2023-12-01 09:00:00";
        mkBatch 4 "C" "C-1" 8 (Some "2023-12-31") "2023-12-01 09:00:00";
        mkBatch 5 "A" "A-0" 0 (Some "2024-03-01") "2023-12-01 09:00:00"]
       [mkDailyDosage "A" (Some 20) (Some 20) (Some 10) (Some 10) (Some 60);
        mkDailyDosage "B" (Some 7) None None None (Some 7);
        mkDailyDosage "C" (Some 0) (Some 0) (Some 0) (Some 0) (Some 0)]
       [].

(** The same pharmacy with a dosage entry for a medicine that is not in
    [medicines]. *)
Definition pharmacy_unknown_item : DB :=
  mkDB (medicines pharmacy) (batches pharmacy)
       (mkDailyDosage "X" (Some 1) None None None (Some 1)
          :: daily_dosage pharmacy)
       [].

(** The calm world, except that call number [n] on the connection fails. *)
Definition failing_at (n : nat) : World :=
  mkWorld iso_date (Nat.eqb n) (fun _ => "2024-01-05 08:00:00") "2024-01-05".

(** A store whose only planned medicine has no stock at all. *)
Definition empty_shelf : DB :=
  mkDB ["B"] [] [mkDailyDosage "B" (Some 7) None None None (Some 7)] [].

(** ** Vocabulary of the properties *)

(** Weakest precondition of a computation on the connection: [Q] is what
    holds when it returns, [E] what holds when it raises. *)
Definition wp {A} (m : M A) (Q : A -> Conn -> Prop)
    (E : Exn -> Conn -> Prop) (c : Conn) : Prop :=
  match m c with
  | (Ok a, c') => Q a c'
  | (Raise e, c') => E e c'
  end.

(** The only exception is an [OperationalError] the world injected. *)
Definition only_faults (w : World) (e : Exn) (_ : Conn) : Prop :=
  e = OperationalError /\ exists n, operational_error w n = true.

(** The world in which the storage layer never fails. *)
Definition reliable (w : World) : Prop :=
  forall n, operational_error w n = false.

(** The same world with the failures removed. *)
Definition without_faults (w : World) : World :=
  mkWorld (sql_date w) (fun _ => false) (current_timestamp w) (today w).

Definition sumZ (l : list Z) : Z := fold_right Z.add 0 l.

(** The column values of a stored movement. *)
Definition values (m : StockMove) : MoveValues :=
  mkMoveValues (ts m) (mv_medicine_id m) (mv_batch_id m) (qty_change m)
               (reason m) (note m).

Definition refers_to (bid : Z) (m : StockMove) : bool :=
  match mv_batch_id m with Some i => i =? bid | None => false end.

(** Signed sum of the movements that reference batch [bid]. *)
Definition delta_for (bid : Z) (ms : list StockMove) : Z :=
  sumZ (map qty_change (filter (refers_to bid) ms)).

Definition is_move (r med : string) (m : StockMove) : bool :=
  String.eqb (reason m) r && String.eqb (mv_medicine_id m) med.

(** Units consumed from medicine [med] according to the movements [ms]. *)
Definition consumed (med : string) (ms : list StockMove) : Z :=
  sumZ (map (fun m => - qty_change m) (filter (is_move "daily_dose" med) ms)).

(** The 'expired' movement of a scrapped batch. *)
Definition expired_value (run_date : string) (b : Batch) : MoveValues :=
  mkMoveValues (log_ts run_date) (medicine_id b) (Some (batch_id b))
               (- stock_units b) "expired"
               (Some ("Auto-scrap expired before " ++ run_date)%string).

Definition v_refers_to (bid : Z) (v : MoveValues) : bool :=
  match v_batch_id v with Some i => i =? bid | None => false end.

(** Quantities below [exact_bound] are those Python's floats hold
    exactly. *)
Definition exact_bound : Z := 2 ^ 53.

(** A dosage slot within the exact range, so that SQLite's 64-bit integer
    sum of the four slots in [v_daily_units] cannot overflow. *)
Definition slot_exact (v : option Z) : Prop :=
  - exact_bound < coalesce0 v < exact_bound.

Definition slot_exactb (v : option Z) : bool :=
  (- exact_bound <? coalesce0 v) && (coalesce0 v <? exact_bound).

(** What the schema enforces on a database, referential integrity, and
    quantities in the range where the float arithmetic of the engine is
    exact. *)
Record wf_db (db : DB) : Prop := mk_wf_db {
  wf_batch_pk   : NoDup (map batch_id (batches db));
  wf_dosage_pk  : NoDup (map dd_medicine_id (daily_dosage db));
  wf_stock      : Forall (fun b => 0 <= stock_units b) (batches db);
  wf_batch_fk   : Forall (fun b => In (medicine_id b) (medicines db))
                         (batches db);
  wf_dosage_fk  : Forall (fun d => In (dd_medicine_id d) (medicines db))
                         (daily_dosage db);
  wf_stock_exact  : Forall (fun b => stock_units b < exact_bound)
                           (batches db);
  wf_dosage_exact : Forall (fun d => units_per_day d < exact_bound)
                           (daily_dosage db);
  wf_slots_exact  : Forall (fun d => slot_exact (before_bf d)
                                     /\ slot_exact (after_bf d)
                                     /\ slot_exact (at_8pm d)
                                     /\ slot_exact (after_dinner d))
                           (daily_dosage db)
}.

Fixpoint nodupb {A} (eqb : A -> A -> bool) (l : list A) : bool :=
  match l with
  | [] => true
  | x :: l' => negb (existsb (eqb x) l') && nodupb eqb l'
  end.

(** [wf_db] as a check. *)
Definition check_db (db : DB) : bool :=
  nodupb Z.eqb (map batch_id (batches db))
  && nodupb String.eqb (map dd_medicine_id (daily_dosage db))
  && forallb (fun b => 0 <=? stock_units b) (batches db)
  && forallb (fun b => existsb (String.eqb (medicine_id b)) (medicines db))
             (batches db)
  && forallb (fun d => existsb (String.eqb (dd_medicine_id d)) (medicines db))
             (daily_dosage db)
  && forallb (fun b => stock_units b <? exact_bound) (batches db)
  && forallb (fun d => units_per_day d <? exact_bound) (daily_dosage db)
  && forallb (fun d => slot_exactb (before_bf d) && slot_exactb (after_bf d)
                       && slot_exactb (at_8pm d)
                       && slot_exactb (after_dinner d)) (daily_dosage db).

(** The loop of [deduct_rows] without the connection: what is taken from
    which batch, and what is left to find. *)
Fixpoint takes (rows : list (Z * Z)) (remaining : Z) : list (Z * Z) :=
  match rows with
  | [] => []
  | (bid, stock) :: rows' =>
      if remaining <=? 0 then []
      else if Z.min stock remaining <=? 0 then takes rows' remaining
      else (bid, Z.min stock remaining)
             :: takes rows' (remaining - Z.min stock remaining)
  end.

Fixpoint left_over (rows : list (Z * Z)) (remaining : Z) : Z :=
  match rows with
  | [] => remaining
  | (bid, stock) :: rows' =>
      if remaining <=? 0 then remaining
      else if Z.min stock remaining <=? 0 then left_over rows' remaining
      else left_over rows' (remaining - Z.min stock remaining)
  end.

(** The movements one plan item gives rise to. *)
Definition item_values (w : World) (run_date : string) (db : DB)
    (item : string * Z) : list MoveValues :=
  let rows := select_candidates w (fst item) run_date db in
  map (fun t => daily_dose_values run_date (fst item) (fst t) (snd t))
      (takes rows (snd item))
  ++ (if above_tolerance (left_over rows (snd item))
      then [shortfall_values run_date (fst item) (left_over rows (snd item))]
      else []).

(** Stock of the eligible batches of a medicine. *)
Definition eligible_stock (w : World) (med run_date : string) (db : DB) : Z :=
  sumZ (map stock_units (fefo_batches w med run_date db)).

(** How one row of [batches] may change while the movements [new] are
    appended. *)
Definition batch_step (new : list StockMove) (b b' : Batch) : Prop :=
  batch_id b' = batch_id b /\ medicine_id b' = medicine_id b
  /\ batch_no b' = batch_no b /\ expiry_date b' = expiry_date b
  /\ stock_units b' = stock_units b + delta_for (batch_id b) new
  /\ stock_units b' <= stock_units b
  /\ (0 <= stock_units b -> 0 <= stock_units b')
  /\ (stock_units b' = stock_units b -> b' = b).

(** The connection went from [c] to [c'] appending exactly [new]. *)
Record evolves (new : list StockMove) (c c' : Conn) : Prop := mk_evolves {
  ev_foreign_keys : foreign_keys c' = foreign_keys c;
  ev_transaction  : in_transaction c = true -> in_transaction c' = true;
  ev_medicines    : medicines (view c') = medicines (view c);
  ev_dosage       : daily_dosage (view c') = daily_dosage (view c);
  ev_moves        : stock_moves (view c') = stock_moves (view c) ++ new;
  ev_batches      : Forall2 (batch_step new) (batches (view c))
                            (batches (view c'))
}.

(** The connection after one more call, and after a transaction began. *)
Definition called (c : Conn) : Conn :=
  mkConn (disk c) (view c) (in_transaction c) (foreign_keys c) (to_scrap c)
         (S (calls c)) (stdout c).

Definition begun (c : Conn) : Conn :=
  mkConn (disk c) (view c) true (foreign_keys c) (to_scrap c)
         (calls c) (stdout c).

(** Nothing was committed since [c0]: the connection only appended
    movements, all stamped with the run's timestamp, to its view. *)
Definition uncommitted (run_date : string) (c0 c : Conn) : Prop :=
  disk c = disk c0
  /\ foreign_keys c = foreign_keys c0
  /\ medicines (view c) = medicines (view c0)
  /\ daily_dosage (view c) = daily_dosage (view c0)
  /\ exists new, stock_moves (view c) = stock_moves (view c0) ++ new
                 /\ Forall (fun m => ts m = log_ts run_date) new.

(** What can be raised: an injected [OperationalError], or an
    [IntegrityError] of the database. *)
Definition raised (w : World) (e : Exn) : Prop :=
  e = IntegrityError \/ exists n, operational_error w n = true.

(** A computation that commits nothing, whether it returns or raises. *)
Definition quiet (w : World) (run_date : string) {A} (m : M A) : Prop :=
  forall c0 c,
    uncommitted run_date c0 c ->
    wp m (fun _ c' => uncommitted run_date c0 c')
         (fun e c' => uncommitted run_date c0 c' /\ raised w e) c.

(** [m0] does what [m] does, as long as no storage failure hits [m]. *)
Definition agrees {A} (m m0 : M A) : Prop :=
  forall c, match m c with
            | (Raise OperationalError, _) => True
            | r => m0 c = r
            end.

(** [main_body] in two parts: from reclamation to the commit, and what
    follows the commit. *)
Definition transaction_part (w : World) (run_date : string) (verbose : bool)
  : M unit :=
  scrap_expired w run_date verbose ;;
  fefo_deduct w run_date verbose ;;
  commit w.

Definition report_part (w : World) (run_date : string) (verbose : bool)
  : M Outcome :=
  print ("[OK] FEFO daily deduction complete for " ++ run_date
         ++ ".")%string ;;
  (if verbose
   then execute_select w (select_moves_of_day w run_date) ;; ret tt
   else ret tt) ;;
  ret Completed.

Definition row_of (b : Batch) : Z * Z := (batch_id b, stock_units b).

Definition v_is_move (r med : string) (v : MoveValues) : bool :=
  String.eqb (v_reason v) r && String.eqb (v_medicine_id v) med.

(** The order of the allocation in words: dated batches before undated
    ones, dated batches by ascending date, ties by batch identifier. *)
Definition fefo_before (w : World) (a b : Batch) : Prop :=
  match expiry_date a, expiry_date b with
  | Some _, None => True
  | None, Some _ => False
  | None, None => batch_id a <= batch_id b
  | Some ea, Some eb =>
      match sql_date w ea, sql_date w eb with
      | Some da, Some db =>
          String.ltb da db = true \/ (da = db /\ batch_id a <= batch_id b)
      | _, _ => False
      end
  end.

(** The shape of the movements a run appends. *)
Definition movement_shape (m : StockMove) : Prop :=
  ((reason m = "expired" \/ reason m = "daily_dose")
   /\ (exists i, mv_batch_id m = Some i) /\ qty_change m < 0)
  \/ (reason m = "shortfall" /\ mv_batch_id m = None /\ qty_change m = 0).

(** The movements appended to [db] in [db']. *)
Definition appended (db db' : DB) : list StockMove :=
  skipn (List.length (stock_moves db)) (stock_moves db').

(** The stock of batch [bid], if the batch exists. *)
Definition stock_in (db : DB) (bid : Z) : option Z :=
  option_map stock_units (find (fun b => batch_id b =? bid) (batches db)).

(** What one complete run makes of the database [db]: the 'expired'
    movements of reclamation, then the movements of allocation, and the
    stock of every batch moved by what the movements say. *)
Definition applied (w : World) (run_date : string) (db db' : DB) : Prop :=
  medicines db' = medicines db
  /\ daily_dosage db' = daily_dosage db
  /\ exists expired alloc,
       stock_moves db' = stock_moves db ++ expired ++ alloc
       /\ map values expired
          = expired_values run_date (select_to_scrap w run_date db)
       /\ map values alloc
          = flat_map (item_values w run_date db) (select_plan db)
       /\ Forall2 (batch_step (expired ++ alloc)) (batches db) (batches db').

(** FEFO order on rows. *)
Definition fefo_le (w : World) (a b : Batch) : Prop := fefo_leb w a b = true.

(** ** Invocations of the script, one after another *)

(** One invocation of the script: the world it meets and its arguments. *)
Record Invocation := mkInvocation {
  inv_world   : World;
  inv_date    : option string;    (* --date *)
  inv_force   : bool;             (* --force *)
  inv_verbose : bool              (* --verbose *)
}.

(** The database file an invocation leaves. *)
Definition run (i : Invocation) (db : DB) : DB :=
  disk (snd (main (inv_world i) (inv_date i) (inv_force i) (inv_verbose i)
               db)).

Definition run_all (invocations : list Invocation) (db : DB) : DB :=
  fold_left (fun db' i => run i db') invocations db.

(** A world whose [date()] reads ISO dates only, run with a day-first
    date. *)
Definition day_first : option string := Some "05/01/2024".

(** ** What a run prints *)

(** A computation that prints nothing, whether it returns or raises. *)
Definition silent {A} (m : M A) : Prop :=
  forall c, wp m (fun _ c' => stdout c' = stdout c)
                 (fun _ c' => stdout c' = stdout c) c.

(** The line of [fefo_deduct] for an empty plan. *)
Definition info_lines (plan : list (string * Z)) : list string :=
  match plan with
  | [] => ["[INFO] No daily dosage > 0 found. Nothing to deduct."]
  | _ => []
  end.

(** The lines of a run that no failure interrupts. *)
Definition report (w : World) (args_date : option string) (force : bool)
    (db : DB) : list string :=
  let run_date := run_date_of w args_date in
  if select_exists_run w run_date db && negb force
  then [("[SKIP] FEFO already applied for " ++ run_date
         ++ ". Use --force to override.")%string]
  else info_lines (select_plan db)
       ++ [("[OK] FEFO daily deduction complete for " ++ run_date
            ++ ".")%string].

(** ** The dashboard ([app.py]) *)

(** The metric "Units in stock":
    [SELECT COALESCE(SUM(stock_units),0) AS n FROM batches] *)
Definition units_in_stock (db : DB) : Z :=
  sumZ (map stock_units (batches db)).

(** [COALESCE(SUM(b.stock_units), 0) AS total_stock] of the group of
    medicine [med] in [medicines m LEFT JOIN batches b
    ON b.medicine_id = m.id]. *)
Definition total_stock (med : string) (db : DB) : Z :=
  sumZ (map stock_units
          (filter (fun b => String.eqb (medicine_id b) med) (batches db))).

(** A batch of [med] that is not expired on [run_date], whatever it
    holds. *)
Definition in_date (w : World) (med run_date : string) (b : Batch) : bool :=
  String.eqb (medicine_id b) med
  && where_true (sql_or (Some (is_null (expiry_date b)))
                        (sql_text_ge (date_of w (expiry_date b))
                                     (sql_date w run_date))).

(** *** The tab "Batches (FEFO)" *)

(** The WHERE clause built from the two inputs: [medicine_id = ?] when the
    stripped filter text [med_filter] is not empty, [stock_units > 0] when
    the box is ticked. *)
Definition listing_condition (med_filter : string) (only_in_stock : bool)
    (b : Batch) : bool :=
  (String.eqb med_filter "" || String.eqb (medicine_id b) med_filter)
  && (negb only_in_stock || (0 <? stock_units b)).

(** [SELECT medicine_id, batch_no, expiry_date, stock_units] *)
Definition listing_row (b : Batch) : string * string * option string * Z :=
  (medicine_id b, batch_no b, expiry_date b, stock_units b).

(** [... FROM batches WHERE ... ORDER BY (expiry_date IS NULL) ASC,
    date(expiry_date) ASC, batch_id ASC] *)
Definition fefo_listing (w : World) (med_filter : string)
    (only_in_stock : bool) (db : DB)
  : list (string * string * option string * Z) :=
  map listing_row
      (order_by (fefo_leb w)
         (filter (listing_condition med_filter only_in_stock) (batches db))).

(** Whether a row of the listing is still in date on [run_date]. *)
Definition row_in_date (w : World) (run_date : string)
    (r : string * string * option string * Z) : bool :=
  where_true (sql_or (Some (is_null (snd (fst r))))
                     (sql_text_ge (date_of w (snd (fst r)))
                                  (sql_date w run_date))).

(** *** The tab "Actions" *)

(** What an action shows in the end: [st.success] or [st.error]. *)
Inductive Banner :=
| Success
| Error (e : Exn).

(** [exec_sql]: a connection of its own, [PRAGMA foreign_keys = ON], the
    statement, [conn.commit()]; the connection is a context manager as in
    [main].  Each connection meets a world of its own. *)
Definition exec_sql (w : World) (statement : M unit) (db : DB)
  : Res unit * DB :=
  match (execute_pragma_foreign_keys w ;; statement ;; commit w)
          (connect db) with
  | (Ok _, c) =>
      match commit w c with
      | (Ok _, c') => (Ok tt, disk c')
      | (Raise e, c') => (Raise e, disk c')
      end
  | (Raise e, c) => (Raise e, disk (rollback c))
  end.

(** An [INSERT INTO stock_moves (medicine_id, batch_id, qty_change, reason,
    note) SELECT ...]: the rows come from the database, and [ts] takes its
    default [datetime('now')], the text CURRENT_TIMESTAMP gives. *)
Definition execute_insert_select (w : World)
    (rows : string -> DB -> list MoveValues) : M unit :=
  n <- call w ;;
  begin_implicit ;;
  fun c => match insert_moves (foreign_keys c) (view c)
                              (rows (current_timestamp w n) (view c))
                              (stock_moves (view c)) with
           | Some ms => (Ok tt, set_view (set_stock_moves ms (view c)) c)
           | None => (Raise IntegrityError, c)
           end.

(** **** Adjust batch to exact quantity *)

(** [SELECT medicine_id, batch_id, ?, 'adjustment', ? FROM batches
     WHERE batch_id=?] *)
Definition adjustment_values (sel diff : Z) (note_text now : string)
    (db : DB) : list MoveValues :=
  map (fun b => mkMoveValues now (medicine_id b) (Some (batch_id b)) diff
                  "adjustment" (Some note_text))
      (filter (fun b => batch_id b =? sel) (batches db)).

(** The button "Apply adjustment".  [sel] is the batch picked and [shown] the
    stock the selector shows for it, both read from the cached query
    [batch_df]; [new_qty] is the number entered.  The two statements run on
    two connections. *)
Definition apply_adjustment (w1 w2 : World) (sel shown new_qty : Z)
    (note_text : string) (db : DB) : Banner * DB :=
  let diff := new_qty - shown in
  match exec_sql w1
          (execute_update w1 (fun b => batch_id b =? sel) (fun _ => new_qty))
          db with
  | (Raise e, db1) => (Error e, db1)
  | (Ok _, db1) =>
      match exec_sql w2
              (execute_insert_select w2
                 (adjustment_values sel diff note_text)) db1 with
      | (Raise e, db2) => (Error e, db2)
      | (Ok _, db2) => (Success, db2)
      end
  end.

(** **** Apply daily FEFO for a date *)

(** What the button "Run FEFO now" shows: "Finished FEFO." with the lines
    the script printed, or "FEFO script failed." *)
Inductive FefoBanner :=
| Finished (lines : list string)
| ScriptFailed.

(** The button runs the script with [--date] and, if the box is ticked,
    [--force], never with [--verbose]; the script exits with code 0 unless
    an exception leaves [main]. *)
Definition run_fefo_now (w : World) (run_date : string) (force : bool)
    (db : DB) : FefoBanner * DB :=
  match main w (Some run_date) force false db with
  | (Failed _, c) => (ScriptFailed, disk c)
  | (_, c) => (Finished (stdout c), disk c)
  end.

(** **** Receive stock *)

(** [NULLIF(?, '')] *)
Definition nullif_empty (s : string) : option string :=
  if String.eqb s "" then None else Some s.

(** The conflict target [(medicine_id, batch_no)]. *)
Definition same_batch (med batch : string) (b : Batch) : bool :=
  String.eqb (medicine_id b) med && String.eqb (batch_no b) batch.

(** [DO UPDATE SET stock_units = stock_units + excluded.stock_units,
    expiry_date = COALESCE(excluded.expiry_date, expiry_date)] *)
Definition received_into (qty : Z) (exp : option string) (b : Batch) : Batch :=
  mkBatch (batch_id b) (medicine_id b) (batch_no b) (stock_units b + qty)
          (match exp with Some e => Some e | None => expiry_date b end)
          (last_updated b).

(** AUTOINCREMENT: one more than the largest [batch_id] the table ever
    held, which [sqlite_sequence] remembers as [seq]. *)
Definition next_batch_id (seq : Z) (bs : list Batch) : Z :=
  1 + fold_right (fun b acc => Z.max (batch_id b) acc) seq bs.

(** [INSERT INTO batches (medicine_id, batch_no, stock_units, expiry_date)
    VALUES (?, ?, ?, NULLIF(?, '')) ON CONFLICT(medicine_id, batch_no)
    DO UPDATE ...].  The CHECK on the row to insert comes before the
    conflict; a row that conflicts is updated, under the trigger; a new row
    must name a known medicine, and takes the defaults of [batch_id] and
    [last_updated]. *)
Definition upsert_batch (fk : bool) (now : string) (seq : Z)
    (med batch : string) (qty : Z) (exp : option string) (db : DB)
  : option (list Batch) :=
  if qty <? 0 then None
  else if existsb (same_batch med batch) (batches db)
  then
    if forallb (fun b => negb (same_batch med batch b)
                         || (0 <=? stock_units b + qty)) (batches db)
    then Some (map (fun b => if same_batch med batch b
                             then touch_last_updated now b
                                    (received_into qty exp b)
                             else b) (batches db))
    else None
  else if negb fk || existsb (String.eqb med) (medicines db)
  then Some (batches db
             ++ [mkBatch (next_batch_id seq (batches db)) med batch qty exp
                         now])
  else None.

Definition execute_upsert (w : World) (seq : Z) (med batch : string)
    (qty : Z) (exp : option string) : M unit :=
  n <- call w ;;
  begin_implicit ;;
  fun c => match upsert_batch (foreign_keys c) (current_timestamp w n) seq
                              med batch qty exp (view c) with
           | Some bs => (Ok tt, set_view (set_batches bs (view c)) c)
           | None => (Raise IntegrityError, c)
           end.

(** [cur.executescript] of one INSERT INTO stock_moves ... SELECT: a pending
    transaction is committed first, and the statement of the script commits
    by itself. *)
Definition executescript_insert_select (w : World)
    (rows : string -> DB -> list MoveValues) : M unit :=
  n <- call w ;;
  fun c =>
    match insert_moves (foreign_keys c) (view c)
                       (rows (current_timestamp w n) (view c))
                       (stock_moves (view c)) with
    | Some ms =>
        (Ok tt, mkConn (set_stock_moves ms (view c))
                       (set_stock_moves ms (view c)) false (foreign_keys c)
                       (to_scrap c) (calls c) (stdout c))
    | None =>
        (Raise IntegrityError,
         mkConn (if in_transaction c then view c else disk c) (view c) false
                (foreign_keys c) (to_scrap c) (calls c) (stdout c))
    end.

(** [exec_script] *)
Definition exec_script (w : World) (script : M unit) (db : DB)
  : Res unit * DB :=
  exec_sql w script db.

(** [SELECT '<med>', batch_id, <qty>, 'receipt', 'Streamlit receive'
     FROM batches WHERE medicine_id='<med>' AND batch_no='<batch>'] *)
Definition receipt_values (med batch : string) (qty : Z) (now : string)
    (db : DB) : list MoveValues :=
  map (fun b => mkMoveValues now med (Some (batch_id b)) qty "receipt"
                  (Some "Streamlit receive"))
      (filter (same_batch med batch) (batches db)).

(** A text that can be pasted between quotes into a statement. *)
Definition quote_free (s : string) : bool :=
  forallb (fun a => negb (Ascii.eqb a "'"%char)) (list_ascii_of_string s).

(** The form "Receive stock", on the stripped texts [med], [batch] and [exp]
    and the quantity [qty] of the number input.  The log statement is built
    by pasting [med] and [batch] into the script; it is the statement
    modelled here when they hold no quote, and the model says nothing
    ([None]) otherwise. *)
Definition receive_stock (w1 w2 : World) (seq : Z) (med batch : string)
    (qty : Z) (exp : string) (db : DB) : option (Banner * DB) :=
  match exec_sql w1
          (execute_upsert w1 seq med batch qty (nullif_empty exp)) db with
  | (Raise e, db1) => Some (Error e, db1)
  | (Ok _, db1) =>
      if quote_free med && quote_free batch
      then Some match exec_script w2
                        (executescript_insert_select w2
                           (receipt_values med batch qty)) db1 with
                | (Raise e, db2) => (Error e, db2)
                | (Ok _, db2) => (Success, db2)
                end
      else None
  end.

(** [UNIQUE (medicine_id, batch_no)] *)
Definition batch_numbers_unique (db : DB) : Prop :=
  NoDup (map (fun b => (medicine_id b, batch_no b)) (batches db)).

(** The connection of [main] when reclamation starts: the pragma and the
    query of the guard were the calls 0 and 1. *)
Definition at_reclamation (db : DB) : Conn := mkConn db db false true [] 2 [].

(** The exception [e] is raised before [conn.commit()] has returned: by the
    pragma, by the query of the guard, or in reclamation, in allocation or
    in the commit itself. *)
Definition raised_before_commit (w : World) (args_date : option string)
    (verbose : bool) (db : DB) (e : Exn) : Prop :=
  (operational_error w 0 = true /\ e = OperationalError)
  \/ (operational_error w 0 = false /\ operational_error w 1 = true
      /\ e = OperationalError)
  \/ (operational_error w 0 = false /\ operational_error w 1 = false
      /\ exists c,
           transaction_part w (run_date_of w args_date) verbose
             (at_reclamation db) = (Raise e, c)).

(** The exception [e] is raised after [conn.commit()] has returned. *)
Definition raised_after_commit (w : World) (args_date : option string)
    (verbose : bool) (db : DB) (e : Exn) : Prop :=
  operational_error w 0 = false /\ operational_error w 1 = false
  /\ exists c c',
       transaction_part w (run_date_of w args_date) verbose
         (at_reclamation db) = (Ok tt, c)
       /\ report_part w (run_date_of w args_date) verbose c = (Raise e, c').

(** * Properties *)

(** ** Rules of the logic *)

Lemma wp_ret A (a : A) Q E c : Q a c -> wp (ret a) Q E c.
Proof. exact (fun H => H). Qed.

Lemma wp_bind A B (m : M A) (k : A -> M B) Q E c :
  wp m (fun a c' => wp (k a) Q E c') E c -> wp (bind m k) Q E c.
Proof.
  unfold wp, bind. destruct (m c) as [[a | e] c']; auto.
Qed.

Lemma wp_mono A (m : M A) (Q Q' : A -> Conn -> Prop)
    (E E' : Exn -> Conn -> Prop) c :
  wp m Q E c ->
  (forall a c', Q a c' -> Q' a c') ->
  (forall e c', E e c' -> E' e c') ->
  wp m Q' E' c.
Proof.
  unfold wp. destruct (m c) as [[a | e] c']; auto.
Qed.

(** ** Lists and sums *)

Lemma sumZ_app l1 l2 : sumZ (l1 ++ l2) = sumZ l1 + sumZ l2.
Proof.
  induction l1 as [| x l1 IH]; simpl; [reflexivity | rewrite IH; lia].
Qed.

Lemma delta_for_app bid l1 l2 :
  delta_for bid (l1 ++ l2) = delta_for bid l1 + delta_for bid l2.
Proof.
  unfold delta_for. now rewrite filter_app, map_app, sumZ_app.
Qed.

Lemma NoDup_map_eq A B (f : A -> B) (l : list A) a b :
  NoDup (map f l) -> In a l -> In b l -> f a = f b -> a = b.
Proof.
  induction l as [| x l IH]; simpl; [tauto |].
  intros Hnd Ha Hb Hf. inversion Hnd as [| ? ? Hx Hl]; subst.
  destruct Ha as [-> | Ha], Hb as [-> | Hb]; auto.
  - exfalso. apply Hx. rewrite Hf. now apply in_map.
  - exfalso. apply Hx. rewrite <- Hf. now apply in_map.
Qed.

Lemma Forall2_refl_in A (R : A -> A -> Prop) (l : list A) :
  (forall x, In x l -> R x x) -> Forall2 R l l.
Proof.
  induction l as [| x l IH]; intros H; constructor.
  - apply H; now left.
  - apply IH. intros y Hy. apply H; now right.
Qed.

Lemma Forall2_trans_gen A (R1 R2 R3 : A -> A -> Prop) (l1 l2 l3 : list A) :
  (forall x y z, R1 x y -> R2 y z -> R3 x z) ->
  Forall2 R1 l1 l2 -> Forall2 R2 l2 l3 -> Forall2 R3 l1 l3.
Proof.
  intros Ht H12. revert l3.
  induction H12 as [| x y l1 l2 Hxy _ IH]; intros l3 H23;
    inversion H23; subst; constructor; eauto.
Qed.

Lemma Forall2_map_r A (R : A -> A -> Prop) (f : A -> A) (l : list A) :
  (forall x, In x l -> R x (f x)) -> Forall2 R l (map f l).
Proof.
  induction l as [| x l IH]; intros H; simpl; constructor.
  - apply H; now left.
  - apply IH. intros y Hy. apply H; now right.
Qed.

Lemma Forall2_in_l A (R : A -> A -> Prop) (l l' : list A) x :
  Forall2 R l l' -> In x l -> exists x', In x' l' /\ R x x'.
Proof.
  induction 1 as [| a b l l' Hab _ IH]; simpl; [tauto |].
  intros [-> | Hx].
  - exists b; auto.
  - destruct (IH Hx) as (x' & ? & ?). exists x'; auto.
Qed.

Lemma Forall2_in_r A (R : A -> A -> Prop) (l l' : list A) x' :
  Forall2 R l l' -> In x' l' -> exists x, In x l /\ R x x'.
Proof.
  induction 1 as [| a b l l' Hab _ IH]; simpl; [tauto |].
  intros [-> | Hx].
  - exists a; auto.
  - destruct (IH Hx) as (x & ? & ?). exists x; auto.
Qed.

Lemma Forall2_map_eq A B (R : A -> A -> Prop) (f : A -> B) (l l' : list A) :
  (forall x y, R x y -> f y = f x) ->
  Forall2 R l l' -> map f l' = map f l.
Proof.
  intros Hf. induction 1 as [| a b l l' Hab _ IH]; simpl; [reflexivity |].
  now rewrite (Hf _ _ Hab), IH.
Qed.

(** A filter that sees no difference between two related tables selects the
    same rows. *)
Lemma Forall2_filter_eq A (R : A -> A -> Prop) (p : A -> bool)
    (l l' : list A) :
  (forall x y, In x l -> R x y -> p x = true \/ p y = true -> y = x) ->
  Forall2 R l l' -> filter p l' = filter p l.
Proof.
  intros Hp H. induction H as [| a b l l' Hab _ IH]; simpl; [reflexivity |].
  assert (filter p l' = filter p l) as IH'
    by (apply IH; intros x y Hx; apply Hp; now right).
  destruct (p a) eqn:Ha.
  - rewrite (Hp _ _ (or_introl eq_refl) Hab (or_introl Ha)), Ha.
    now rewrite IH'.
  - destruct (p b) eqn:Hb.
    + rewrite (Hp _ _ (or_introl eq_refl) Hab (or_intror Hb)) in Hb.
      congruence.
    + exact IH'.
Qed.

Lemma existsb_eqb_In (x : string) (l : list string) :
  existsb (String.eqb x) l = true <-> In x l.
Proof.
  rewrite existsb_exists. split.
  - intros (y & Hy & Heq). apply String.eqb_eq in Heq. now subst.
  - intros H. exists x. split; [assumption | apply String.eqb_refl].
Qed.

Lemma existsb_batch_id i (bs : list Batch) :
  existsb (fun b => batch_id b =? i) bs = true <-> In i (map batch_id bs).
Proof.
  rewrite existsb_exists, in_map_iff. split.
  - intros (b & Hb & Heq). exists b. split; [lia | assumption].
  - intros (b & Heq & Hb). exists b. split; [assumption | lia].
Qed.

Lemma nodupb_NoDup A (eqb : A -> A -> bool) (l : list A) :
  (forall x y, eqb x y = true <-> x = y) ->
  nodupb eqb l = true -> NoDup l.
Proof.
  intros Heqb. induction l as [| x l IH]; simpl; intros H; constructor.
  - apply andb_prop in H. destruct H as [H _].
    intros Hin. apply negb_true_iff in H.
    assert (existsb (eqb x) l = true) as Hex; [| congruence].
    apply existsb_exists. exists x. split; [assumption | now apply Heqb].
  - apply IH. apply andb_prop in H. tauto.
Qed.

Lemma slot_exactb_spec v : slot_exactb v = true -> slot_exact v.
Proof.
  unfold slot_exactb, slot_exact. intros H. apply andb_prop in H.
  destruct H as [H1 H2]. apply Z.ltb_lt in H1, H2. auto.
Qed.

Lemma check_db_sound db : check_db db = true -> wf_db db.
Proof.
  unfold check_db. intros H.
  apply andb_prop in H. destruct H as [H Hsl].
  apply andb_prop in H. destruct H as [H Hde].
  apply andb_prop in H. destruct H as [H Hse].
  apply andb_prop in H. destruct H as [H Hdfk].
  apply andb_prop in H. destruct H as [H Hbfk].
  apply andb_prop in H. destruct H as [H Hst].
  apply andb_prop in H. destruct H as [Hpk Hdd].
  rewrite forallb_forall in Hsl, Hde, Hse, Hdfk, Hbfk, Hst.
  constructor.
  - apply nodupb_NoDup with (eqb := Z.eqb); [apply Z.eqb_eq | assumption].
  - apply nodupb_NoDup with (eqb := String.eqb);
      [apply String.eqb_eq | assumption].
  - apply Forall_forall. intros b Hb. specialize (Hst b Hb). lia.
  - apply Forall_forall. intros b Hb. apply existsb_eqb_In. auto.
  - apply Forall_forall. intros d Hd. apply existsb_eqb_In. auto.
  - apply Forall_forall. intros b Hb. specialize (Hse b Hb). lia.
  - apply Forall_forall. intros d Hd. specialize (Hde d Hd). lia.
  - apply Forall_forall. intros d Hd. specialize (Hsl d Hd).
    apply andb_prop in Hsl. destruct Hsl as [Hsl H4].
    apply andb_prop in Hsl. destruct Hsl as [Hsl H3].
    apply andb_prop in Hsl. destruct Hsl as [H1 H2].
    auto using slot_exactb_spec.
Qed.

(** ** ORDER BY *)

Section Order_by.

Context {A : Type} (leb : A -> A -> bool).
Hypothesis leb_total : forall x y, leb x y = false -> leb y x = true.
Hypothesis leb_trans :
  forall x y z, leb x y = true -> leb y z = true -> leb x z = true.

Lemma insert_by_perm x l : Permutation (insert_by leb x l) (x :: l).
Proof.
  induction l as [| y l IH]; simpl; [reflexivity |].
  destruct (leb x y); [reflexivity |].
  rewrite IH. apply perm_swap.
Qed.

Lemma order_by_perm l : Permutation (order_by leb l) l.
Proof.
  induction l as [| x l IH]; simpl; [reflexivity |].
  rewrite insert_by_perm. now constructor.
Qed.

Lemma insert_by_sorted x l :
  StronglySorted (fun a b => leb a b = true) l ->
  StronglySorted (fun a b => leb a b = true) (insert_by leb x l).
Proof.
  induction 1 as [| y l Hl IH Hy]; simpl.
  - repeat constructor.
  - destruct (leb x y) eqn:Hxy.
    + constructor; [now constructor |].
      constructor; [assumption |].
      eapply Forall_impl; [| exact Hy]. intros z Hz. eauto.
    + constructor; [assumption |].
      apply Forall_forall. intros z Hz.
      apply (Permutation_in _ (insert_by_perm x l)) in Hz.
      destruct Hz as [<- | Hz]; [auto |].
      rewrite Forall_forall in Hy. auto.
Qed.

Lemma order_by_sorted l :
  StronglySorted (fun a b => leb a b = true) (order_by leb l).
Proof.
  induction l as [| x l IH]; simpl; [constructor | now apply insert_by_sorted].
Qed.

End Order_by.

(** ** The FEFO order is a total order on the rows of a table *)

Lemma string_compare_lt_trans s1 s2 s3 :
  String.compare s1 s2 = Lt -> String.compare s2 s3 = Lt ->
  String.compare s1 s3 = Lt.
Proof.
  intros H12 H23. apply String_as_OT.cmp_lt.
  apply String_as_OT.lt_trans with s2; now apply String_as_OT.cmp_lt.
Qed.

Lemma string_compare_refl s : String.compare s s = Eq.
Proof. now apply String_as_OT.cmp_eq. Qed.

Lemma cmp_text_antisym a b : cmp_text b a = CompOpp (cmp_text a b).
Proof.
  destruct a, b; simpl; try reflexivity. apply String.compare_antisym.
Qed.

Lemma cmp_text_eq a b : cmp_text a b = Eq -> a = b.
Proof.
  destruct a, b; simpl; try discriminate; try reflexivity.
  intros H. f_equal. now apply String.compare_eq_iff.
Qed.

Lemma cmp_text_lt_trans a b c :
  cmp_text a b = Lt -> cmp_text b c = Lt -> cmp_text a c = Lt.
Proof.
  destruct a, b, c; simpl; try discriminate; try reflexivity.
  apply string_compare_lt_trans.
Qed.

Section Fefo_order.

Variable w : World.

Lemma fefo_compare_antisym a b :
  fefo_compare w b a = CompOpp (fefo_compare w a b).
Proof.
  unfold fefo_compare.
  rewrite (cmp_text_antisym (date_of w (expiry_date a))),
    (Z.compare_antisym (batch_id a)).
  destruct (is_null (expiry_date a)), (is_null (expiry_date b)); simpl;
    try reflexivity;
    destruct (cmp_text _ _); simpl; reflexivity.
Qed.

Lemma fefo_compare_eq a b :
  fefo_compare w a b = Eq ->
  is_null (expiry_date a) = is_null (expiry_date b)
  /\ date_of w (expiry_date a) = date_of w (expiry_date b)
  /\ batch_id a = batch_id b.
Proof.
  unfold fefo_compare, lex.
  destruct (cmp_bool _ _) eqn:Hn; try discriminate.
  destruct (cmp_text _ _) eqn:Ht; try discriminate.
  intros Hz. apply Z.compare_eq in Hz. apply cmp_text_eq in Ht.
  repeat split; try assumption.
  destruct (is_null (expiry_date a)), (is_null (expiry_date b));
    simpl in Hn; congruence.
Qed.

Lemma fefo_compare_eq_l a b c :
  fefo_compare w a b = Eq -> fefo_compare w a c = fefo_compare w b c.
Proof.
  intros H. apply fefo_compare_eq in H. destruct H as (Hn & Ht & Hz).
  unfold fefo_compare. now rewrite Hn, Ht, Hz.
Qed.

Lemma fefo_compare_eq_r a b c :
  fefo_compare w b c = Eq -> fefo_compare w a b = fefo_compare w a c.
Proof.
  intros H. apply fefo_compare_eq in H. destruct H as (Hn & Ht & Hz).
  unfold fefo_compare. now rewrite Hn, Ht, Hz.
Qed.

Lemma fefo_compare_lt_trans a b c :
  fefo_compare w a b = Lt -> fefo_compare w b c = Lt ->
  fefo_compare w a c = Lt.
Proof.
  unfold fefo_compare, lex.
  pose proof (cmp_text_lt_trans (date_of w (expiry_date a))
                (date_of w (expiry_date b)) (date_of w (expiry_date c)))
    as Htr.
  destruct (is_null (expiry_date a)), (is_null (expiry_date b)),
    (is_null (expiry_date c)); simpl; try discriminate; try reflexivity;
    destruct (cmp_text (date_of w (expiry_date a))
                (date_of w (expiry_date b))) eqn:Hab;
    try discriminate;
    destruct (cmp_text (date_of w (expiry_date b))
                (date_of w (expiry_date c))) eqn:Hbc;
    try discriminate.
  all: try (rewrite Htr by reflexivity; reflexivity).
  all: try (apply cmp_text_eq in Hab; rewrite Hab, Hbc).
  all: try (apply cmp_text_eq in Hbc; rewrite <- Hbc, Hab).
  all: try reflexivity.
  all: rewrite !Z.compare_lt_iff; lia.
Qed.

Lemma fefo_leb_total a b : fefo_leb w a b = false -> fefo_leb w b a = true.
Proof.
  unfold fefo_leb. rewrite (fefo_compare_antisym a b).
  destruct (fefo_compare w a b); simpl; congruence.
Qed.

Lemma fefo_leb_trans a b c :
  fefo_leb w a b = true -> fefo_leb w b c = true -> fefo_leb w a c = true.
Proof.
  unfold fefo_leb.
  destruct (fefo_compare w a b) eqn:Hab; try discriminate; intros _;
    destruct (fefo_compare w b c) eqn:Hbc; try discriminate; intros _.
  - now rewrite (fefo_compare_eq_l _ _ _ Hab), Hbc.
  - now rewrite (fefo_compare_eq_l _ _ _ Hab), Hbc.
  - now rewrite <- (fefo_compare_eq_r _ _ _ Hbc), Hab.
  - now rewrite (fefo_compare_lt_trans _ _ _ Hab Hbc).
Qed.

(** The candidates of a medicine are its eligible rows, in FEFO order. *)
Lemma fefo_batches_sorted med run_date db :
  StronglySorted (fefo_le w) (fefo_batches w med run_date db).
Proof.
  apply (order_by_sorted (fefo_leb w) fefo_leb_total fefo_leb_trans).
Qed.

Lemma fefo_batches_perm med run_date db :
  Permutation (fefo_batches w med run_date db)
    (filter (fun b => where_true (candidate_condition w med run_date b))
            (batches db)).
Proof. apply order_by_perm. Qed.

Lemma fefo_batches_in med run_date db b :
  In b (fefo_batches w med run_date db) <->
  In b (batches db) /\ candidate_condition w med run_date b = Some true.
Proof.
  split.
  - intros H. apply (Permutation_in _ (fefo_batches_perm med run_date db)) in H.
    apply filter_In in H. destruct H as [Hin Hc]. split; [assumption |].
    unfold where_true in Hc.
    destruct (candidate_condition w med run_date b) as [[|] |];
      congruence.
  - intros [Hin Hc].
    apply (Permutation_in _ (Permutation_sym (fefo_batches_perm med run_date db))).
    apply filter_In. split; [assumption |]. now rewrite Hc.
Qed.

End Fefo_order.

(** ** The order of the index on expiry dates *)

Section Expiry_index.

Variable w : World.

Lemma expiry_index_compare_antisym a b :
  expiry_index_compare w b a = CompOpp (expiry_index_compare w a b).
Proof.
  unfold expiry_index_compare.
  rewrite (cmp_text_antisym (date_of w (expiry_date a))),
    (String.compare_antisym (medicine_id b)),
    (Z.compare_antisym (batch_id a)).
  destruct (cmp_text _ _); simpl; try reflexivity.
  destruct (String.compare _ _); simpl; reflexivity.
Qed.

Lemma expiry_index_compare_eq a b :
  expiry_index_compare w a b = Eq ->
  date_of w (expiry_date a) = date_of w (expiry_date b)
  /\ medicine_id a = medicine_id b /\ batch_id a = batch_id b.
Proof.
  unfold expiry_index_compare, lex.
  destruct (cmp_text _ _) eqn:Ht; try discriminate.
  destruct (String.compare _ _) eqn:Hm; try discriminate.
  intros Hz. apply Z.compare_eq in Hz. apply cmp_text_eq in Ht.
  apply String.compare_eq_iff in Hm. auto.
Qed.

Lemma expiry_index_compare_lt_trans a b c :
  expiry_index_compare w a b = Lt -> expiry_index_compare w b c = Lt ->
  expiry_index_compare w a c = Lt.
Proof.
  unfold expiry_index_compare, lex.
  pose proof (cmp_text_lt_trans (date_of w (expiry_date a))
                (date_of w (expiry_date b)) (date_of w (expiry_date c)))
    as Htr.
  pose proof (string_compare_lt_trans (medicine_id a) (medicine_id b)
                (medicine_id c)) as Hmtr.
  destruct (cmp_text (date_of w (expiry_date a))
              (date_of w (expiry_date b))) eqn:Hab; try discriminate;
    destruct (cmp_text (date_of w (expiry_date b))
                (date_of w (expiry_date c))) eqn:Hbc; try discriminate.
  all: try (rewrite Htr by reflexivity; reflexivity).
  all: try (apply cmp_text_eq in Hab; rewrite Hab, Hbc; try reflexivity).
  all: try (apply cmp_text_eq in Hbc; rewrite <- Hbc, Hab; reflexivity).
  destruct (String.compare (medicine_id a) (medicine_id b)) eqn:Mab;
    try discriminate;
    destruct (String.compare (medicine_id b) (medicine_id c)) eqn:Mbc;
    try discriminate.
  all: try (rewrite Hmtr by reflexivity; reflexivity).
  all: try (apply String.compare_eq_iff in Mab; rewrite Mab, Mbc;
            try reflexivity).
  all: try (apply String.compare_eq_iff in Mbc; rewrite <- Mbc, Mab;
            reflexivity).
  rewrite !Z.compare_lt_iff. lia.
Qed.

Lemma expiry_index_leb_total a b :
  expiry_index_leb w a b = false -> expiry_index_leb w b a = true.
Proof.
  unfold expiry_index_leb. rewrite (expiry_index_compare_antisym a b).
  destruct (expiry_index_compare w a b); simpl; congruence.
Qed.

Lemma expiry_index_leb_trans a b c :
  expiry_index_leb w a b = true -> expiry_index_leb w b c = true ->
  expiry_index_leb w a c = true.
Proof.
  unfold expiry_index_leb.
  destruct (expiry_index_compare w a b) eqn:Hab; try discriminate; intros _;
    destruct (expiry_index_compare w b c) eqn:Hbc; try discriminate;
    intros _.
  - apply expiry_index_compare_eq in Hab. destruct Hab as (Hd & Hm & Hi).
    unfold expiry_index_compare in *. now rewrite Hd, Hm, Hi, Hbc.
  - apply expiry_index_compare_eq in Hab. destruct Hab as (Hd & Hm & Hi).
    unfold expiry_index_compare in *. now rewrite Hd, Hm, Hi, Hbc.
  - apply expiry_index_compare_eq in Hbc. destruct Hbc as (Hd & Hm & Hi).
    unfold expiry_index_compare in *. now rewrite <- Hd, <- Hm, <- Hi, Hab.
  - now rewrite (expiry_index_compare_lt_trans _ _ _ Hab Hbc).
Qed.

(** The index holds the rows of the table, by ascending key. *)
Lemma idx_batches_expiry_sorted db :
  StronglySorted (fun a b => expiry_index_leb w a b = true)
                 (idx_batches_expiry w db).
Proof.
  apply (order_by_sorted (expiry_index_leb w) expiry_index_leb_total
           expiry_index_leb_trans).
Qed.

Lemma idx_batches_expiry_perm db :
  Permutation (idx_batches_expiry w db) (batches db).
Proof. apply order_by_perm. Qed.

End Expiry_index.

(** ** The statements *)

Lemma values_stored i v : values (stored i v) = v.
Proof. now destruct v. Qed.

Lemma insert_moves_inv fk db vs : forall ms ms',
  insert_moves fk db vs ms = Some ms' ->
  exists new, ms' = ms ++ new /\ map values new = vs.
Proof.
  induction vs as [| v vs IH]; simpl; intros ms ms' H.
  - injection H as <-. exists []. now rewrite app_nil_r.
  - destruct (negb fk || fk_ok db (v_medicine_id v) (v_batch_id v));
      [| discriminate].
    apply IH in H. destruct H as (new & -> & Hnew).
    exists (stored (next_id ms) v :: new). rewrite <- app_assoc. simpl.
    now rewrite values_stored, Hnew.
Qed.

Lemma insert_moves_some fk db vs : forall ms,
  Forall (fun v => fk = true ->
                   fk_ok db (v_medicine_id v) (v_batch_id v) = true) vs ->
  exists new, insert_moves fk db vs ms = Some (ms ++ new)
              /\ map values new = vs.
Proof.
  induction vs as [| v vs IH]; simpl; intros ms H.
  - exists []. now rewrite app_nil_r.
  - inversion H as [| ? ? Hv Hvs]; subst.
    assert (negb fk || fk_ok db (v_medicine_id v) (v_batch_id v) = true)
      as -> by (destruct fk; simpl; auto).
    destruct (IH (ms ++ [stored (next_id ms) v]) Hvs) as (new & -> & Hnew).
    exists (stored (next_id ms) v :: new). rewrite <- app_assoc. simpl.
    now rewrite values_stored, Hnew.
Qed.

Lemma update_stock_some now sel f bs :
  (forall b, In b bs -> sel b = true -> 0 <= f (stock_units b)) ->
  update_stock now sel f bs
  = Some (map (fun b => if sel b
                        then touch_last_updated now b
                               (with_stock b (f (stock_units b)))
                        else b) bs).
Proof.
  intros H. unfold update_stock.
  assert (forallb (fun b => negb (sel b) || (0 <=? f (stock_units b))) bs
          = true) as ->; [| reflexivity].
  apply forallb_forall. intros b Hb. destruct (sel b) eqn:Hs; simpl; auto.
  specialize (H b Hb Hs). lia.
Qed.

Lemma touched_fields now b s :
  let b' := touch_last_updated now b (with_stock b s) in
  batch_id b' = batch_id b /\ medicine_id b' = medicine_id b
  /\ batch_no b' = batch_no b /\ expiry_date b' = expiry_date b
  /\ stock_units b' = s
  /\ (s = stock_units b -> b' = b).
Proof.
  unfold touch_last_updated, with_stock. simpl.
  destruct (s =? stock_units b) eqn:Hs; simpl; repeat split; auto.
  - intros _. apply Z.eqb_eq in Hs. subst. now destruct b.
  - intros ->. rewrite Z.eqb_refl in Hs. discriminate.
Qed.

Lemma batch_step_refl b : batch_step [] b b.
Proof.
  unfold batch_step, delta_for. simpl. repeat split; auto; lia.
Qed.

Lemma batch_step_trans n1 n2 b b1 b2 :
  batch_step n1 b b1 -> batch_step n2 b1 b2 -> batch_step (n1 ++ n2) b b2.
Proof.
  intros (Hi1 & Hm1 & Hn1 & He1 & Hs1 & Hl1 & Hp1 & Hu1)
         (Hi2 & Hm2 & Hn2 & He2 & Hs2 & Hl2 & Hp2 & Hu2).
  unfold batch_step. rewrite delta_for_app.
  rewrite Hi1 in Hs2.
  repeat split; try congruence; try lia.
  intros Heq. assert (stock_units b1 = stock_units b) as H1 by lia.
  rewrite <- (Hu1 H1). apply Hu2. lia.
Qed.

Lemma evolves_refl c : evolves [] c c.
Proof.
  constructor; auto.
  - now rewrite app_nil_r.
  - apply Forall2_refl_in. intros; apply batch_step_refl.
Qed.

Lemma evolves_trans n1 n2 c c1 c2 :
  evolves n1 c c1 -> evolves n2 c1 c2 -> evolves (n1 ++ n2) c c2.
Proof.
  intros [Hf1 Ht1 Hm1 Hd1 Hs1 Hb1] [Hf2 Ht2 Hm2 Hd2 Hs2 Hb2].
  constructor; try congruence; auto.
  - rewrite Hs2, Hs1. now rewrite app_assoc.
  - eapply Forall2_trans_gen; [| exact Hb1 | exact Hb2].
    intros; eapply batch_step_trans; eauto.
Qed.

(** Batch identifiers never change. *)
Lemma evolves_batch_ids new c c' :
  evolves new c c' ->
  map batch_id (batches (view c')) = map batch_id (batches (view c)).
Proof.
  intros H. apply (Forall2_map_eq _ _ (batch_step new)); [| apply H].
  intros x y Hs. apply Hs.
Qed.

Section Statements.

Variable w : World.

Lemma wp_call Q E c :
  (operational_error w (calls c) = true -> E OperationalError (called c)) ->
  (operational_error w (calls c) = false -> Q (calls c) (called c)) ->
  wp (call w) Q E c.
Proof.
  unfold wp, call, called.
  destruct (operational_error w (calls c)); auto.
Qed.

Lemma wp_execute_select A (q : DB -> A) Q E c :
  (operational_error w (calls c) = true -> E OperationalError (called c)) ->
  (operational_error w (calls c) = false -> Q (q (view c)) (called c)) ->
  wp (execute_select w q) Q E c.
Proof.
  intros He Hq. unfold execute_select. apply wp_bind, wp_call; auto.
Qed.

Lemma wp_execute_update sel f Q E c :
  (operational_error w (calls c) = true -> E OperationalError (called c)) ->
  (operational_error w (calls c) = false ->
   match update_stock (current_timestamp w (calls c)) sel f
                      (batches (view c)) with
   | Some bs => Q tt (set_view (set_batches bs (view c)) (begun (called c)))
   | None => E IntegrityError (begun (called c))
   end) ->
  wp (execute_update w sel f) Q E c.
Proof.
  intros He Hq. unfold execute_update. apply wp_bind, wp_call; auto.
  intros Hnf. specialize (Hq Hnf). apply wp_bind.
  unfold wp at 1, begin_implicit. fold (begun (called c)).
  unfold wp. simpl.
  destruct (update_stock _ sel f (batches (view c))); exact Hq.
Qed.

Lemma wp_execute_insert vs Q E c :
  (operational_error w (calls c) = true -> E OperationalError (called c)) ->
  (operational_error w (calls c) = false ->
   match insert_moves (foreign_keys c) (view c) vs (stock_moves (view c)) with
   | Some ms => Q tt (set_view (set_stock_moves ms (view c))
                               (begun (called c)))
   | None => E IntegrityError (begun (called c))
   end) ->
  wp (execute_insert w vs) Q E c.
Proof.
  intros He Hq. unfold execute_insert. apply wp_bind, wp_call; auto.
  intros Hnf. specialize (Hq Hnf). apply wp_bind.
  unfold wp at 1, begin_implicit. fold (begun (called c)).
  unfold wp. simpl.
  destruct (insert_moves _ _ vs _); exact Hq.
Qed.

End Statements.

(** ** The allocation loop *)

Section Allocation.

Variable w : World.

Lemma only_faults_intro c n :
  operational_error w n = true -> only_faults w OperationalError c.
Proof. intros H. split; [reflexivity | eauto]. Qed.

Lemma wp_bind_assoc A B C (m : M A) (f : A -> M B) (g : B -> M C) Q E c :
  wp (bind (bind m f) g) Q E c -> wp (bind m (fun x => bind (f x) g)) Q E c.
Proof.
  unfold wp, bind. destruct (m c) as [[a | e] c']; auto.
Qed.

Lemma delta_for_single bid m :
  delta_for bid [m] = if refers_to bid m then qty_change m else 0.
Proof.
  unfold delta_for. simpl. destruct (refers_to bid m); simpl; lia.
Qed.

(** One pass of the loop body: the UPDATE of a batch and the INSERT of its
    'daily_dose' movement. *)
Lemma take_spec run_date med bid take c :
  (forall b, In b (batches (view c)) -> batch_id b = bid ->
             take <= stock_units b) ->
  In bid (map batch_id (batches (view c))) ->
  (foreign_keys c = true -> In med (medicines (view c))) ->
  0 < take ->
  wp (execute_update w (fun b => batch_id b =? bid) (fun s => s - take) ;;
      execute_insert w [daily_dose_values run_date med bid take])
     (fun _ c' =>
        exists m, evolves [m] c c'
                  /\ values m = daily_dose_values run_date med bid take
                  /\ forall b, In b (batches (view c)) -> batch_id b <> bid ->
                               In b (batches (view c')))
     (only_faults w) c.
Proof.
  intros Hstock Hbid Hmed Htake.
  apply wp_bind, wp_execute_update; [apply only_faults_intro |]. intros _.
  rewrite update_stock_some
    by (intros b Hb Hs; specialize (Hstock b Hb); lia).
  set (g := fun b : Batch => if batch_id b =? bid then _ else b).
  apply wp_execute_insert; [apply only_faults_intro |]. intros _.
  cbn [foreign_keys view stock_moves set_view set_batches set_stock_moves
       begun called].
  destruct (insert_moves_some (foreign_keys c)
              (set_batches (map g (batches (view c))) (view c))
              [daily_dose_values run_date med bid take]
              (stock_moves (view c))) as (new & -> & Hnew).
  { constructor; [| constructor]. intros Hfk. unfold fk_ok. simpl.
    apply andb_true_intro. split.
    - apply existsb_eqb_In. auto.
    - apply existsb_batch_id. rewrite map_map.
      erewrite map_ext; [exact Hbid |].
      intros b. unfold g. destruct (batch_id b =? bid); [| reflexivity].
      apply touched_fields. }
  destruct new as [| m [| ? ?]]; try discriminate.
  assert (values m = daily_dose_values run_date med bid take) as Hm
    by (change (hd (values m) (map values [m]) = daily_dose_values run_date med bid take);
        now rewrite Hnew).
  exists m. split; [| split; [exact Hm |]].
  - assert (mv_batch_id m = Some bid) as Hmb
      by exact (f_equal v_batch_id Hm).
    assert (qty_change m = - take) as Hmq
      by exact (f_equal v_qty_change Hm).
    constructor; simpl; auto.
    apply Forall2_map_r. intros b Hb. unfold g, batch_step.
    rewrite delta_for_single. unfold refers_to. rewrite Hmb, Hmq.
    rewrite (Z.eqb_sym bid).
    destruct (batch_id b =? bid) eqn:Hid.
    + destruct (touched_fields (current_timestamp w (calls c)) b
                  (stock_units b - take))
        as (H1 & H2 & H3 & H4 & H5 & H6).
      specialize (Hstock b Hb ltac:(lia)).
      repeat split; auto; lia.
    + repeat split; auto; lia.
  - intros b Hb Hne. apply in_map_iff. exists b. split; [| assumption].
    unfold g. destruct (batch_id b =? bid) eqn:Hid; [lia | reflexivity].
Qed.

Lemma deduct_rows_spec run_date med rows : forall remaining c,
  NoDup (map batch_id (batches (view c))) ->
  NoDup (map fst rows) ->
  Forall (fun r => exists b, In b (batches (view c))
                             /\ batch_id b = fst r
                             /\ stock_units b = snd r) rows ->
  (foreign_keys c = true -> In med (medicines (view c))) ->
  wp (deduct_rows w run_date med rows remaining)
     (fun r c' =>
        r = left_over rows remaining
        /\ exists new,
             evolves new c c'
             /\ map values new
                = map (fun t => daily_dose_values run_date med (fst t) (snd t))
                      (takes rows remaining))
     (only_faults w) c.
Proof.
  induction rows as [| [bid stock] rows IH]; intros remaining c Hpk Hrows Hin Hmed.
  - apply wp_ret. split; [reflexivity |]. exists []. split; [apply evolves_refl | reflexivity].
  - simpl. destruct (remaining <=? 0) eqn:Hrem.
    { apply wp_ret. split; [reflexivity |]. exists [].
      split; [apply evolves_refl | reflexivity]. }
    inversion Hrows as [| ? ? Hnotin Hrows']; subst.
    inversion Hin as [| ? ? (b0 & Hb0 & Hid0 & Hst0) Hin']; subst.
    simpl in Hid0, Hst0.
    destruct (Z.min stock remaining <=? 0) eqn:Htake.
    { apply IH; assumption. }
    apply wp_bind_assoc, wp_bind.
    eapply wp_mono; [apply take_spec | | auto].
    + intros b Hb Hid. 
      rewrite (NoDup_map_eq _ _ batch_id _ b b0 Hpk Hb Hb0) by congruence.
      lia.
    + rewrite <- Hid0. now apply in_map.
    + exact Hmed.
    + lia.
    + intros _ c1 (m & Hev1 & Hm & Hkeep).
      eapply wp_mono; [apply IH | | auto].
      * rewrite (evolves_batch_ids _ _ _ Hev1). exact Hpk.
      * exact Hrows'.
      * rewrite Forall_forall in Hin' |- *. intros r Hr.
        destruct (Hin' r Hr) as (b & Hb & Hid & Hst).
        exists b. split; [| auto]. apply Hkeep; [assumption |].
        intros Heq. apply Hnotin. rewrite <- Heq, Hid. now apply in_map.
      * rewrite (ev_foreign_keys _ _ _ Hev1), (ev_medicines _ _ _ Hev1).
        exact Hmed.
      * intros r c2 (-> & new & Hev2 & Hnew). split; [reflexivity |].
        exists ([m] ++ new). split; [eapply evolves_trans; eauto |].
        simpl. now rewrite Hm, Hnew.
Qed.

End Allocation.

(** ** Conditions of the queries *)

Lemma candidate_condition_true w med run_date b :
  candidate_condition w med run_date b = Some true <->
  medicine_id b = med /\ 0 < stock_units b
  /\ (expiry_date b = None
      \/ sql_text_ge (date_of w (expiry_date b)) (sql_date w run_date)
         = Some true).
Proof.
  unfold candidate_condition.
  destruct (String.eqb_spec (medicine_id b) med) as [Hm | Hm];
    destruct (Z.ltb_spec 0 (stock_units b)) as [Hs | Hs];
    destruct (expiry_date b) as [e |]; simpl;
    try destruct (sql_text_ge (sql_date w e) (sql_date w run_date))
      as [[|] |];
    simpl; split; try discriminate; try tauto; try lia;
    try (intros (? & ? & [? | ?]); discriminate);
    intros _; repeat split; auto; lia.
Qed.

Lemma scrap_condition_true w run_date b :
  scrap_condition w run_date b = Some true <->
  0 < stock_units b
  /\ sql_text_lt (date_of w (expiry_date b)) (sql_date w run_date)
     = Some true.
Proof.
  unfold scrap_condition.
  destruct (Z.ltb_spec 0 (stock_units b)) as [Hs | Hs];
    destruct (expiry_date b) as [e |]; simpl;
    try destruct (sql_text_lt (sql_date w e) (sql_date w run_date))
      as [[|] |];
    simpl; split; try discriminate; try tauto; try lia;
    try (intros (? & ?); discriminate).
Qed.

(** A row to scrap is not a candidate, whatever its medicine. *)
Lemma scrap_not_candidate w med run_date b :
  scrap_condition w run_date b = Some true ->
  candidate_condition w med run_date b <> Some true.
Proof.
  rewrite scrap_condition_true, candidate_condition_true.
  intros (_ & Hlt) (_ & _ & [Hnull | Hge]).
  - rewrite Hnull in Hlt. discriminate.
  - destruct (date_of w (expiry_date b)) as [d |]; [| discriminate].
    destruct (sql_date w run_date) as [r |]; [| discriminate].
    simpl in Hlt, Hge. injection Hlt as Hlt. injection Hge as Hge.
    unfold String.ltb in Hlt. unfold String.leb in Hge.
    rewrite String.compare_antisym in Hge.
    destruct (String.compare d r); simpl in *; discriminate.
Qed.

(** ** The loop without the connection *)

Lemma takes_in rows : forall remaining i t,
  In (i, t) (takes rows remaining) ->
  exists stock, In (i, stock) rows /\ 0 < t <= stock.
Proof.
  induction rows as [| [bid stock] rows IH]; simpl; intros remaining i t H;
    [contradiction |].
  destruct (remaining <=? 0); [contradiction |].
  destruct (Z.min stock remaining <=? 0) eqn:Hmin.
  - destruct (IH _ _ _ H) as (s & ? & ?). eauto.
  - destruct H as [H | H].
    + injection H as <- <-. exists stock. split; [now left | lia].
    + destruct (IH _ _ _ H) as (s & ? & ?). eauto.
Qed.

Lemma filter_none A (p : A -> bool) (l : list A) :
  (forall x, In x l -> p x = false) -> filter p l = [].
Proof.
  induction l as [| x l IH]; simpl; intros H; [reflexivity |].
  rewrite (H x (or_introl eq_refl)). apply IH. intros y Hy. apply H. now right.
Qed.

Lemma NoDup_map_filter {Row Key} (key : Row -> Key) (keep : Row -> bool)
    (rows : list Row) :
  NoDup (map key rows) -> NoDup (map key (filter keep rows)).
Proof.
  intros Hpk. induction rows as [| r rows IH]; simpl; [constructor |].
  inversion Hpk as [| ? ? Hr Hrows]; subst.
  destruct (keep r); simpl; auto.
  constructor; auto.
  intros Hin. apply Hr. apply in_map_iff in Hin.
  destruct Hin as (y & Hy & Hin). apply filter_In in Hin.
  apply in_map_iff. exists y. tauto.
Qed.

Lemma select_candidates_fst w med run_date db :
  map fst (select_candidates w med run_date db)
  = map batch_id (fefo_batches w med run_date db).
Proof.
  unfold select_candidates. rewrite map_map. reflexivity.
Qed.

Lemma fefo_batches_NoDup w med run_date db :
  NoDup (map batch_id (batches db)) ->
  NoDup (map batch_id (fefo_batches w med run_date db)).
Proof.
  intros H.
  eapply Permutation_NoDup.
  - apply Permutation_map, Permutation_sym, fefo_batches_perm.
  - now apply NoDup_map_filter.
Qed.

(** Every movement of a plan item names the item and, if it names a batch,
    a candidate batch of that item. *)
Lemma item_values_in w run_date db med need v :
  In v (item_values w run_date db (med, need)) ->
  v_ts v = log_ts run_date
  /\ v_medicine_id v = med
  /\ (v_reason v = "daily_dose" \/ v_reason v = "shortfall")
  /\ forall i, v_batch_id v = Some i ->
       exists b, In b (fefo_batches w med run_date db) /\ batch_id b = i.
Proof.
  unfold item_values. simpl. intros H. apply in_app_or in H.
  destruct H as [H | H].
  - apply in_map_iff in H. destruct H as ([i t] & <- & Hin). simpl.
    repeat split; auto.
    intros i' Hi'. injection Hi' as <-.
    apply takes_in in Hin. destruct Hin as (s & Hin & _).
    unfold select_candidates in Hin. apply in_map_iff in Hin.
    destruct Hin as (b & Hb & Hin). injection Hb as <- <-. eauto.
  - destruct (above_tolerance _); [| contradiction].
    destruct H as [<- | []]. simpl. repeat split; auto. discriminate.
Qed.

(** ** Allocation of the plan *)

Section Plan.

Variable w : World.

Lemma evolves_called new c c' : evolves new (called c) c' -> evolves new c c'.
Proof. intros [? ? ? ? ? ?]. constructor; auto. Qed.

Lemma evolves_insert vs c :
  Forall (fun v => v_batch_id v = None) vs ->
  Forall (fun v => foreign_keys c = true ->
                   In (v_medicine_id v) (medicines (view c))) vs ->
  wp (execute_insert w vs)
     (fun _ c' => exists new, evolves new c c' /\ map values new = vs)
     (only_faults w) c.
Proof.
  intros Hnone Hfk.
  apply wp_execute_insert; [apply only_faults_intro |]. intros _.
  destruct (insert_moves_some (foreign_keys c) (view c) vs
              (stock_moves (view c))) as (new & -> & Hnew).
  { rewrite Forall_forall in Hnone, Hfk |- *. intros v Hv Hon.
    unfold fk_ok. rewrite (Hnone v Hv), andb_true_r.
    apply existsb_eqb_In. auto. }
  exists new. split; [| assumption].
  constructor; simpl; auto.
  apply Forall2_refl_in. intros b _.
  assert (delta_for (batch_id b) new = 0) as Hd.
  { unfold delta_for.
    assert (filter (refers_to (batch_id b)) new = []) as ->; [| reflexivity].
    apply filter_none. intros m Hm. unfold refers_to.
    replace (mv_batch_id m) with (v_batch_id (values m)) by reflexivity.
    rewrite Forall_forall in Hnone. rewrite Hnone; [reflexivity |].
    rewrite <- Hnew. now apply in_map. }
  unfold batch_step. rewrite Hd. repeat split; auto; lia.
Qed.

Lemma deduct_item_spec run_date med need c :
  NoDup (map batch_id (batches (view c))) ->
  (foreign_keys c = true -> In med (medicines (view c))) ->
  wp (deduct_item w run_date (med, need))
     (fun _ c' =>
        exists new, evolves new c c'
                    /\ map values new
                       = item_values w run_date (view c) (med, need))
     (only_faults w) c.
Proof.
  intros Hpk Hmed. unfold deduct_item.
  apply wp_bind, wp_execute_select; [apply only_faults_intro |]. intros _.
  apply wp_bind.
  eapply wp_mono; [apply deduct_rows_spec | | auto].
  - exact Hpk.
  - rewrite select_candidates_fst. now apply fefo_batches_NoDup.
  - apply Forall_forall. intros r Hr. unfold select_candidates in Hr.
    apply in_map_iff in Hr. destruct Hr as (b & <- & Hb).
    apply fefo_batches_in in Hb. exists b. simpl. tauto.
  - exact Hmed.
  - intros r c1 (-> & new1 & Hev1 & Hnew1). unfold item_values. simpl.
    change (view (called c)) with (view c) in *.
    destruct (above_tolerance _).
    + eapply wp_mono; [apply evolves_insert | | auto].
      * repeat constructor.
      * constructor; [| constructor]. simpl.
        rewrite (ev_foreign_keys _ _ _ Hev1), (ev_medicines _ _ _ Hev1).
        exact Hmed.
      * intros _ c2 (new2 & Hev2 & Hnew2). exists (new1 ++ new2).
        split; [apply evolves_called; eapply evolves_trans; eauto |].
        now rewrite map_app, Hnew1, Hnew2.
    + apply wp_ret. exists new1. split; [now apply evolves_called |].
      now rewrite app_nil_r.
Qed.

Lemma delta_for_zero bid new :
  (forall m, In m new -> mv_batch_id m <> Some bid) ->
  delta_for bid new = 0.
Proof.
  intros H. unfold delta_for. rewrite filter_none; [reflexivity |].
  intros m Hm. unfold refers_to. specialize (H m Hm).
  destruct (mv_batch_id m) as [i |]; [| reflexivity].
  destruct (Z.eqb_spec i bid); congruence.
Qed.

(** Working on one item leaves the candidates of every other item as they
    were. *)
Lemma other_item_untouched run_date med need med' new c c1 :
  NoDup (map batch_id (batches (view c))) ->
  evolves new c c1 ->
  map values new = item_values w run_date (view c) (med, need) ->
  med' <> med ->
  fefo_batches w med' run_date (view c1)
  = fefo_batches w med' run_date (view c).
Proof.
  intros Hpk Hev Hnew Hne. unfold fefo_batches. f_equal.
  apply Forall2_filter_eq with (R := batch_step new); [| apply Hev].
  intros x y Hx Hstep Hp.
  assert (medicine_id x = med') as Hmx.
  { destruct Hstep as (_ & Hm & _).
    destruct Hp as [Hp | Hp];
      [destruct (candidate_condition w med' run_date x) as [[|] |] eqn:Hc
      |destruct (candidate_condition w med' run_date y) as [[|] |] eqn:Hc];
      try discriminate;
      apply candidate_condition_true in Hc; destruct Hc as (Hc & _);
      congruence. }
  destruct Hstep as (_ & _ & _ & _ & Hs & _ & _ & Hu). apply Hu.
  rewrite Hs, delta_for_zero; [lia |].
  intros m Hm Hb.
  assert (In (values m) (item_values w run_date (view c) (med, need))) as Hv
    by (rewrite <- Hnew; now apply in_map).
  apply item_values_in in Hv. destruct Hv as (_ & _ & _ & Hv).
  destruct (Hv _ Hb) as (b & Hin & Hid).
  apply fefo_batches_in in Hin. destruct Hin as (Hin & Hc).
  apply candidate_condition_true in Hc. destruct Hc as (Hc & _).
  assert (b = x) by (eapply NoDup_map_eq; eauto).
  congruence.
Qed.

Lemma item_values_ext run_date db1 db2 item :
  fefo_batches w (fst item) run_date db1
  = fefo_batches w (fst item) run_date db2 ->
  item_values w run_date db1 item = item_values w run_date db2 item.
Proof.
  intros H. unfold item_values, select_candidates. now rewrite H.
Qed.

Lemma flat_map_ext_in A B (f g : A -> list B) (l : list A) :
  (forall x, In x l -> f x = g x) -> flat_map f l = flat_map g l.
Proof.
  induction l as [| x l IH]; simpl; intros H; [reflexivity |].
  rewrite (H x (or_introl eq_refl)), IH; [reflexivity |].
  intros y Hy. apply H. now right.
Qed.

Lemma deduct_plan_spec run_date plan : forall c,
  NoDup (map batch_id (batches (view c))) ->
  NoDup (map fst plan) ->
  (foreign_keys c = true ->
   Forall (fun item => In (fst item) (medicines (view c))) plan) ->
  wp (deduct_plan w run_date plan)
     (fun _ c' =>
        exists new, evolves new c c'
                    /\ map values new
                       = flat_map (item_values w run_date (view c)) plan)
     (only_faults w) c.
Proof.
  induction plan as [| [med need] plan IH]; intros c Hpk Hplan Hfk.
  - apply wp_ret. exists []. split; [apply evolves_refl | reflexivity].
  - simpl. inversion Hplan as [| ? ? Hmed Hplan']; subst.
    apply wp_bind.
    eapply wp_mono; [apply deduct_item_spec | | auto].
    + exact Hpk.
    + intros Hon. specialize (Hfk Hon). now inversion Hfk.
    + intros _ c1 (new1 & Hev1 & Hnew1).
      eapply wp_mono; [apply IH | | auto].
      * rewrite (evolves_batch_ids _ _ _ Hev1). exact Hpk.
      * exact Hplan'.
      * rewrite (ev_foreign_keys _ _ _ Hev1), (ev_medicines _ _ _ Hev1).
        intros Hon. specialize (Hfk Hon). now inversion Hfk.
      * intros _ c2 (new2 & Hev2 & Hnew2). exists (new1 ++ new2).
        split; [eapply evolves_trans; eauto |].
        rewrite map_app, Hnew1, Hnew2. f_equal.
        apply flat_map_ext_in. intros item Hitem.
        apply item_values_ext.
        eapply other_item_untouched; eauto.
        intros Heq. apply Hmed. rewrite <- Heq. now apply in_map.
Qed.

Lemma select_plan_fst db :
  NoDup (map dd_medicine_id (daily_dosage db)) ->
  NoDup (map fst (select_plan db)).
Proof.
  intros H. unfold select_plan, v_daily_units.
  apply NoDup_map_filter. now rewrite map_map.
Qed.

Lemma select_plan_in db med need :
  In (med, need) (select_plan db) <->
  0 < need /\ exists d, In d (daily_dosage db)
                        /\ dd_medicine_id d = med /\ units_per_day d = need.
Proof.
  unfold select_plan, v_daily_units. rewrite filter_In, in_map_iff. simpl.
  split.
  - intros ((d & Hd & Hin) & Hpos). injection Hd as <- <-.
    split; [lia | eauto].
  - intros (Hpos & d & Hin & <- & <-). split; [eauto | lia].
Qed.

Lemma fefo_deduct_spec run_date verbose c :
  NoDup (map batch_id (batches (view c))) ->
  NoDup (map dd_medicine_id (daily_dosage (view c))) ->
  (foreign_keys c = true ->
   Forall (fun d => In (dd_medicine_id d) (medicines (view c)))
          (daily_dosage (view c))) ->
  wp (fefo_deduct w run_date verbose)
     (fun _ c' =>
        exists new,
          evolves new c c'
          /\ map values new
             = flat_map (item_values w run_date (view c))
                        (select_plan (view c)))
     (only_faults w) c.
Proof.
  intros Hpk Hdd Hfk. unfold fefo_deduct.
  apply wp_bind, wp_execute_select; [apply only_faults_intro |]. intros _.
  destruct (select_plan (view c)) as [| item plan] eqn:Hplan.
  - unfold wp, print. simpl. exists []. split; [| reflexivity].
    constructor; simpl; auto.
    + now rewrite app_nil_r.
    + apply Forall2_refl_in. intros; apply batch_step_refl.
  - rewrite <- Hplan.
    eapply wp_mono; [apply deduct_plan_spec | | auto].
    + exact Hpk.
    + now apply select_plan_fst.
    + intros Hon. specialize (Hfk Hon). apply Forall_forall.
      intros [med need] Hin. apply select_plan_in in Hin.
      destruct Hin as (_ & d & Hd & <- & _). simpl.
      rewrite Forall_forall in Hfk. now apply Hfk.
    + intros _ c' (new & Hev & Hnew). exists new.
      split; [now apply evolves_called | exact Hnew].
Qed.

End Plan.

(** ** Expiry reclamation *)

Lemma delta_for_values bid new :
  delta_for bid new
  = sumZ (map v_qty_change (filter (v_refers_to bid) (map values new))).
Proof.
  unfold delta_for. induction new as [| m new IH]; simpl; [reflexivity |].
  change (v_refers_to bid (values m)) with (refers_to bid m).
  destruct (refers_to bid m); simpl; now rewrite IH.
Qed.

Section Reclamation.

Variable w : World.
Variable run_date : string.

Let cond (b : Batch) : bool := where_true (scrap_condition w run_date b).

Lemma where_scrap_condition b :
  cond b = true <-> scrap_condition w run_date b = Some true.
Proof.
  unfold cond, where_true.
  destruct (scrap_condition w run_date b) as [[|] |]; split; congruence.
Qed.

Lemma idx_batches_expiry_in db b :
  In b (idx_batches_expiry w db) <-> In b (batches db).
Proof.
  unfold idx_batches_expiry. split; apply Permutation_in;
    [| apply Permutation_sym]; apply order_by_perm.
Qed.

Lemma idx_batches_expiry_NoDup db :
  NoDup (map batch_id (batches db)) ->
  NoDup (map batch_id (idx_batches_expiry w db)).
Proof.
  apply Permutation_NoDup, Permutation_map, Permutation_sym, order_by_perm.
Qed.

(** The 'expired' rows are those of the batches to scrap, one each, in the
    order of the index. *)
Lemma expired_values_select db :
  expired_values run_date (select_to_scrap w run_date db)
  = map (expired_value run_date) (filter cond (idx_batches_expiry w db)).
Proof.
  unfold expired_values, select_to_scrap. fold cond.
  induction (idx_batches_expiry w db) as [| b bs IH]; [reflexivity |].
  cbn [filter]. destruct (cond b) eqn:Hb; [| exact IH].
  apply where_scrap_condition, scrap_condition_true in Hb.
  destruct Hb as [Hpos _].
  cbn [map filter qty].
  assert ((0 <? stock_units b) = true) as -> by lia.
  cbn [map]. rewrite IH. reflexivity.
Qed.

Lemma in_scrap_select db b :
  NoDup (map batch_id (batches db)) -> In b (batches db) ->
  in_scrap (select_to_scrap w run_date db) b = cond b.
Proof.
  intros Hpk Hb. unfold in_scrap, select_to_scrap. fold cond.
  destruct (cond b) eqn:Hc.
  - apply existsb_exists.
    exists (mkScrapRow (batch_id b) (medicine_id b) (stock_units b)).
    split; [| simpl; lia].
    apply in_map_iff. exists b. split; [reflexivity |].
    apply filter_In. split; [now apply idx_batches_expiry_in | exact Hc].
  - apply not_true_is_false. intros H. apply existsb_exists in H.
    destruct H as (r & Hr & Hid). apply in_map_iff in Hr.
    destruct Hr as (b0 & <- & Hb0). apply filter_In in Hb0.
    destruct Hb0 as [Hb0 Hc0]. apply idx_batches_expiry_in in Hb0.
    simpl in Hid.
    assert (b0 = b) by (eapply NoDup_map_eq; eauto; lia).
    congruence.
Qed.

Lemma expired_sum_absent bid bs :
  ~ In bid (map batch_id bs) ->
  sumZ (map v_qty_change
          (filter (v_refers_to bid)
                  (map (expired_value run_date) (filter cond bs)))) = 0.
Proof.
  induction bs as [| x bs IH]; simpl; intros Hn; [reflexivity |].
  destruct (cond x); simpl; [| tauto].
  unfold v_refers_to at 1. simpl.
  destruct (Z.eqb_spec (batch_id x) bid); [tauto | tauto].
Qed.

Lemma expired_sum_present b bs :
  NoDup (map batch_id bs) -> In b bs ->
  sumZ (map v_qty_change
          (filter (v_refers_to (batch_id b))
                  (map (expired_value run_date) (filter cond bs))))
  = if cond b then - stock_units b else 0.
Proof.
  induction bs as [| x bs IH]; simpl; intros Hpk Hb; [contradiction |].
  inversion Hpk as [| ? ? Hx Hbs]; subst.
  destruct Hb as [-> | Hb].
  - destruct (cond b); simpl.
    + unfold v_refers_to at 1. simpl. rewrite Z.eqb_refl. simpl.
      rewrite expired_sum_absent by assumption. lia.
    + now apply expired_sum_absent.
  - assert (batch_id x <> batch_id b) as Hne
      by (intros Heq; apply Hx; rewrite Heq; now apply in_map).
    destruct (cond x); simpl; [| auto].
    unfold v_refers_to at 1. simpl.
    destruct (Z.eqb_spec (batch_id x) (batch_id b)); [contradiction | auto].
Qed.

(** What the 'expired' rows take from a batch of the table. *)
Lemma expired_sum_select db b :
  NoDup (map batch_id (batches db)) -> In b (batches db) ->
  sumZ (map v_qty_change
          (filter (v_refers_to (batch_id b))
                  (expired_values run_date (select_to_scrap w run_date db))))
  = if cond b then - stock_units b else 0.
Proof.
  intros Hpk Hb. rewrite expired_values_select.
  apply expired_sum_present;
    [now apply idx_batches_expiry_NoDup | now apply idx_batches_expiry_in].
Qed.

Lemma wp_executescript_reset_to_scrap Q E c :
  (operational_error w (calls c) = true -> E OperationalError (called c)) ->
  (operational_error w (calls c) = false ->
   Q tt (mkConn (if in_transaction c then view c else disk c) (view c) false
                (foreign_keys c) [] (S (calls c)) (stdout c))) ->
  wp (executescript_reset_to_scrap w) Q E c.
Proof.
  intros He Hq. unfold executescript_reset_to_scrap.
  apply wp_bind, wp_call; auto.
Qed.

Lemma wp_execute_insert_to_scrap Q E c :
  (operational_error w (calls c) = true -> E OperationalError (called c)) ->
  (operational_error w (calls c) = false ->
   Q tt (set_to_scrap (to_scrap c ++ select_to_scrap w run_date (view c))
                      (begun (called c)))) ->
  wp (execute_insert_to_scrap w run_date) Q E c.
Proof.
  intros He Hq. unfold execute_insert_to_scrap.
  apply wp_bind, wp_call; auto.
Qed.

Lemma wp_execute_select_to_scrap A (q : list ScrapRow -> A) Q E c :
  (operational_error w (calls c) = true -> E OperationalError (called c)) ->
  (operational_error w (calls c) = false -> Q (q (to_scrap c)) (called c)) ->
  wp (execute_select_to_scrap w q) Q E c.
Proof.
  intros He Hq. unfold execute_select_to_scrap.
  apply wp_bind, wp_call; auto.
Qed.

Lemma scrap_expired_spec verbose c :
  NoDup (map batch_id (batches (view c))) ->
  (foreign_keys c = true ->
   Forall (fun b => In (medicine_id b) (medicines (view c)))
          (batches (view c))) ->
  wp (scrap_expired w run_date verbose)
     (fun _ c' =>
        in_transaction c' = true
        /\ exists new,
             evolves new c c'
             /\ map values new
                = expired_values run_date
                    (select_to_scrap w run_date (view c)))
     (only_faults w) c.
Proof.
  intros Hpk Hfk. unfold scrap_expired.
  apply wp_bind, wp_executescript_reset_to_scrap;
    [apply only_faults_intro |]. intros _.
  apply wp_bind, wp_execute_insert_to_scrap;
    [apply only_faults_intro |]. intros _.
  apply wp_bind. unfold wp at 1, from_to_scrap.
  cbn [to_scrap set_to_scrap begun called view app].
  set (scrap := select_to_scrap w run_date (view c)).
  apply wp_bind, wp_execute_update; [apply only_faults_intro |]. intros _.
  cbn [view set_to_scrap begun called calls].
  rewrite update_stock_some by (intros; lia).
  set (g := fun b : Batch => if in_scrap scrap b then _ else b).
  assert (forall b, In b (batches (view c)) ->
                    g b = if cond b
                          then touch_last_updated (current_timestamp w (S (S (calls c))))
                                 b (with_stock b 0)
                          else b) as Hg.
  { intros b Hb. unfold g, scrap. now rewrite in_scrap_select. }
  assert (map batch_id (map g (batches (view c)))
          = map batch_id (batches (view c))) as Hids.
  { rewrite map_map. apply map_ext. intros b. unfold g.
    destruct (in_scrap scrap b); [| reflexivity]. apply touched_fields. }
  apply wp_bind, wp_execute_insert; [apply only_faults_intro |]. intros _.
  cbn [foreign_keys view stock_moves set_view set_batches set_stock_moves
       set_to_scrap begun called].
  destruct (insert_moves_some (foreign_keys c)
              (set_batches (map g (batches (view c))) (view c))
              (expired_values run_date scrap)
              (stock_moves (view c))) as (new & -> & Hnew).
  { unfold scrap. rewrite expired_values_select.
    apply Forall_forall. intros v Hv Hon. apply in_map_iff in Hv.
    destruct Hv as (b & <- & Hb). apply filter_In in Hb.
    destruct Hb as [Hb _]. apply idx_batches_expiry_in in Hb.
    unfold fk_ok. simpl.
    apply andb_true_intro. split.
    - apply existsb_eqb_In. specialize (Hfk Hon).
      rewrite Forall_forall in Hfk. auto.
    - apply existsb_batch_id. rewrite Hids. now apply in_map. }
  assert (evolves new c
            (set_view
               (set_stock_moves (stock_moves (view c) ++ new)
                  (set_batches (map g (batches (view c))) (view c)))
               (begun (called (set_view
                  (set_batches (map g (batches (view c))) (view c))
                  (begun (called (set_to_scrap scrap
                     (begun (called (mkConn
                        (if in_transaction c then view c else disk c)
                        (view c) false (foreign_keys c) []
                        (S (calls c)) (stdout c)))))))))))) as Hev.
  { constructor; simpl; auto.
    apply Forall2_map_r. intros b Hb. rewrite (Hg b Hb).
    unfold batch_step.
    rewrite delta_for_values, Hnew. unfold scrap.
    rewrite expired_sum_select by assumption.
    destruct (cond b) eqn:Hc.
    - apply where_scrap_condition, scrap_condition_true in Hc.
      destruct Hc as [Hpos _].
      destruct (touched_fields (current_timestamp w (S (S (calls c)))) b 0)
        as (H1 & H2 & H3 & H4 & H5 & H6).
      repeat split; auto; lia.
    - repeat split; auto; lia. }
  destruct verbose.
  - apply wp_bind, wp_execute_select_to_scrap;
      [apply only_faults_intro |]. intros _.
    apply wp_ret. split; [reflexivity |]. exists new. split; [| exact Hnew].
    destruct Hev as [? ? ? ? ? ?]. constructor; auto.
  - apply wp_ret. split; [reflexivity |]. exists new. split; assumption.
Qed.

End Reclamation.

(** ** One run *)

Section Run.

Variable w : World.

Lemma wp_commit Q E c :
  (in_transaction c = false -> Q tt c) ->
  (in_transaction c = true -> operational_error w (calls c) = true ->
   E OperationalError (called c)) ->
  (in_transaction c = true -> operational_error w (calls c) = false ->
   Q tt (mkConn (view c) (view c) false (foreign_keys c) (to_scrap c)
                (S (calls c)) (stdout c))) ->
  wp (commit w) Q E c.
Proof.
  intros Hno He Hq. unfold wp, commit.
  destruct (in_transaction c); [| now apply Hno].
  unfold bind, call.
  destruct (operational_error w (calls c)); [now apply He | now apply Hq].
Qed.

Lemma wp_execute_pragma_foreign_keys Q E c :
  (operational_error w (calls c) = true -> E OperationalError (called c)) ->
  (operational_error w (calls c) = false ->
   Q tt (mkConn (disk c) (view c) (in_transaction c) true (to_scrap c)
                (S (calls c)) (stdout c))) ->
  wp (execute_pragma_foreign_keys w) Q E c.
Proof.
  intros He Hq. unfold execute_pragma_foreign_keys.
  apply wp_bind, wp_call; auto.
Qed.

Lemma wp_print line Q E c :
  Q tt (mkConn (disk c) (view c) (in_transaction c) (foreign_keys c)
               (to_scrap c) (calls c) (stdout c ++ [line])) ->
  wp (print line) Q E c.
Proof. exact (fun H => H). Qed.

(** Reclamation does not change the candidates of any medicine. *)
Lemma scrap_keeps_candidates run_date med new c c' :
  NoDup (map batch_id (batches (view c))) ->
  evolves new c c' ->
  map values new
  = expired_values run_date (select_to_scrap w run_date (view c)) ->
  fefo_batches w med run_date (view c')
  = fefo_batches w med run_date (view c).
Proof.
  intros Hpk Hev Hnew. unfold fefo_batches. f_equal.
  apply Forall2_filter_eq with (R := batch_step new); [| apply Hev].
  intros x y Hx (_ & Hm & _ & He & Hs & _ & _ & Hu) Hp. apply Hu.
  rewrite delta_for_values, Hnew, expired_sum_select in Hs by assumption.
  destruct (where_true (scrap_condition w run_date x)) eqn:Hc; [| lia].
  exfalso. apply where_scrap_condition in Hc.
  destruct Hp as [Hp | Hp].
  - apply (scrap_not_candidate w med run_date x Hc).
    destruct (candidate_condition w med run_date x) as [[|] |];
      simpl in Hp; congruence.
  - destruct (candidate_condition w med run_date y) as [[|] |] eqn:Hcy;
      simpl in Hp; try discriminate.
    apply candidate_condition_true in Hcy. lia.
Qed.

Lemma main_body_spec args_date force verbose db :
  wf_db db ->
  select_exists_run w (run_date_of w args_date) db && negb force = false ->
  wp (main_body w args_date force verbose)
     (fun o c' =>
        o = Completed /\ in_transaction c' = false
        /\ applied w (run_date_of w args_date) db (disk c'))
     (only_faults w) (connect db).
Proof.
  intros [Hpk Hdd Hst Hbfk Hdfk _ _ _] Hguard. unfold main_body.
  set (run_date := run_date_of w args_date) in *.
  apply wp_bind, wp_execute_pragma_foreign_keys;
    [apply only_faults_intro |]. intros _.
  apply wp_bind. unfold already_ran_for.
  apply wp_execute_select; [apply only_faults_intro |]. intros _.
  cbn [view connect called]. rewrite Hguard.
  apply wp_bind.
  eapply wp_mono; [apply scrap_expired_spec | | auto].
  { exact Hpk. }
  { intros _. exact Hbfk. }
  intros _ c1 (Htx1 & new1 & Hev1 & Hnew1).
  cbn [view connect called] in Hev1, Hnew1.
  apply wp_bind.
  eapply wp_mono; [apply fefo_deduct_spec | | auto].
  { rewrite (evolves_batch_ids _ _ _ Hev1). exact Hpk. }
  { rewrite (ev_dosage _ _ _ Hev1). exact Hdd. }
  { intros _. rewrite (ev_dosage _ _ _ Hev1), (ev_medicines _ _ _ Hev1).
    exact Hdfk. }
  intros _ c2 (new2 & Hev2 & Hnew2).
  assert (applied w run_date db (view c2)) as Happ.
  { pose proof (evolves_trans _ _ _ _ _ Hev1 Hev2) as Hev.
    destruct Hev as [_ _ Hm Hd Hs Hb]. simpl in Hm, Hd, Hs, Hb.
    repeat split; auto.
    exists new1, new2. repeat split; auto.
    rewrite Hnew2.
    replace (select_plan (view c1)) with (select_plan db)
      by (unfold select_plan, v_daily_units;
          now rewrite (ev_dosage _ _ _ Hev1)).
    apply flat_map_ext_in. intros item _. apply item_values_ext.
    match type of Hev1 with
    | evolves _ ?c0 _ =>
        exact (scrap_keeps_candidates run_date (fst item) new1 c0 c1
                 Hpk Hev1 Hnew1)
    end. }
  apply wp_bind, wp_commit.
  - intros Hno. rewrite (ev_transaction _ _ _ Hev2 Htx1) in Hno.
    discriminate.
  - intros _. apply only_faults_intro.
  - intros _ _. apply wp_bind, wp_print.
    destruct verbose.
    + apply wp_bind, wp_bind, wp_execute_select;
        [apply only_faults_intro |]. intros _.
      apply wp_ret, wp_ret. auto.
    + apply wp_bind, wp_ret, wp_ret. auto.
Qed.

(** A run that the guard lets through and that no storage failure
    interrupts is applied in full. *)
Lemma main_spec args_date force verbose db :
  wf_db db ->
  select_exists_run w (run_date_of w args_date) db && negb force = false ->
  match main w args_date force verbose db with
  | (Completed, c') => applied w (run_date_of w args_date) db (disk c')
  | (Skipped, _) => False
  | (Failed e, _) =>
      e = OperationalError /\ exists n, operational_error w n = true
  end.
Proof.
  intros Hwf Hguard.
  pose proof (main_body_spec args_date force verbose db Hwf Hguard) as H.
  unfold wp in H. unfold main.
  destruct (main_body w args_date force verbose (connect db))
    as [[o | e] c]; [| exact H].
  destruct H as (-> & Htx & Happ).
  unfold commit. rewrite Htx. exact Happ.
Qed.

Lemma main_completes args_date force verbose db :
  reliable w -> wf_db db ->
  select_exists_run w (run_date_of w args_date) db && negb force = false ->
  exists c', main w args_date force verbose db = (Completed, c')
             /\ applied w (run_date_of w args_date) db (disk c').
Proof.
  intros Hrel Hwf Hguard.
  pose proof (main_spec args_date force verbose db Hwf Hguard) as H.
  destruct (main w args_date force verbose db) as [[| | e] c'].
  - contradiction.
  - eauto.
  - destruct H as (_ & n & Hn). rewrite Hrel in Hn. discriminate.
Qed.

End Run.

(** ** Nothing is committed before the commit *)

Lemma uncommitted_refl run_date c : uncommitted run_date c c.
Proof.
  repeat split; auto. exists []. split; [now rewrite app_nil_r | constructor].
Qed.

Lemma quiet_ret w run_date A (a : A) : quiet w run_date (ret a).
Proof. intros c0 c H. exact H. Qed.

Lemma quiet_bind w run_date A B (m : M A) (k : A -> M B) :
  quiet w run_date m -> (forall a, quiet w run_date (k a)) ->
  quiet w run_date (bind m k).
Proof.
  intros Hm Hk c0 c H. apply wp_bind.
  eapply wp_mono; [apply (Hm c0 c H) | | auto].
  intros a c' H'. now apply Hk.
Qed.

Lemma quiet_print w run_date line : quiet w run_date (print line).
Proof. intros c0 c H. exact H. Qed.

Lemma quiet_from_to_scrap w run_date : quiet w run_date from_to_scrap.
Proof. intros c0 c H. exact H. Qed.

Section Quiet.

Variable w : World.
Variable run_date : string.

Lemma quiet_execute_select A (q : DB -> A) :
  quiet w run_date (execute_select w q).
Proof.
  intros c0 c H. apply wp_execute_select; intros Hn; [| exact H].
  split; [exact H | right; eauto].
Qed.

Lemma quiet_execute_select_to_scrap A (q : list ScrapRow -> A) :
  quiet w run_date (execute_select_to_scrap w q).
Proof.
  intros c0 c H. apply wp_execute_select_to_scrap; intros Hn; [| exact H].
  split; [exact H | right; eauto].
Qed.

Lemma quiet_execute_insert_to_scrap d :
  quiet w run_date (execute_insert_to_scrap w d).
Proof.
  intros c0 c H. apply wp_execute_insert_to_scrap; intros Hn; [| exact H].
  split; [exact H | right; eauto].
Qed.

Lemma quiet_execute_update sel f : quiet w run_date (execute_update w sel f).
Proof.
  intros c0 c H. apply wp_execute_update; intros Hn;
    [split; [exact H | right; eauto] |].
  destruct (update_stock _ sel f (batches (view c)));
    [exact H | split; [exact H | now left]].
Qed.

Lemma quiet_execute_insert vs :
  Forall (fun v => v_ts v = log_ts run_date) vs ->
  quiet w run_date (execute_insert w vs).
Proof.
  intros Hvs c0 c H. apply wp_execute_insert; intros Hn;
    [split; [exact H | right; eauto] |].
  destruct (insert_moves _ _ vs _) as [ms |] eqn:Hins;
    [| split; [exact H | now left]].
  apply insert_moves_inv in Hins. destruct Hins as (new & -> & Hnew).
  destruct H as (Hd & Hf & Hm & Hdd & old & Hold & Hts).
  repeat split; auto. exists (old ++ new). simpl.
  split; [now rewrite Hold, app_assoc |].
  apply Forall_app. split; [assumption |].
  apply Forall_forall. intros m Hin.
  rewrite Forall_forall in Hvs.
  apply (Hvs (values m)). rewrite <- Hnew. now apply in_map.
Qed.

Lemma quiet_deduct_rows med rows : forall remaining,
  quiet w run_date (deduct_rows w run_date med rows remaining).
Proof.
  induction rows as [| [bid stock] rows IH]; intros remaining; simpl.
  - apply quiet_ret.
  - destruct (remaining <=? 0); [apply quiet_ret |].
    destruct (Z.min stock remaining <=? 0); [apply IH |].
    apply quiet_bind; [apply quiet_execute_update | intros _].
    apply quiet_bind; [| intros _; apply IH].
    apply quiet_execute_insert. repeat constructor.
Qed.

Lemma quiet_deduct_item item : quiet w run_date (deduct_item w run_date item).
Proof.
  destruct item as [med need]. unfold deduct_item.
  apply quiet_bind; [apply quiet_execute_select | intros rows].
  apply quiet_bind; [apply quiet_deduct_rows | intros remaining].
  destruct (above_tolerance remaining); [| apply quiet_ret].
  apply quiet_execute_insert. repeat constructor.
Qed.

Lemma quiet_deduct_plan plan : quiet w run_date (deduct_plan w run_date plan).
Proof.
  induction plan as [| item plan IH]; simpl; [apply quiet_ret |].
  apply quiet_bind; [apply quiet_deduct_item | intros _; exact IH].
Qed.

Lemma quiet_fefo_deduct verbose : quiet w run_date (fefo_deduct w run_date verbose).
Proof.
  unfold fefo_deduct.
  apply quiet_bind; [apply quiet_execute_select | intros plan].
  destruct plan; [apply quiet_print | apply quiet_deduct_plan].
Qed.

Lemma expired_values_ts scrap :
  Forall (fun v => v_ts v = log_ts run_date) (expired_values run_date scrap).
Proof.
  apply Forall_forall. intros v Hv. unfold expired_values in Hv.
  apply in_map_iff in Hv. destruct Hv as (r & <- & _). reflexivity.
Qed.

(** [scrap_expired] commits nothing when no transaction is pending. *)
Lemma scrap_expired_uncommitted verbose c0 c :
  uncommitted run_date c0 c -> in_transaction c = false ->
  wp (scrap_expired w run_date verbose)
     (fun _ c' => uncommitted run_date c0 c')
     (fun e c' => uncommitted run_date c0 c' /\ raised w e) c.
Proof.
  intros H Htx. unfold scrap_expired.
  apply wp_bind, wp_executescript_reset_to_scrap; intros Hn;
    [split; [exact H | right; eauto] |].
  rewrite Htx.
  match goal with |- wp ?m _ _ ?c1 =>
    assert (quiet w run_date m) as Hq; [| apply Hq; exact H]
  end.
  apply quiet_bind; [apply quiet_execute_insert_to_scrap | intros _].
  apply quiet_bind; [apply quiet_from_to_scrap | intros scrap].
  apply quiet_bind; [apply quiet_execute_update | intros _].
  apply quiet_bind;
    [apply quiet_execute_insert, expired_values_ts | intros _].
  destruct verbose; [| apply quiet_ret].
  apply quiet_bind; [apply quiet_execute_select_to_scrap | intros _].
  apply quiet_ret.
Qed.

End Quiet.

(** ** Without storage failures the same run happens *)

Lemma agrees_ret A (a : A) : agrees (ret a) (ret a).
Proof. intros c. reflexivity. Qed.

Lemma agrees_refl A (m : M A) : agrees m m.
Proof. intros c. destruct (m c) as [[a | [|]] c']; auto. Qed.

Lemma agrees_bind A B (m m0 : M A) (k k0 : A -> M B) :
  agrees m m0 -> (forall a, agrees (k a) (k0 a)) ->
  agrees (bind m k) (bind m0 k0).
Proof.
  intros Hm Hk c. unfold bind. specialize (Hm c).
  destruct (m c) as [[a | [|]] c1]; auto.
  - rewrite Hm. apply Hk.
  - now rewrite Hm.
Qed.

Section Agreement.

Variable w : World.

Let w0 := without_faults w.

Lemma agrees_call : agrees (call w) (call w0).
Proof.
  intros c. unfold call. simpl.
  destruct (operational_error w (calls c)); reflexivity.
Qed.

Lemma agrees_execute_select A (q : DB -> A) :
  agrees (execute_select w q) (execute_select w0 q).
Proof.
  apply agrees_bind; [apply agrees_call | intros; apply agrees_refl].
Qed.

Lemma agrees_execute_update sel f :
  agrees (execute_update w sel f) (execute_update w0 sel f).
Proof.
  apply agrees_bind; [apply agrees_call | intros; apply agrees_refl].
Qed.

Lemma agrees_execute_insert vs :
  agrees (execute_insert w vs) (execute_insert w0 vs).
Proof.
  apply agrees_bind; [apply agrees_call | intros; apply agrees_refl].
Qed.

Lemma agrees_deduct_rows run_date med rows : forall remaining,
  agrees (deduct_rows w run_date med rows remaining)
         (deduct_rows w0 run_date med rows remaining).
Proof.
  induction rows as [| [bid stock] rows IH]; intros remaining; simpl.
  - apply agrees_ret.
  - destruct (remaining <=? 0); [apply agrees_ret |].
    destruct (Z.min stock remaining <=? 0); [apply IH |].
    apply agrees_bind; [apply agrees_execute_update | intros _].
    apply agrees_bind; [apply agrees_execute_insert | intros _; apply IH].
Qed.

Lemma agrees_deduct_item run_date item :
  agrees (deduct_item w run_date item) (deduct_item w0 run_date item).
Proof.
  destruct item as [med need]. unfold deduct_item.
  apply agrees_bind; [apply agrees_execute_select | intros rows].
  apply agrees_bind; [apply agrees_deduct_rows | intros remaining].
  destruct (above_tolerance remaining);
    [apply agrees_execute_insert | apply agrees_ret].
Qed.

Lemma agrees_deduct_plan run_date plan :
  agrees (deduct_plan w run_date plan) (deduct_plan w0 run_date plan).
Proof.
  induction plan as [| item plan IH]; simpl; [apply agrees_ret |].
  apply agrees_bind; [apply agrees_deduct_item | intros _; exact IH].
Qed.

Lemma agrees_fefo_deduct run_date verbose :
  agrees (fefo_deduct w run_date verbose) (fefo_deduct w0 run_date verbose).
Proof.
  unfold fefo_deduct.
  apply agrees_bind; [apply agrees_execute_select | intros plan].
  destruct plan; [apply agrees_refl | apply agrees_deduct_plan].
Qed.

Lemma agrees_scrap_expired run_date verbose :
  agrees (scrap_expired w run_date verbose)
         (scrap_expired w0 run_date verbose).
Proof.
  unfold scrap_expired.
  apply agrees_bind;
    [apply agrees_bind; [apply agrees_call | intros; apply agrees_refl]
    | intros _].
  apply agrees_bind;
    [apply agrees_bind; [apply agrees_call | intros; apply agrees_refl]
    | intros _].
  apply agrees_bind; [apply agrees_refl | intros scrap].
  apply agrees_bind; [apply agrees_execute_update | intros _].
  apply agrees_bind; [apply agrees_execute_insert | intros _].
  destruct verbose; [| apply agrees_ret].
  apply agrees_bind; [| intros; apply agrees_ret].
  apply agrees_bind; [apply agrees_call | intros; apply agrees_refl].
Qed.

Lemma agrees_commit : agrees (commit w) (commit w0).
Proof.
  intros c. unfold commit.
  destruct (in_transaction c); [| reflexivity].
  apply (agrees_bind _ _ (call w) (call w0)); [apply agrees_call |].
  intros; apply agrees_refl.
Qed.

End Agreement.

(** ** All or nothing *)

Lemma bind_assoc A B C (m : M A) (f : A -> M B) (g : B -> M C) c :
  bind (bind m f) g c = bind m (fun x => bind (f x) g) c.
Proof.
  unfold bind. destruct (m c) as [[a | e] c']; reflexivity.
Qed.

Lemma main_body_split w args_date force verbose c :
  main_body w args_date force verbose c
  = (execute_pragma_foreign_keys w ;;
     ran <- already_ran_for w (run_date_of w args_date) ;;
     if ran && negb force
     then
       print ("[SKIP] FEFO already applied for " ++ run_date_of w args_date
              ++ ". Use --force to override.")%string ;;
       ret Skipped
     else
       transaction_part w (run_date_of w args_date) verbose ;;
       report_part w (run_date_of w args_date) verbose) c.
Proof.
  unfold main_body, transaction_part, report_part, bind.
  destruct (execute_pragma_foreign_keys w c) as [[[] | e] c1];
    [| reflexivity].
  destruct (already_ran_for w (run_date_of w args_date) c1)
    as [[ran | e] c2]; [| reflexivity].
  destruct (ran && negb force); [reflexivity |].
  destruct (scrap_expired w (run_date_of w args_date) verbose c2)
    as [[[] | e] c3]; [| reflexivity].
  destruct (fefo_deduct w (run_date_of w args_date) verbose c3)
    as [[[] | e] c4]; [| reflexivity].
  destruct (commit w c4) as [[[] | e] c5]; reflexivity.
Qed.

(** [main] step by step. *)
Lemma main_unfold (v : World) args_date force verbose db :
  main v args_date force verbose db
  = let d := run_date_of v args_date in
    if operational_error v 0
    then (Failed OperationalError, mkConn db db false false [] 1 [])
    else if operational_error v 1
    then (Failed OperationalError, mkConn db db false true [] 2 [])
    else if select_exists_run v d db && negb force
    then (Skipped,
          mkConn db db false true [] 2
            [("[SKIP] FEFO already applied for " ++ d
              ++ ". Use --force to override.")%string])
    else match transaction_part v d verbose
                 (mkConn db db false true [] 2 []) with
         | (Raise e, c3) => (Failed e, rollback c3)
         | (Ok _, c3) =>
             match report_part v d verbose c3 with
             | (Raise e, c4) => (Failed e, rollback c4)
             | (Ok o, c4) =>
                 match commit v c4 with
                 | (Ok _, c5) => (o, c5)
                 | (Raise e, c5) => (Failed e, c5)
                 end
             end
         end.
Proof.
  unfold main. rewrite main_body_split.
  unfold bind, execute_pragma_foreign_keys, already_ran_for, execute_select,
    bind, call.
  cbn [calls connect disk view in_transaction foreign_keys to_scrap stdout].
  destruct (operational_error v 0); [reflexivity |].
  cbn [calls connect disk view in_transaction foreign_keys to_scrap stdout].
  destruct (operational_error v 1); [reflexivity |].
  cbn [calls connect disk view in_transaction foreign_keys to_scrap stdout].
  destruct (select_exists_run v (run_date_of v args_date) db && negb force);
    [reflexivity |].
  destruct (transaction_part v (run_date_of v args_date) verbose _)
    as [[[] | e] c3]; [| reflexivity].
  destruct (report_part v (run_date_of v args_date) verbose c3)
    as [[o | e] c4]; reflexivity.
Qed.

Section Atomicity.

Variable w : World.

Let w0 := without_faults w.

Lemma transaction_part_spec run_date verbose c0 c :
  uncommitted run_date c0 c -> in_transaction c = false ->
  view c0 = disk c0 ->
  wp (transaction_part w run_date verbose)
     (fun _ c' =>
        in_transaction c' = false
        /\ exists new,
             stock_moves (disk c') = stock_moves (disk c0) ++ new
             /\ Forall (fun m => ts m = log_ts run_date) new)
     (fun e c' => disk c' = disk c0 /\ raised w e) c.
Proof.
  intros Hun Htx Hview. unfold transaction_part.
  apply wp_bind.
  eapply wp_mono;
    [apply (scrap_expired_uncommitted w run_date verbose c0 c Hun Htx)
    | | intros e c' [H ?]; split; [apply H | assumption]].
  intros [] c1 H1. apply wp_bind.
  eapply wp_mono;
    [apply (quiet_fefo_deduct w run_date verbose c0 c1 H1)
    | | intros e c' [H ?]; split; [apply H | assumption]].
  intros [] c2 (Hd & _ & _ & _ & new & Hnew & Hts).
  apply wp_commit.
  - intros Hno. split; [assumption |]. exists []. rewrite Hd, app_nil_r. auto.
  - intros _ Hn. split; [exact Hd | right; eauto].
  - intros _ _. simpl. split; [reflexivity |]. exists new.
    rewrite Hnew, Hview. auto.
Qed.

Lemma report_part_spec run_date verbose c :
  wp (report_part w run_date verbose)
     (fun o c' => o = Completed /\ disk c' = disk c
                  /\ in_transaction c' = in_transaction c)
     (fun e c' => e = OperationalError /\ verbose = true
                  /\ disk c' = disk c
                  /\ in_transaction c' = in_transaction c
                  /\ exists n, operational_error w n = true) c.
Proof.
  unfold report_part. apply wp_bind, wp_print.
  destruct verbose.
  - apply wp_bind, wp_bind, wp_execute_select; intros Hn; simpl.
    + repeat split; eauto.
    + apply wp_ret, wp_ret. auto.
  - apply wp_bind, wp_ret, wp_ret. auto.
Qed.

(** Without storage failures the report is made. *)
Lemma report_part_spec0 run_date verbose c :
  match report_part w0 run_date verbose c with
  | (Ok o, c') => o = Completed /\ disk c' = disk c
                  /\ in_transaction c' = in_transaction c
  | (Raise _, _) => False
  end.
Proof.
  unfold report_part, bind, print, execute_select, bind, call, ret.
  destruct verbose; simpl; auto.
Qed.

Lemma agrees_transaction_part run_date verbose :
  agrees (transaction_part w run_date verbose)
         (transaction_part w0 run_date verbose).
Proof.
  unfold transaction_part.
  apply agrees_bind; [apply agrees_scrap_expired | intros _].
  apply agrees_bind; [apply agrees_fefo_deduct | intros _].
  apply agrees_commit.
Qed.

Lemma agrees_report_part run_date verbose :
  agrees (report_part w run_date verbose) (report_part w0 run_date verbose).
Proof.
  unfold report_part.
  apply agrees_bind; [apply agrees_refl | intros _].
  apply agrees_bind; [| intros; apply agrees_ret].
  destruct verbose; [| apply agrees_ret].
  apply agrees_bind; [apply agrees_execute_select | intros; apply agrees_ret].
Qed.

Lemma agrees_ok A (m m0 : M A) c a c' :
  agrees m m0 -> m c = (Ok a, c') -> m0 c = (Ok a, c').
Proof. intros H Heq. specialize (H c). now rewrite Heq in H. Qed.

Lemma wp_ok A (m : M A) Q E c a c' :
  wp m Q E c -> m c = (Ok a, c') -> Q a c'.
Proof. unfold wp. intros H Heq. now rewrite Heq in H. Qed.

Lemma wp_raise A (m : M A) Q E c e c' :
  wp m Q E c -> m c = (Raise e, c') -> E e c'.
Proof. unfold wp. intros H Heq. now rewrite Heq in H. Qed.

(** How [main] ends in a world, next to how it ends in the same world
    without storage failures. *)
Lemma main_cases args_date force verbose db o c' :
  main w args_date force verbose db = (o, c') ->
  exists o0 c0',
    main w0 args_date force verbose db = (o0, c0')
    /\ (exists new,
          stock_moves (disk c') = stock_moves db ++ new
          /\ Forall (fun m => ts m = log_ts (run_date_of w args_date)) new)
    /\ match o with
       | Skipped => disk c' = db /\ o0 = Skipped
       | Completed => o0 = Completed /\ c0' = c'
       | Failed e =>
           disk c' = db
           \/ (verbose = true /\ e = OperationalError
               /\ o0 = Completed /\ disk c0' = disk c')
       end.
Proof.
  assert (exists new : list StockMove,
             stock_moves db = stock_moves db ++ new
             /\ Forall (fun m => ts m = log_ts (run_date_of w args_date)) new)
    as Hnone by (exists []; rewrite app_nil_r; auto).
  assert (forall e c, disk c = db ->
            exists o0 c0',
              main w0 args_date force verbose db = (o0, c0')
              /\ (exists new,
                    stock_moves (disk c) = stock_moves db ++ new
                    /\ Forall (fun m => ts m = log_ts (run_date_of w args_date))
                              new)
              /\ (disk c = db
                  \/ (verbose = true /\ e = OperationalError
                      /\ o0 = Completed /\ disk c0' = disk c))) as Hfail.
  { intros e c Hc. destruct (main w0 args_date force verbose db) as [o0 c0'].
    exists o0, c0'. rewrite Hc. auto. }
  intros Hmain. rewrite (main_unfold w) in Hmain.
  set (d := run_date_of w args_date) in *.
  cbv zeta in Hmain.
  destruct (operational_error w 0) eqn:Hf0.
  { injection Hmain as <- <-. now apply Hfail. }
  destruct (operational_error w 1) eqn:Hf1.
  { injection Hmain as <- <-. now apply Hfail. }
  assert (main w0 args_date force verbose db
          = if select_exists_run w d db && negb force
            then (Skipped,
                  mkConn db db false true [] 2
                    [("[SKIP] FEFO already applied for " ++ d
                      ++ ". Use --force to override.")%string])
            else match transaction_part w0 d verbose
                         (mkConn db db false true [] 2 []) with
                 | (Raise e, c3) => (Failed e, rollback c3)
                 | (Ok _, c3) =>
                     match report_part w0 d verbose c3 with
                     | (Raise e, c4) => (Failed e, rollback c4)
                     | (Ok o, c4) =>
                         match commit w0 c4 with
                         | (Ok _, c5) => (o, c5)
                         | (Raise e, c5) => (Failed e, c5)
                         end
                     end
                 end) as Hmain0 by (rewrite main_unfold; reflexivity).
  destruct (select_exists_run w d db && negb force).
  { injection Hmain as <- <-.
    eexists _, _. split; [exact Hmain0 |]. simpl. auto. }
  set (c2 := mkConn db db false true [] 2 []) in *.
  pose proof (transaction_part_spec d verbose c2 c2
                (uncommitted_refl d c2) eq_refl eq_refl) as HT.
  pose proof (agrees_transaction_part d verbose) as HTa.
  destruct (transaction_part w d verbose c2) as [[[] | e] c3] eqn:HTw.
  2:{ apply (wp_raise _ _ _ _ _ _ _ HT) in HTw. destruct HTw as [HTw _].
      simpl in HTw. injection Hmain as <- <-. now apply Hfail. }
  fold w0 in HTa.
  rewrite (agrees_ok _ _ _ _ _ _ HTa HTw) in Hmain0.
  apply (wp_ok _ _ _ _ _ _ _ HT) in HTw.
  destruct HTw as (Htx3 & Hmoves3). simpl in Hmoves3.
  pose proof (report_part_spec d verbose c3) as HR.
  pose proof (agrees_report_part d verbose) as HRa. fold w0 in HRa.
  destruct (report_part w d verbose c3) as [[o1 | e] c4] eqn:HRw.
  - rewrite (agrees_ok _ _ _ _ _ _ HRa HRw) in Hmain0.
    apply (wp_ok _ _ _ _ _ _ _ HR) in HRw.
    destruct HRw as (-> & Hd4 & Htx4).
    unfold commit in Hmain, Hmain0. rewrite Htx4, Htx3 in Hmain, Hmain0.
    injection Hmain as <- <-.
    eexists _, _. split; [exact Hmain0 |]. rewrite Hd4. auto.
  - apply (wp_raise _ _ _ _ _ _ _ HR) in HRw.
    destruct HRw as (-> & -> & Hd4 & Htx4 & _).
    injection Hmain as <- <-.
    pose proof (report_part_spec0 d true c3) as HR0.
    destruct (report_part w0 d true c3) as [[o1 | e] c4'] eqn:HRw0.
    + destruct HR0 as (-> & Hd4' & Htx4').
      unfold commit in Hmain0. rewrite Htx4', Htx3 in Hmain0.
      eexists _, _. split; [exact Hmain0 |]. simpl.
      rewrite Hd4. split; [assumption |]. right. auto.
    + destruct HR0 as [].
Qed.

End Atomicity.

(** ** Accounting of the loop *)

Lemma left_over_nonpos rows remaining :
  remaining <= 0 -> left_over rows remaining = remaining.
Proof.
  intros H. destruct rows as [| [bid stock] rows]; simpl; [reflexivity |].
  assert ((remaining <=? 0) = true) as -> by lia. reflexivity.
Qed.

Lemma takes_nonpos rows remaining :
  remaining <= 0 -> takes rows remaining = [].
Proof.
  intros H. destruct rows as [| [bid stock] rows]; simpl; [reflexivity |].
  assert ((remaining <=? 0) = true) as -> by lia. reflexivity.
Qed.

(** What is taken and what is left add up to what was needed. *)
Lemma takes_sum rows : forall remaining,
  sumZ (map snd (takes rows remaining)) + left_over rows remaining
  = remaining.
Proof.
  induction rows as [| [bid stock] rows IH]; intros remaining; simpl;
    [lia |].
  destruct (remaining <=? 0); simpl; [lia |].
  destruct (Z.min stock remaining <=? 0); simpl; [apply IH |].
  specialize (IH (remaining - Z.min stock remaining)). lia.
Qed.

Lemma sumZ_nonneg l : Forall (fun z => 0 < z) l -> 0 <= sumZ l.
Proof.
  induction 1 as [| z l Hz _ IH]; simpl; lia.
Qed.

(** With stock in every row, the loop leaves unmet exactly what the rows
    cannot cover. *)
Lemma left_over_spec rows : forall remaining,
  Forall (fun r => 0 < snd r) rows -> 0 < remaining ->
  left_over rows remaining = Z.max 0 (remaining - sumZ (map snd rows)).
Proof.
  induction rows as [| [bid stock] rows IH]; intros remaining Hrows Hrem;
    simpl; [lia |].
  inversion Hrows as [| ? ? Hs Hrows']; subst. simpl in Hs.
  assert ((remaining <=? 0) = false) as -> by lia.
  assert ((Z.min stock remaining <=? 0) = false) as -> by lia.
  assert (0 <= sumZ (map snd rows)) as Hsum.
  { apply sumZ_nonneg. rewrite Forall_map. exact Hrows'. }
  destruct (Z.le_gt_cases remaining stock) as [Hle | Hgt].
  - rewrite Z.min_r by lia. rewrite left_over_nonpos by lia. lia.
  - rewrite Z.min_l by lia. rewrite IH by (auto; lia). lia.
Qed.

(** The loop drains a prefix of the rows and stops inside one row. *)
Lemma takes_split bs : forall need,
  Forall (fun b => 0 < stock_units b) bs ->
  0 < need -> need <= sumZ (map stock_units bs) ->
  exists pre b post,
    bs = pre ++ b :: post
    /\ sumZ (map stock_units pre) < need
    /\ need <= sumZ (map stock_units pre) + stock_units b
    /\ takes (map row_of bs) need
       = map row_of pre ++ [(batch_id b, need - sumZ (map stock_units pre))].
Proof.
  induction bs as [| x bs IH]; intros need Hbs Hpos Hle; simpl in *; [lia |].
  inversion Hbs as [| ? ? Hx Hbs']; subst.
  assert ((need <=? 0) = false) as -> by lia.
  assert ((Z.min (stock_units x) need <=? 0) = false) as -> by lia.
  destruct (Z.le_gt_cases need (stock_units x)) as [Hfit | Hmore].
  - exists [], x, bs. simpl. rewrite Z.min_r by lia.
    rewrite takes_nonpos by lia. repeat split; try lia.
    now rewrite Z.sub_0_r.
  - rewrite Z.min_l by lia.
    destruct (IH (need - stock_units x) Hbs') as (pre & b & post & -> & H1 & H2 & H3);
      try lia.
    exists (x :: pre), b, post. simpl. rewrite H3.
    repeat split; try lia.
    replace (need - stock_units x - sumZ (map stock_units pre))
      with (need - (stock_units x + sumZ (map stock_units pre))) by lia.
    reflexivity.
Qed.

(** Sum of the second components filed under a key, when keys are unique. *)
Lemma sum_at_key_absent (l : list (Z * Z)) k :
  ~ In k (map fst l) ->
  sumZ (map snd (filter (fun t => fst t =? k) l)) = 0.
Proof.
  induction l as [| [i v] l IH]; simpl; intros H; [reflexivity |].
  destruct (Z.eqb_spec i k); [tauto | apply IH; tauto].
Qed.

Lemma sum_at_key_present (l : list (Z * Z)) k v :
  NoDup (map fst l) -> In (k, v) l ->
  sumZ (map snd (filter (fun t => fst t =? k) l)) = v.
Proof.
  induction l as [| [i x] l IH]; simpl; intros Hnd Hin; [contradiction |].
  inversion Hnd as [| ? ? Hi Hl]; subst.
  destruct Hin as [Heq | Hin].
  - injection Heq as -> ->. rewrite Z.eqb_refl. simpl.
    rewrite sum_at_key_absent by assumption. lia.
  - destruct (Z.eqb_spec i k) as [-> | Hne].
    + exfalso. apply Hi. change k with (fst (k, v)). now apply in_map.
    + now apply IH.
Qed.

(** [remaining > 1e-6] on an integer. *)
Lemma above_tolerance_spec remaining :
  above_tolerance remaining = (0 <? remaining).
Proof.
  unfold above_tolerance, tolerance, Qle_bool. simpl.
  destruct (Z.ltb_spec 0 remaining); [apply negb_true_iff | apply negb_false_iff];
    [apply Z.leb_gt | apply Z.leb_le]; lia.
Qed.

(** ** Reading the ledger after a run *)

Lemma appended_app db db' new :
  stock_moves db' = stock_moves db ++ new -> appended db db' = new.
Proof.
  unfold appended. intros ->.
  induction (stock_moves db) as [| m l IH]; simpl; auto.
Qed.

Lemma appended_same db : appended db db = [].
Proof. apply appended_app. now rewrite app_nil_r. Qed.

Lemma find_related (R : Batch -> Batch -> Prop) (l l' : list Batch) x :
  Forall2 R l l' ->
  (forall a b, R a b -> batch_id b = batch_id a) ->
  NoDup (map batch_id l) -> In x l ->
  exists y, find (fun b => batch_id b =? batch_id x) l' = Some y /\ R x y.
Proof.
  intros H Hid. induction H as [| a b l l' Hab _ IH]; simpl; intros Hnd Hx;
    [contradiction |].
  inversion Hnd as [| ? ? Ha Hl]; subst.
  destruct Hx as [-> | Hx].
  - rewrite (Hid _ _ Hab), Z.eqb_refl. eauto.
  - destruct (Z.eqb_spec (batch_id b) (batch_id x)) as [Heq | Hne].
    + exfalso. apply Ha. rewrite <- (Hid _ _ Hab), Heq. now apply in_map.
    + now apply IH.
Qed.

Lemma filter_map_comm A B (f : A -> B) (p : B -> bool) (l : list A) :
  filter p (map f l) = map f (filter (fun x => p (f x)) l).
Proof.
  induction l as [| x l IH]; simpl; [reflexivity |].
  destruct (p (f x)); simpl; now rewrite IH.
Qed.

Lemma filter_flat_map {Item Row} (rows_of : Item -> list Row)
    (keep : Row -> bool) (items : list Item) :
  filter keep (flat_map rows_of items)
  = flat_map (fun item => filter keep (rows_of item)) items.
Proof.
  induction items as [| item items IH]; simpl; [reflexivity |].
  now rewrite filter_app, IH.
Qed.

Lemma filter_all A (p : A -> bool) (l : list A) :
  (forall x, In x l -> p x = true) -> filter p l = l.
Proof.
  induction l as [| x l IH]; simpl; intros H; [reflexivity |].
  rewrite (H x (or_introl eq_refl)). f_equal. apply IH.
  intros y Hy. apply H. now right.
Qed.

Lemma flat_map_nil A B (g : A -> list B) (l : list A) :
  (forall y, In y l -> g y = []) -> flat_map g l = [].
Proof.
  induction l as [| x l IH]; simpl; intros H; [reflexivity |].
  rewrite (H x (or_introl eq_refl)). apply IH. intros y Hy. apply H. now right.
Qed.

(** In a plan with one entry per medicine, what only one entry
    contributes to is what that entry contributes. *)
Lemma flat_map_select B (g : string * Z -> list B) (plan : list (string * Z))
    item :
  NoDup (map fst plan) -> In item plan ->
  (forall y, In y plan -> fst y <> fst item -> g y = []) ->
  flat_map g plan = g item.
Proof.
  induction plan as [| x plan IH]; simpl; intros Hnd Hin Hg; [contradiction |].
  inversion Hnd as [| ? ? Hx Hplan]; subst.
  destruct Hin as [-> | Hin].
  - rewrite flat_map_nil; [apply app_nil_r |].
    intros y Hy. apply Hg; [now right |].
    intros Heq. apply Hx. rewrite <- Heq. now apply in_map.
  - rewrite Hg; [| now left |].
    + simpl. apply IH; auto.
    + intros Heq. apply Hx. rewrite Heq. now apply in_map.
Qed.

Lemma consumed_values med new :
  consumed med new
  = sumZ (map (fun v => - v_qty_change v)
              (filter (v_is_move "daily_dose" med) (map values new))).
Proof.
  unfold consumed. rewrite filter_map_comm, map_map. reflexivity.
Qed.

Section Item_values.

Variable w : World.
Variable run_date : string.
Variable db : DB.

Let rows (med : string) := select_candidates w med run_date db.

Lemma item_values_daily_dose med need med' :
  filter (v_is_move "daily_dose" med') (item_values w run_date db (med, need))
  = if String.eqb med med'
    then map (fun t => daily_dose_values run_date med (fst t) (snd t))
             (takes (rows med) need)
    else [].
Proof.
  unfold item_values. cbn [fst snd]. fold (rows med).
  rewrite filter_app.
  assert (filter (v_is_move "daily_dose" med')
            (if above_tolerance (left_over (rows med) need)
             then [shortfall_values run_date med (left_over (rows med) need)]
             else []) = []) as ->.
  { destruct (above_tolerance _); reflexivity. }
  rewrite app_nil_r.
  destruct (String.eqb med med') eqn:Hm.
  - apply filter_all. intros v Hv. apply in_map_iff in Hv.
    destruct Hv as (t & <- & _). unfold v_is_move. simpl. exact Hm.
  - apply filter_none. intros v Hv. apply in_map_iff in Hv.
    destruct Hv as (t & <- & _). unfold v_is_move. simpl. exact Hm.
Qed.

Lemma item_values_shortfall med need med' :
  filter (v_is_move "shortfall" med') (item_values w run_date db (med, need))
  = if String.eqb med med' && above_tolerance (left_over (rows med) need)
    then [shortfall_values run_date med (left_over (rows med) need)]
    else [].
Proof.
  unfold item_values. cbn [fst snd]. fold (rows med).
  rewrite filter_app.
  rewrite (filter_none _ _ (map _ _)).
  2:{ intros v Hv. apply in_map_iff in Hv.
      destruct Hv as (t & <- & _). reflexivity. }
  destruct (above_tolerance _); simpl;
    [| now rewrite andb_false_r].
  unfold v_is_move. simpl. rewrite andb_true_r.
  destruct (String.eqb med med'); reflexivity.
Qed.

Lemma item_values_refers med need bid :
  filter (v_refers_to bid) (item_values w run_date db (med, need))
  = map (fun t => daily_dose_values run_date med (fst t) (snd t))
        (filter (fun t => fst t =? bid) (takes (rows med) need)).
Proof.
  unfold item_values. cbn [fst snd]. fold (rows med).
  rewrite filter_app.
  assert (filter (v_refers_to bid)
            (if above_tolerance (left_over (rows med) need)
             then [shortfall_values run_date med (left_over (rows med) need)]
             else []) = []) as ->.
  { destruct (above_tolerance _); reflexivity. }
  rewrite app_nil_r. apply filter_map_comm.
Qed.

Lemma expired_values_not_allocation r med scrap :
  r = "daily_dose" \/ r = "shortfall" ->
  filter (v_is_move r med) (expired_values run_date scrap) = [].
Proof.
  intros Hr. apply filter_none. intros v Hv. unfold expired_values in Hv.
  apply in_map_iff in Hv. destruct Hv as (x & <- & _).
  unfold v_is_move. simpl. destruct Hr as [-> | ->]; reflexivity.
Qed.

Lemma rows_positive med : Forall (fun r => 0 < snd r) (rows med).
Proof.
  apply Forall_forall. intros r Hr. unfold rows, select_candidates in Hr.
  apply in_map_iff in Hr. destruct Hr as (b & <- & Hb).
  apply fefo_batches_in in Hb. destruct Hb as [_ Hc].
  apply candidate_condition_true in Hc. simpl. tauto.
Qed.

Lemma rows_sum med :
  sumZ (map snd (rows med)) = eligible_stock w med run_date db.
Proof.
  unfold rows, select_candidates, eligible_stock. now rewrite map_map.
Qed.

Hypothesis Hwf : wf_db db.

(** The allocation movements of a medicine are those of its plan entry. *)
Lemma plan_values_of_item (p : MoveValues -> bool) med need :
  In (med, need) (select_plan db) ->
  (forall v, p v = true -> v_medicine_id v = med) ->
  filter p (flat_map (item_values w run_date db) (select_plan db))
  = filter p (item_values w run_date db (med, need)).
Proof.
  intros Hin Hp. rewrite filter_flat_map.
  apply (flat_map_select _ (fun x => filter p (item_values w run_date db x))
           _ (med, need)); auto.
  - apply select_plan_fst, Hwf.
  - intros [med' need'] _ Hne. simpl in Hne.
    apply filter_none. intros v Hv.
    apply item_values_in in Hv. destruct Hv as (_ & Hm & _).
    destruct (p v) eqn:Hpv; [| reflexivity].
    apply Hp in Hpv. congruence.
Qed.

Lemma v_is_move_medicine r med v :
  v_is_move r med v = true -> v_medicine_id v = med.
Proof.
  unfold v_is_move. intros H. apply andb_prop in H.
  now apply String.eqb_eq.
Qed.

(** What a run consumes of a planned medicine: what it needs, up to what
    its eligible batches hold. *)
Lemma applied_consumed db' med need :
  applied w run_date db db' ->
  In (med, need) (select_plan db) ->
  consumed med (appended db db')
  = Z.min need (eligible_stock w med run_date db).
Proof.
  intros (_ & _ & expired & alloc & Hmoves & Hexp & Halloc & _) Hin.
  rewrite (appended_app _ _ _ Hmoves), consumed_values, map_app, filter_app.
  rewrite Hexp, expired_values_not_allocation by auto.
  rewrite Halloc. simpl.
  rewrite (plan_values_of_item _ med need Hin (v_is_move_medicine _ _)).
  rewrite item_values_daily_dose, String.eqb_refl, map_map. simpl.
  assert (0 < need) as Hpos by (apply select_plan_in in Hin; tauto).
  pose proof (takes_sum (rows med) need) as Hsum.
  rewrite (left_over_spec _ _ (rows_positive med) Hpos), rows_sum in Hsum.
  replace (sumZ (map (fun t => - - snd t) (takes (rows med) need)))
    with (sumZ (map snd (takes (rows med) need))); [lia |].
  f_equal. apply map_ext. intros; lia.
Qed.

End Item_values.

(** ** The stock of the batches after a run *)

Lemma StronglySorted_impl_in A (R R' : A -> A -> Prop) (l : list A) :
  (forall a b, In a l -> In b l -> R a b -> R' a b) ->
  StronglySorted R l -> StronglySorted R' l.
Proof.
  intros Himp H. induction H as [| x l Hl IH Hx]; constructor.
  - apply IH. intros a b Ha Hb. apply Himp; now right.
  - rewrite Forall_forall in Hx |- *. intros y Hy.
    apply Himp; [now left | now right | auto].
Qed.

Lemma string_leb_refl s : String.leb s s = true.
Proof. unfold String.leb. now rewrite string_compare_refl. Qed.

(** On eligible rows the sort key orders as the words say. *)
Lemma fefo_le_before w med run_date a b :
  candidate_condition w med run_date a = Some true ->
  candidate_condition w med run_date b = Some true ->
  fefo_le w a b -> fefo_before w a b.
Proof.
  rewrite !candidate_condition_true.
  intros (_ & _ & Ha) (_ & _ & Hb).
  unfold fefo_le, fefo_leb, fefo_compare, fefo_before, lex.
  destruct (expiry_date a) as [ea |], (expiry_date b) as [eb |]; simpl;
    auto; try discriminate.
  - destruct Ha as [Ha | Ha]; [discriminate |].
    destruct Hb as [Hb | Hb]; [discriminate |].
    simpl in Ha, Hb.
    destruct (sql_date w ea) as [da |]; [| discriminate].
    destruct (sql_date w eb) as [d' |]; [| discriminate].
    simpl. unfold String.ltb.
    destruct (String.compare da d') eqn:Hc.
    + apply String.compare_eq_iff in Hc. subst.
      destruct (Z.compare_spec (batch_id a) (batch_id b)); try discriminate;
        intros _; right; split; auto; lia.
    + intros _. now left.
    + discriminate.
  - destruct (Z.compare_spec (batch_id a) (batch_id b)); try discriminate;
      intros _; lia.
Qed.

Section Stock_after.

Variable w : World.
Variable run_date : string.
Variable db db' : DB.

Hypothesis Hwf : wf_db db.
Hypothesis Happlied : applied w run_date db db'.

Lemma applied_stock_in x :
  In x (batches db) ->
  stock_in db' (batch_id x)
  = Some (stock_units x + delta_for (batch_id x) (appended db db')).
Proof.
  intros Hx.
  destruct Happlied as (_ & _ & expired & alloc & Hmoves & _ & _ & Hb).
  rewrite (appended_app _ _ _ Hmoves).
  destruct (find_related (batch_step (expired ++ alloc)) _ _ x Hb)
    as (y & Hfind & Hstep); auto.
  - intros a b Hab. apply Hab.
  - apply Hwf.
  - unfold stock_in. rewrite Hfind. simpl. f_equal. apply Hstep.
Qed.

(** A batch that no appended movement refers to is left as it was. *)
Lemma applied_untouched x :
  In x (batches db) -> delta_for (batch_id x) (appended db db') = 0 ->
  In x (batches db').
Proof.
  intros Hx Hd.
  destruct Happlied as (_ & _ & expired & alloc & Hmoves & _ & _ & Hb).
  rewrite (appended_app _ _ _ Hmoves) in Hd.
  destruct (Forall2_in_l _ _ _ _ x Hb Hx) as (y & Hy & Hstep).
  destruct Hstep as (_ & _ & _ & _ & Hs & _ & _ & Hu).
  rewrite <- (Hu ltac:(lia)). exact Hy.
Qed.

(** What allocation moved on a batch is what the loop took from its row. *)
Lemma applied_delta x med need :
  In x (batches db) -> medicine_id x = med ->
  scrap_condition w run_date x <> Some true ->
  In (med, need) (select_plan db) ->
  delta_for (batch_id x) (appended db db')
  = - sumZ (map snd (filter (fun t => fst t =? batch_id x)
                       (takes (select_candidates w med run_date db) need))).
Proof.
  intros Hx Hmed Hscrap Hin.
  destruct Happlied as (_ & _ & expired & alloc & Hmoves & Hexp & Halloc & _).
  rewrite (appended_app _ _ _ Hmoves), delta_for_app.
  rewrite (delta_for_values _ expired), Hexp, expired_sum_select
    by (auto; apply Hwf).
  assert (where_true (scrap_condition w run_date x) = false) as ->.
  { destruct (scrap_condition w run_date x) as [[|] |]; auto; congruence. }
  rewrite delta_for_values, Halloc, filter_flat_map.
  rewrite (flat_map_select _
             (fun it => filter (v_refers_to (batch_id x))
                          (item_values w run_date db it)) _ (med, need)).
  - rewrite item_values_refers, map_map. simpl.
    rewrite <- (Z.opp_involutive (sumZ (map (fun t => - snd t) _))).
    f_equal.
    induction (filter _ _) as [| t l IH]; simpl; [reflexivity | lia].
  - apply select_plan_fst, Hwf.
  - exact Hin.
  - intros [med' need'] _ Hne. simpl in Hne.
    apply filter_none. intros v Hv.
    apply item_values_in in Hv. destruct Hv as (_ & _ & _ & Hv).
    unfold v_refers_to. destruct (v_batch_id v) as [i |]; [| reflexivity].
    destruct (Z.eqb_spec i (batch_id x)) as [-> | ]; [| reflexivity].
    destruct (Hv _ eq_refl) as (b & Hb & Hid).
    apply fefo_batches_in in Hb. destruct Hb as [Hb Hc].
    apply candidate_condition_true in Hc.
    assert (b = x) by (eapply NoDup_map_eq; eauto; apply Hwf).
    subst b. destruct Hc as (Hc & _). congruence.
Qed.

End Stock_after.

(** * Scenarios *)

(** The scenario of the specification: two batches of A, 50 units expiring
    2024-01-10 and 30 units expiring 2024-02-01, 60 units a day.  The run
    for 2024-01-05 takes 50 and 10 and leaves 20 in the second batch. *)
Example run_of_2024_01_05 :
  let r := main calm_world (Some "2024-01-05") false false pharmacy in
  fst r = Completed
  /\ map (fun m => (mv_medicine_id m, mv_batch_id m, qty_change m, reason m))
         (stock_moves (disk (snd r)))
     = [("C", Some 4, -8, "expired");
        ("A", Some 1, -50, "daily_dose");
        ("A", Some 2, -10, "daily_dose");
        ("B", Some 3, -5, "daily_dose");
        ("B", None, 0, "shortfall")]
  /\ map stock_units (batches (disk (snd r))) = [0; 20; 0; 0; 0]
  /\ stdout (snd r) = ["[OK] FEFO daily deduction complete for 2024-01-05."].
Proof. vm_compute. repeat split; reflexivity. Qed.

(** The run for 2024-01-15 on the same stock: the first batch has expired
    and is reclaimed, the second gives its 30 units, 30 are short.  The two
    'expired' movements come in the order of [idx_batches_expiry], the batch
    of C (expired 2023-12-31) before the batch of A (expired 2024-01-10),
    although the table holds them the other way round. *)
Example run_of_2024_01_15 :
  let r := main calm_world (Some "2024-01-15") false false pharmacy in
  fst r = Completed
  /\ map (fun m => (mv_medicine_id m, mv_batch_id m, qty_change m, reason m,
                    note m))
         (stock_moves (disk (snd r)))
     = [("C", Some 4, -8, "expired",
         Some "Auto-scrap expired before 2024-01-15");
        ("A", Some 1, -50, "expired",
         Some "Auto-scrap expired before 2024-01-15");
        ("A", Some 2, -30, "daily_dose",
         Some "FEFO daily deduction 2024-01-15");
        ("A", None, 0, "shortfall",
         Some "Needed 30.0 more units on 2024-01-15");
        ("B", Some 3, -5, "daily_dose",
         Some "FEFO daily deduction 2024-01-15");
        ("B", None, 0, "shortfall",
         Some "Needed 2.0 more units on 2024-01-15")]
  /\ map stock_units (batches (disk (snd r))) = [0; 0; 0; 0; 0].
Proof. vm_compute. repeat split; reflexivity. Qed.

(** A storage failure in the middle of allocation (the UPDATE of the second
    batch of A): the exception leaves [main], the uncommitted changes of
    the view are rolled back. *)
Example failure_during_allocation :
  let r := main (failing_at 10) (Some "2024-01-05") false false pharmacy in
  fst r = Failed OperationalError
  /\ disk (snd r) = pharmacy /\ view (snd r) = pharmacy
  /\ calls (snd r) = 11%nat.
Proof. vm_compute. repeat split; reflexivity. Qed.

(** With [--verbose] the last query comes after the commit: when it fails
    the run has been applied in full. *)
Example failure_after_commit :
  let r := main (failing_at 18) (Some "2024-01-05") false true pharmacy in
  fst r = Failed OperationalError
  /\ disk (snd r)
     = disk (snd (main calm_world (Some "2024-01-05") false true pharmacy))
  /\ map stock_units (batches (disk (snd r))) = [0; 20; 0; 0; 0].
Proof. vm_compute. repeat split; reflexivity. Qed.

(** * The claims *)

Lemma reliable_calm_world : reliable calm_world.
Proof. intros n. reflexivity. Qed.

Lemma wf_pharmacy : wf_db pharmacy.
Proof. apply check_db_sound. reflexivity. Qed.

Lemma NoDup_app_not_in A (l1 l2 : list A) x :
  NoDup (l1 ++ l2) -> In x l1 -> In x l2 -> False.
Proof.
  induction l1 as [| a l1 IH]; simpl; intros Hnd H1 H2; [contradiction |].
  inversion Hnd as [| ? ? Ha Hl]; subst.
  destruct H1 as [-> | H1]; [| now apply IH].
  apply Ha. apply in_or_app. now right.
Qed.

(** C1.  For every item of the plan (units_per_day > 0) whose eligible
    batches (stock > 0, expiry null or on or after the run date) hold at
    least units_per_day units in all, one run consumes exactly units_per_day
    units from the item's batches, and drains them in FEFO order: dated
    batches by ascending date, undated batches last, ties by ascending batch
    identifier.  The candidates are the eligible batches sorted in that
    order; the run empties a prefix [pre] of them, takes the rest of the
    need from the next batch [b], and leaves the batches after it as they
    were. *)
Theorem fefo_consumes_exactly_in_order
    w args_date force verbose db med need :
  reliable w -> wf_db db ->
  select_exists_run w (run_date_of w args_date) db && negb force = false ->
  In (med, need) (select_plan db) ->
  need <= eligible_stock w med (run_date_of w args_date) db ->
  exists c',
    main w args_date force verbose db = (Completed, c')
    /\ consumed med (appended db (disk c')) = need
    /\ (forall b,
          In b (fefo_batches w med (run_date_of w args_date) db) <->
          In b (batches db) /\ medicine_id b = med /\ 0 < stock_units b
          /\ (expiry_date b = None
              \/ sql_text_ge (date_of w (expiry_date b))
                             (sql_date w (run_date_of w args_date))
                 = Some true))
    /\ StronglySorted (fefo_before w)
                      (fefo_batches w med (run_date_of w args_date) db)
    /\ exists pre b post,
         fefo_batches w med (run_date_of w args_date) db = pre ++ b :: post
         /\ sumZ (map stock_units pre) < need
            <= sumZ (map stock_units pre) + stock_units b
         /\ (forall x, In x pre -> stock_in (disk c') (batch_id x) = Some 0)
         /\ stock_in (disk c') (batch_id b)
            = Some (sumZ (map stock_units pre) + stock_units b - need)
         /\ (forall x, In x post -> In x (batches (disk c'))).
Proof.
  intros Hrel Hwf Hguard Hin Hle.
  set (d := run_date_of w args_date) in *.
  destruct (main_completes w args_date force verbose db Hrel Hwf Hguard)
    as (c' & Hmain & Happ).
  fold d in Happ. exists c'. split; [exact Hmain |].
  assert (0 < need) as Hpos by (apply select_plan_in in Hin; tauto).
  split; [rewrite (applied_consumed w d db Hwf _ med need Happ Hin); lia |].
  split.
  { intros b. rewrite fefo_batches_in, candidate_condition_true. tauto. }
  split.
  { apply StronglySorted_impl_in with (R := fefo_le w);
      [| apply fefo_batches_sorted].
    intros a b Ha Hb. apply fefo_batches_in in Ha, Hb.
    apply fefo_le_before with (med := med) (run_date := d); tauto. }
  assert (Forall (fun b => 0 < stock_units b) (fefo_batches w med d db))
    as Hstock.
  { apply Forall_forall. intros b Hb. apply fefo_batches_in in Hb.
    destruct Hb as [_ Hc]. apply candidate_condition_true in Hc. tauto. }
  destruct (takes_split (fefo_batches w med d db) need Hstock Hpos Hle)
    as (pre & b & post & Hsplit & Hlt & Hge & Htakes).
  change (map row_of (fefo_batches w med d db))
    with (select_candidates w med d db) in Htakes.
  exists pre, b, post. split; [exact Hsplit |]. split; [lia |].
  assert (forall x, In x (fefo_batches w med d db) ->
            In x (batches db) /\ medicine_id x = med
            /\ scrap_condition w d x <> Some true) as Hcand.
  { intros x Hx. apply fefo_batches_in in Hx. destruct Hx as [Hx Hc].
    repeat split; auto.
    - apply candidate_condition_true in Hc. tauto.
    - intros Hs. now apply (scrap_not_candidate w med d x Hs). }
  assert (NoDup (map batch_id (pre ++ b :: post))) as Hnd.
  { rewrite <- Hsplit. apply fefo_batches_NoDup, Hwf. }
  assert (map fst (map row_of pre
                   ++ [(batch_id b, need - sumZ (map stock_units pre))])
          = map batch_id (pre ++ [b])) as Hfst
    by (rewrite !map_app, map_map; reflexivity).
  replace (pre ++ b :: post) with ((pre ++ [b]) ++ post) in Hnd
    by (rewrite <- app_assoc; reflexivity).
  rewrite map_app in Hnd.
  assert (NoDup (map fst (map row_of pre ++ [(batch_id b,
                   need - sumZ (map stock_units pre))]))) as Hnd1
    by (rewrite Hfst; now apply NoDup_app_remove_r in Hnd).
  assert (forall x, In x (fefo_batches w med d db) ->
            delta_for (batch_id x) (appended db (disk c'))
            = - sumZ (map snd (filter (fun t => fst t =? batch_id x)
                   (map row_of pre ++ [(batch_id b,
                      need - sumZ (map stock_units pre))])))) as Hdelta.
  { intros x Hx. destruct (Hcand x Hx) as (H1 & H2 & H3).
    rewrite <- Htakes. now apply (applied_delta w d db (disk c') Hwf Happ). }
  split; [| split].
  - intros x Hx.
    assert (In x (fefo_batches w med d db)) as Hx'
      by (rewrite Hsplit; apply in_or_app; now left).
    rewrite (applied_stock_in w d db (disk c') Hwf Happ x)
      by (apply Hcand, Hx').
    rewrite (Hdelta x Hx').
    rewrite (sum_at_key_present _ (batch_id x) (stock_units x) Hnd1).
    + f_equal. lia.
    + apply in_or_app. left. apply in_map_iff. exists x. auto.
  - assert (In b (fefo_batches w med d db)) as Hb'
      by (rewrite Hsplit; apply in_or_app; right; now left).
    rewrite (applied_stock_in w d db (disk c') Hwf Happ b)
      by (apply Hcand, Hb').
    rewrite (Hdelta b Hb').
    rewrite (sum_at_key_present _ (batch_id b)
               (need - sumZ (map stock_units pre)) Hnd1).
    + f_equal. lia.
    + apply in_or_app. right. now left.
  - intros x Hx.
    assert (In x (fefo_batches w med d db)) as Hx'
      by (rewrite Hsplit; apply in_or_app; right; now right).
    apply (applied_untouched w d db (disk c') Happ x); [apply Hcand, Hx' |].
    rewrite (Hdelta x Hx'), sum_at_key_absent; [reflexivity |].
    rewrite Hfst. intros Hin'.
    apply (NoDup_app_not_in _ _ _ (batch_id x) Hnd Hin').
    now apply in_map.
Qed.

Lemma fefo_consumes_exactly_in_order_witness :
  (reliable calm_world /\ wf_db pharmacy
   /\ In ("A", 60) (select_plan pharmacy)
   /\ 60 <= eligible_stock calm_world "A" "2024-01-05" pharmacy)
  /\ exists c',
       main calm_world (Some "2024-01-05") false false pharmacy
       = (Completed, c')
       /\ consumed "A" (appended pharmacy (disk c')) = 60
       /\ stock_in (disk c') 1 = Some 0
       /\ stock_in (disk c') 2 = Some 20.
Proof.
  assert (In ("A", 60) (select_plan pharmacy)) as Hin by (now left).
  assert (60 <= eligible_stock calm_world "A" "2024-01-05" pharmacy) as Hle
    by (vm_compute; discriminate).
  split; [auto using reliable_calm_world, wf_pharmacy |].
  destruct (fefo_consumes_exactly_in_order calm_world (Some "2024-01-05")
              false false pharmacy "A" 60 reliable_calm_world wf_pharmacy
              eq_refl Hin Hle)
    as (c' & Hmain & Hcons & _).
  exists c'. split; [exact Hmain |]. split; [exact Hcons |].
  vm_compute in Hmain. injection Hmain as <-. split; reflexivity.
Defined.

(** ** The ledger after any run *)

(** Whatever happens, the committed database is the one before the run or
    the one of the complete run. *)
Lemma main_ledger w args_date force verbose db o c' :
  wf_db db ->
  main w args_date force verbose db = (o, c') ->
  disk c' = db \/ applied w (run_date_of w args_date) db (disk c').
Proof.
  intros Hwf Hmain.
  destruct (select_exists_run w (run_date_of w args_date) db && negb force)
    eqn:Hguard.
  - left. rewrite main_unfold in Hmain. cbv zeta in Hmain.
    rewrite Hguard in Hmain.
    destruct (operational_error w 0); [now injection Hmain as <- <- |].
    destruct (operational_error w 1); now injection Hmain as <- <-.
  - assert (reliable (without_faults w)) as Hrel by (intros n; reflexivity).
    destruct (main_completes (without_faults w) args_date force verbose db
                Hrel Hwf Hguard) as (c0 & Hmain0 & Happ).
    change (applied w (run_date_of w args_date) db (disk c0)) in Happ.
    destruct (main_cases w args_date force verbose db o c' Hmain)
      as (o0 & c0' & Hmain0' & _ & Hcases).
    rewrite Hmain0 in Hmain0'. injection Hmain0' as <- <-.
    destruct o as [| | e].
    + left. apply Hcases.
    + right. destruct Hcases as [_ ->]. exact Happ.
    + destruct Hcases as [Hc | (_ & _ & _ & Hc)]; [now left |].
      right. rewrite <- Hc. exact Happ.
Qed.

Lemma applied_shapes w run_date db db' :
  applied w run_date db db' -> Forall movement_shape (appended db db').
Proof.
  intros (_ & _ & expired & alloc & Hmoves & Hexp & Halloc & _).
  rewrite (appended_app _ _ _ Hmoves).
  apply Forall_app. split; apply Forall_forall; intros m Hm.
  - assert (In (values m) (map values expired)) as Hv by now apply in_map.
    rewrite Hexp in Hv. unfold expired_values in Hv.
    apply in_map_iff in Hv. destruct Hv as (r & Hr & Hin).
    apply filter_In in Hin. destruct Hin as [_ Hq].
    left. unfold movement_shape.
    replace (reason m) with (v_reason (values m)) by reflexivity.
    replace (mv_batch_id m) with (v_batch_id (values m)) by reflexivity.
    replace (qty_change m) with (v_qty_change (values m)) by reflexivity.
    rewrite <- Hr. simpl. repeat split; eauto. lia.
  - assert (In (values m) (map values alloc)) as Hv by now apply in_map.
    rewrite Halloc in Hv. apply in_flat_map in Hv.
    destruct Hv as ([med need] & _ & Hv). unfold item_values in Hv.
    apply in_app_or in Hv. unfold movement_shape.
    replace (reason m) with (v_reason (values m)) by reflexivity.
    replace (mv_batch_id m) with (v_batch_id (values m)) by reflexivity.
    replace (qty_change m) with (v_qty_change (values m)) by reflexivity.
    destruct Hv as [Hv | Hv].
    + apply in_map_iff in Hv. destruct Hv as ([i t] & Ht & Hin).
      apply takes_in in Hin. destruct Hin as (s & _ & Hpos).
      left. rewrite <- Ht. simpl. repeat split; eauto. lia.
    + destruct (above_tolerance _); [| contradiction].
      destruct Hv as [Hv | []]. right. rewrite <- Hv. simpl. auto.
Qed.

Lemma Forall2_Forall_l A (R R' : A -> A -> Prop) (P : A -> Prop)
    (l l' : list A) :
  (forall x y, P x -> R x y -> R' x y) ->
  Forall P l -> Forall2 R l l' -> Forall2 R' l l'.
Proof.
  intros Himp HP H. induction H as [| a b l l' Hab _ IH]; constructor;
    inversion HP; subst; auto.
Qed.

(** C5.  Every run preserves the reconciliation invariant: after the run
    the stock of every batch is non-negative and equals its stock before
    the run plus the signed sum of the movements the run appended for that
    batch; each 'expired' and 'daily_dose' (consumption) movement names a
    batch and carries a negative delta, each 'shortfall' movement carries
    delta 0 and names no batch.  This holds however the run ends: completed,
    skipped by the guard, or failed and rolled back. *)
Theorem run_preserves_reconciliation w args_date force verbose db o c' :
  wf_db db ->
  main w args_date force verbose db = (o, c') ->
  stock_moves (disk c') = stock_moves db ++ appended db (disk c')
  /\ Forall2 (fun b b' =>
                batch_id b' = batch_id b
                /\ 0 <= stock_units b'
                /\ stock_units b'
                   = stock_units b
                     + delta_for (batch_id b) (appended db (disk c'))
                /\ forall opening,
                     stock_units b
                     = opening + delta_for (batch_id b) (stock_moves db) ->
                     stock_units b'
                     = opening
                       + delta_for (batch_id b) (stock_moves (disk c')))
             (batches db) (batches (disk c'))
  /\ Forall movement_shape (appended db (disk c')).
Proof.
  intros Hwf Hmain.
  destruct (main_ledger w args_date force verbose db o c' Hwf Hmain)
    as [-> | Happ].
  - rewrite appended_same, app_nil_r. split; [reflexivity |].
    split; [| constructor].
    apply Forall2_refl_in. intros b Hb.
    pose proof (wf_stock _ Hwf) as Hst. rewrite Forall_forall in Hst.
    unfold delta_for at 1. simpl. repeat split; auto. lia.
  - split; [| split].
    + destruct Happ as (_ & _ & expired & alloc & Hmoves & _).
      now rewrite (appended_app _ _ _ Hmoves).
    + destruct Happ as (_ & _ & expired & alloc & Hmoves & _ & _ & Hb).
      rewrite (appended_app _ _ _ Hmoves), Hmoves.
      apply Forall2_Forall_l
        with (R := batch_step (expired ++ alloc))
             (P := fun b => 0 <= stock_units b);
        [| apply Hwf | exact Hb].
      intros x y Hx (Hi & _ & _ & _ & Hs & _ & Hp & _).
      repeat split; auto.
      intros opening Hopen. rewrite delta_for_app. lia.
    + eapply applied_shapes; eauto.
Qed.

Lemma run_preserves_reconciliation_witness :
  wf_db pharmacy
  /\ exists c',
       main calm_world (Some "2024-01-05") false false pharmacy
       = (Completed, c')
       /\ Forall2 (fun b b' =>
                     batch_id b' = batch_id b
                     /\ 0 <= stock_units b'
                     /\ stock_units b'
                        = stock_units b
                          + delta_for (batch_id b)
                                      (appended pharmacy (disk c')))
                  (batches pharmacy) (batches (disk c')).
Proof.
  split; [exact wf_pharmacy |].
  destruct (main calm_world (Some "2024-01-05") false false pharmacy)
    as [o c'] eqn:Hmain.
  assert (o = Completed) as ->
    by (vm_compute in Hmain; now injection Hmain as <- _).
  exists c'. split; [reflexivity |].
  destruct (run_preserves_reconciliation calm_world (Some "2024-01-05")
              false false pharmacy Completed c' wf_pharmacy Hmain)
    as (_ & Hrec & _).
  eapply Forall2_impl; [| exact Hrec].
  intros b b' (H1 & H2 & H3 & _). auto.
Defined.

Lemma above_tolerance_Qlt remaining :
  (tolerance < inject_Z remaining)%Q <-> above_tolerance remaining = true.
Proof.
  rewrite above_tolerance_spec. unfold Qlt, tolerance. simpl. lia.
Qed.

Lemma map_values_single l v :
  map values l = [v] -> exists m, l = [m] /\ values m = v.
Proof.
  destruct l as [| m [| ? ?]]; simpl; try discriminate.
  intros H. exists m. split; [reflexivity |].
  change (hd (values m) [values m] = v). now rewrite H.
Qed.

(** C6.  For every item of the plan whose requirement is not met after all
    its eligible batches were walked, with an unmet amount above the
    tolerance 1e-6, the run appends exactly one 'shortfall' movement for
    it, with delta 0, no batch reference and a note that carries the unmet
    quantity; and the shortfall stops nothing: the run completes, and every
    item of the plan is consumed up to its requirement or to the stock of
    its eligible batches. *)
Theorem shortfall_is_recorded_once w args_date force verbose db med need :
  reliable w -> wf_db db ->
  select_exists_run w (run_date_of w args_date) db && negb force = false ->
  In (med, need) (select_plan db) ->
  (tolerance
   < inject_Z (need - eligible_stock w med (run_date_of w args_date) db))%Q ->
  exists c',
    main w args_date force verbose db = (Completed, c')
    /\ (exists m,
          filter (is_move "shortfall" med) (appended db (disk c')) = [m]
          /\ qty_change m = 0
          /\ mv_batch_id m = None
          /\ ts m = log_ts (run_date_of w args_date)
          /\ note m
             = Some ("Needed "
                     ++ py_float_str
                          (need - eligible_stock w med
                                    (run_date_of w args_date) db)
                     ++ " more units on " ++ run_date_of w args_date)%string)
    /\ forall med' need',
         In (med', need') (select_plan db) ->
         consumed med' (appended db (disk c'))
         = Z.min need' (eligible_stock w med' (run_date_of w args_date) db).
Proof.
  intros Hrel Hwf Hguard Hin Hshort.
  set (d := run_date_of w args_date) in *.
  destruct (main_completes w args_date force verbose db Hrel Hwf Hguard)
    as (c' & Hmain & Happ).
  fold d in Happ. exists c'. split; [exact Hmain |]. split.
  - assert (0 < need) as Hpos by (apply select_plan_in in Hin; tauto).
    apply above_tolerance_Qlt in Hshort.
    pose proof Hshort as Hgt. rewrite above_tolerance_spec in Hgt.
    assert (left_over (select_candidates w med d db) need
            = need - eligible_stock w med d db) as Hleft.
    { rewrite left_over_spec; [| apply rows_positive | exact Hpos].
      rewrite rows_sum. lia. }
    destruct Happ as (_ & _ & expired & alloc & Hmoves & Hexp & Halloc & _).
    rewrite (appended_app _ _ _ Hmoves).
    assert (map values (filter (is_move "shortfall" med) (expired ++ alloc))
            = [shortfall_values d med (need - eligible_stock w med d db)])
      as Hv.
    { rewrite <- (filter_map_comm _ _ values (v_is_move "shortfall" med)).
      rewrite map_app, filter_app, Hexp, Halloc.
      rewrite expired_values_not_allocation by auto. simpl.
      rewrite (plan_values_of_item w d db Hwf _ med need Hin
                 (v_is_move_medicine _ _)).
      rewrite item_values_shortfall, String.eqb_refl, Hleft, Hshort.
      reflexivity. }
    apply map_values_single in Hv. destruct Hv as (m & Hm & Hvm).
    exists m. split; [exact Hm |].
    replace (qty_change m) with (v_qty_change (values m)) by reflexivity.
    replace (mv_batch_id m) with (v_batch_id (values m)) by reflexivity.
    replace (ts m) with (v_ts (values m)) by reflexivity.
    replace (note m) with (v_note (values m)) by reflexivity.
    rewrite Hvm. repeat split; reflexivity.
  - intros med' need' Hin'.
    now apply (applied_consumed w d db Hwf).
Qed.

Lemma shortfall_is_recorded_once_witness :
  (reliable calm_world /\ wf_db pharmacy
   /\ In ("B", 7) (select_plan pharmacy)
   /\ (tolerance
       < inject_Z (7 - eligible_stock calm_world "B" "2024-01-05" pharmacy))%Q)
  /\ exists c',
       main calm_world (Some "2024-01-05") false false pharmacy
       = (Completed, c')
       /\ (exists m,
             filter (is_move "shortfall" "B") (appended pharmacy (disk c'))
             = [m]
             /\ qty_change m = 0 /\ mv_batch_id m = None
             /\ note m = Some "Needed 2.0 more units on 2024-01-05")
       /\ consumed "A" (appended pharmacy (disk c')) = 60
       /\ consumed "B" (appended pharmacy (disk c')) = 5.
Proof.
  assert (In ("B", 7) (select_plan pharmacy)) as Hin by (right; now left).
  assert (tolerance
          < inject_Z (7 - eligible_stock calm_world "B" "2024-01-05"
                            pharmacy))%Q as Hshort
    by (vm_compute; reflexivity).
  split; [auto using reliable_calm_world, wf_pharmacy |].
  destruct (shortfall_is_recorded_once calm_world (Some "2024-01-05")
              false false pharmacy "B" 7 reliable_calm_world wf_pharmacy
              eq_refl Hin Hshort)
    as (c' & Hmain & (m & Hm & Hq & Hb & _ & Hn) & Hall).
  exists c'. split; [exact Hmain |]. split.
  - exists m. auto.
  - split.
    + apply (Hall "A" 60). now left.
    + apply (Hall "B" 7). exact Hin.
Defined.

(** Allocation movements never refer to the batches of a medicine that is
    not in the plan. *)
Lemma unplanned_batches_unreferenced w run_date db med alloc b :
  wf_db db ->
  (forall need, ~ In (med, need) (select_plan db)) ->
  map values alloc
  = flat_map (item_values w run_date db) (select_plan db) ->
  In b (batches db) -> medicine_id b = med ->
  forall m, In m alloc ->
            mv_medicine_id m <> med /\ mv_batch_id m <> Some (batch_id b).
Proof.
  intros Hwf Hout Halloc Hb Hmed m Hm.
  assert (In (values m) (map values alloc)) as Hv by now apply in_map.
  rewrite Halloc in Hv. apply in_flat_map in Hv.
  destruct Hv as ([med' need'] & Hin & Hv).
  apply item_values_in in Hv. destruct Hv as (_ & Hvm & _ & Hvb).
  assert (med' <> med) as Hne
    by (intros ->; exact (Hout need' Hin)).
  split.
  - change (v_medicine_id (values m) <> med). congruence.
  - intros Href. destruct (Hvb _ Href) as (x & Hx & Hid).
    apply fefo_batches_in in Hx. destruct Hx as [Hx Hc].
    apply candidate_condition_true in Hc. destruct Hc as (Hc & _).
    assert (x = b) by (eapply NoDup_map_eq; eauto; apply Hwf).
    subst x. congruence.
Qed.

(** In a whole run, reclamation is all that can concern a medicine that is
    not dosed: the run appends no 'daily_dose' and no 'shortfall' movement
    for it, and when the medicine has no stock the run appends no movement
    for it at all and leaves every one of its batches as it was. *)
Lemma undosed_item_in_a_run w args_date force verbose db med :
  reliable w -> wf_db db ->
  select_exists_run w (run_date_of w args_date) db && negb force = false ->
  (forall d, In d (daily_dosage db) -> dd_medicine_id d = med ->
             units_per_day d <= 0) ->
  exists c',
    main w args_date force verbose db = (Completed, c')
    /\ (forall m, In m (appended db (disk c')) -> mv_medicine_id m = med ->
                  reason m = "expired")
    /\ ((forall b, In b (batches db) -> medicine_id b = med ->
                   stock_units b = 0) ->
        (forall m, In m (appended db (disk c')) -> mv_medicine_id m <> med)
        /\ forall b, In b (batches db) -> medicine_id b = med ->
                     In b (batches (disk c'))).
Proof.
  intros Hrel Hwf Hguard Hzero.
  set (d := run_date_of w args_date) in *.
  destruct (main_completes w args_date force verbose db Hrel Hwf Hguard)
    as (c' & Hmain & Happ).
  fold d in Happ. exists c'. split; [exact Hmain |].
  assert (forall need, ~ In (med, need) (select_plan db)) as Hout.
  { intros need Hin. apply select_plan_in in Hin.
    destruct Hin as (Hpos & x & Hx & Hm & Hu).
    specialize (Hzero x Hx Hm). lia. }
  pose proof Happ as (_ & _ & expired & alloc & Hmoves & Hexp & Halloc & _).
  rewrite (appended_app _ _ _ Hmoves).
  assert (forall m, In m alloc -> mv_medicine_id m <> med) as Hnone.
  { intros m Hm Heq.
    assert (In (values m) (map values alloc)) as Hv by now apply in_map.
    rewrite Halloc in Hv. apply in_flat_map in Hv.
    destruct Hv as ([med' need'] & Hin & Hv).
    apply item_values_in in Hv. destruct Hv as (_ & Hvm & _).
    apply (Hout need'). replace med with med'; [exact Hin |].
    rewrite <- Heq. symmetry. exact Hvm. }
  assert (forall m, In m expired ->
            reason m = "expired"
            /\ exists b, In b (batches db) /\ 0 < stock_units b
                         /\ mv_medicine_id m = medicine_id b
                         /\ mv_batch_id m = Some (batch_id b)) as Hexpired.
  { intros m Hm.
    assert (In (values m) (map values expired)) as Hv by now apply in_map.
    rewrite Hexp, expired_values_select in Hv. apply in_map_iff in Hv.
    destruct Hv as (b & Hb & Hin). apply filter_In in Hin.
    destruct Hin as [Hin Hc]. apply idx_batches_expiry_in in Hin.
    apply where_scrap_condition, scrap_condition_true in Hc.
    replace (reason m) with (v_reason (values m)) by reflexivity.
    replace (mv_medicine_id m) with (v_medicine_id (values m))
      by reflexivity.
    replace (mv_batch_id m) with (v_batch_id (values m)) by reflexivity.
    rewrite <- Hb. simpl. split; [reflexivity |]. exists b. tauto. }
  split.
  - intros m Hm Hmed. apply in_app_or in Hm. destruct Hm as [Hm | Hm].
    + apply Hexpired, Hm.
    + destruct (Hnone m Hm Hmed).
  - intros Hempty.
    assert (forall m, In m expired -> mv_medicine_id m <> med) as Hnone'.
    { intros m Hm Hmed.
      destruct (Hexpired m Hm) as (_ & b & Hb & Hpos & Hmb & _).
      specialize (Hempty b Hb ltac:(congruence)). lia. }
    split.
    + intros m Hm. apply in_app_or in Hm.
      destruct Hm as [Hm | Hm]; auto.
    + intros b Hb Hmed.
      apply (applied_untouched w d db (disk c') Happ b Hb).
      rewrite (appended_app _ _ _ Hmoves). apply delta_for_zero.
      intros m Hm Href. apply in_app_or in Hm. destruct Hm as [Hm | Hm].
      * destruct (Hexpired m Hm) as (_ & x & Hx & Hpos & _ & Hmx).
        rewrite Hmx in Href. injection Href as Hid.
        assert (x = b) by (eapply NoDup_map_eq; eauto; apply Hwf).
        subst x. specialize (Hempty b Hb Hmed). lia.
      * now destruct (unplanned_batches_unreferenced w d db med alloc b
                        Hwf Hout Halloc Hb Hmed m Hm).
Qed.

(** In a world without storage failures a computation that can only fail
    on them returns. *)
Lemma wp_reliable w A (m : M A) Q c :
  reliable w -> wp m Q (only_faults w) c ->
  exists a c', m c = (Ok a, c') /\ Q a c'.
Proof.
  unfold wp. intros Hrel H. destruct (m c) as [[a | e] c']; [eauto |].
  destruct H as (_ & n & Hn). rewrite Hrel in Hn. discriminate.
Qed.

(** Allocation alone: [fefo_deduct] touches no batch of an item whose
    units_per_day is 0 or less and appends no movement for it, no shortfall
    either, whatever its stock. *)
Lemma fefo_deduct_skips_undosed_item w run_date verbose c med :
  reliable w -> wf_db (view c) ->
  (forall d, In d (daily_dosage (view c)) -> dd_medicine_id d = med ->
             units_per_day d <= 0) ->
  exists c',
    fefo_deduct w run_date verbose c = (Ok tt, c')
    /\ (forall m, In m (appended (view c) (view c')) ->
                  mv_medicine_id m <> med)
    /\ (forall b, medicine_id b = med ->
                  (In b (batches (view c)) <-> In b (batches (view c')))).
Proof.
  intros Hrel Hwf Hzero.
  destruct (wp_reliable w _ _ _ c Hrel
              (fefo_deduct_spec w run_date verbose c
                 (wf_batch_pk _ Hwf) (wf_dosage_pk _ Hwf)
                 (fun _ => wf_dosage_fk _ Hwf)))
    as ([] & c' & Hrun & new & Hev & Hnew).
  exists c'. split; [exact Hrun |].
  assert (forall need, ~ In (med, need) (select_plan (view c))) as Hout.
  { intros need Hin. apply select_plan_in in Hin.
    destruct Hin as (Hpos & d & Hd & Hm & Hu).
    specialize (Hzero d Hd Hm). lia. }
  assert (forall m, In m new -> mv_medicine_id m <> med) as Hnone.
  { intros m Hm Heq.
    assert (In (values m) (map values new)) as Hv by now apply in_map.
    rewrite Hnew in Hv. apply in_flat_map in Hv.
    destruct Hv as ([med' need'] & Hin & Hv).
    apply item_values_in in Hv. destruct Hv as (_ & Hv & _).
    apply (Hout need').
    replace med with med'; [exact Hin |].
    rewrite <- Heq. symmetry. exact Hv. }
  rewrite (appended_app _ _ _ (ev_moves _ _ _ Hev)).
  split; [exact Hnone |].
  assert (forall b, In b (batches (view c)) -> medicine_id b = med ->
                    delta_for (batch_id b) new = 0) as Hdelta.
  { intros b Hb Hmed. apply delta_for_zero. intros m Hm Href.
    assert (In (values m) (map values new)) as Hv by now apply in_map.
    rewrite Hnew in Hv. apply in_flat_map in Hv.
    destruct Hv as ([med' need'] & Hin & Hv).
    apply item_values_in in Hv. destruct Hv as (_ & _ & _ & Hv).
    destruct (Hv _ Href) as (x & Hx & Hid).
    apply fefo_batches_in in Hx. destruct Hx as [Hx Hc].
    apply candidate_condition_true in Hc. destruct Hc as (Hc & _).
    assert (x = b)
      by (eapply NoDup_map_eq; eauto; apply Hwf).
    subst x. apply (Hout need'). now rewrite <- Hmed, Hc. }
  intros b Hmed. split; intros Hb.
  - destruct (Forall2_in_l _ _ _ _ b (ev_batches _ _ _ Hev) Hb)
      as (y & Hy & Hstep).
    destruct Hstep as (_ & _ & _ & _ & Hs & _ & _ & Hu).
    rewrite (Hdelta b Hb Hmed) in Hs.
    rewrite <- (Hu ltac:(lia)). exact Hy.
  - destruct (Forall2_in_r _ _ _ _ b (ev_batches _ _ _ Hev) Hb)
      as (x & Hx & Hstep).
    destruct Hstep as (_ & Hm & _ & _ & Hs & _ & _ & Hu).
    rewrite (Hdelta x Hx ltac:(congruence)) in Hs.
    rewrite (Hu ltac:(lia)). exact Hx.
Qed.

Lemma fefo_deduct_on_undosed_item :
  (reliable calm_world /\ wf_db (view (connect pharmacy))
   /\ forall d, In d (daily_dosage (view (connect pharmacy))) ->
                dd_medicine_id d = "C" -> units_per_day d <= 0)
  /\ exists c',
       fefo_deduct calm_world "2024-01-05" false (connect pharmacy)
       = (Ok tt, c')
       /\ (forall m, In m (appended pharmacy (view c')) ->
                     mv_medicine_id m <> "C")
       /\ In (mkBatch 4 "C" "C-1" 8 (Some "2023-12-31") "2023-12-01 09:00:00")
             (batches (view c')).
Proof.
  assert (forall d, In d (daily_dosage (view (connect pharmacy))) ->
                    dd_medicine_id d = "C" -> units_per_day d <= 0) as Hzero.
  { simpl. intros d [<- | [<- | [<- | []]]]; simpl; intros H;
      try discriminate H. vm_compute. discriminate. }
  split; [auto using reliable_calm_world, wf_pharmacy |].
  destruct (fefo_deduct_skips_undosed_item calm_world "2024-01-05" false
              (connect pharmacy) "C" reliable_calm_world wf_pharmacy Hzero)
    as (c' & Hrun & Hnone & Hsame).
  exists c'. split; [exact Hrun |]. split; [exact Hnone |].
  apply Hsame; [reflexivity |]. simpl. tauto.
Defined.

(** ** Reclamation, batch by batch *)

Lemma filter_by_batch_id (bs : list Batch) b :
  NoDup (map batch_id bs) -> In b bs ->
  filter (fun x => batch_id x =? batch_id b) bs = [b].
Proof.
  induction bs as [| x bs IH]; simpl; intros Hpk Hb; [contradiction |].
  inversion Hpk as [| ? ? Hx Hbs]; subst.
  destruct Hb as [-> | Hb].
  - rewrite Z.eqb_refl. f_equal. apply filter_none. intros y Hy.
    apply Z.eqb_neq. intros Heq. apply Hx. rewrite <- Heq. now apply in_map.
  - destruct (Z.eqb_spec (batch_id x) (batch_id b)) as [Heq | _].
    + exfalso. apply Hx. rewrite Heq. now apply in_map.
    + now apply IH.
Qed.

Lemma filter_filter_swap A (p q : A -> bool) (l : list A) :
  filter p (filter q l) = filter q (filter p l).
Proof.
  induction l as [| x l IH]; simpl; [reflexivity |].
  destruct (p x) eqn:Hp, (q x) eqn:Hq; simpl; rewrite ?Hp, ?Hq, IH;
    reflexivity.
Qed.

(** The 'expired' movements that refer to one batch of the table. *)
Lemma expired_moves_of_batch w run_date db new b :
  NoDup (map batch_id (batches db)) -> In b (batches db) ->
  map values new = expired_values run_date (select_to_scrap w run_date db) ->
  map values (filter (refers_to (batch_id b)) new)
  = if where_true (scrap_condition w run_date b)
    then [expired_value run_date b] else [].
Proof.
  intros Hpk Hb Hnew.
  rewrite <- (filter_map_comm _ _ values (v_refers_to (batch_id b))).
  rewrite Hnew, expired_values_select, filter_map_comm.
  change (fun x => v_refers_to (batch_id b) (expired_value run_date x))
    with (fun x => batch_id x =? batch_id b).
  rewrite filter_filter_swap,
    (filter_by_batch_id _ b (idx_batches_expiry_NoDup w db Hpk)
       (proj2 (idx_batches_expiry_in w db b) Hb)).
  simpl.
  destruct (where_true (scrap_condition w run_date b)); reflexivity.
Qed.

(** C4.  During expiry reclamation for a run date, every batch with
    stock_units > 0 and a non-null expiry_date strictly before the run date
    has its stock set to 0 and gets exactly one 'expired' movement, whose
    delta is minus the quantity the batch held; a batch with null
    expiry_date is never reclaimed, and a batch with zero stock gets no
    'expired' movement. *)
Theorem scrap_expired_reclaims w run_date verbose c :
  reliable w -> wf_db (view c) ->
  exists c',
    scrap_expired w run_date verbose c = (Ok tt, c')
    /\ Forall (fun m => reason m = "expired") (appended (view c) (view c'))
    /\ forall b, In b (batches (view c)) ->
         (0 < stock_units b ->
          sql_text_lt (date_of w (expiry_date b)) (sql_date w run_date)
          = Some true ->
          stock_in (view c') (batch_id b) = Some 0
          /\ exists m,
               filter (refers_to (batch_id b)) (appended (view c) (view c'))
               = [m]
               /\ reason m = "expired"
               /\ qty_change m = - stock_units b
               /\ ts m = log_ts run_date)
         /\ (expiry_date b = None ->
             In b (batches (view c'))
             /\ filter (refers_to (batch_id b))
                       (appended (view c) (view c')) = [])
         /\ (stock_units b = 0 ->
             In b (batches (view c'))
             /\ filter (refers_to (batch_id b))
                       (appended (view c) (view c')) = []).
Proof.
  intros Hrel Hwf.
  destruct (wp_reliable w _ _ _ c Hrel
              (scrap_expired_spec w run_date verbose c
                 (wf_batch_pk _ Hwf) (fun _ => wf_batch_fk _ Hwf)))
    as ([] & c' & Hrun & _ & new & Hev & Hnew).
  exists c'. split; [exact Hrun |].
  rewrite (appended_app _ _ _ (ev_moves _ _ _ Hev)).
  split.
  { apply Forall_forall. intros m Hm.
    assert (In (values m) (map values new)) as Hv by now apply in_map.
    rewrite Hnew in Hv. unfold expired_values in Hv.
    apply in_map_iff in Hv. destruct Hv as (r & Hr & _).
    replace (reason m) with (v_reason (values m)) by reflexivity.
    now rewrite <- Hr. }
  intros b Hb.
  pose proof (expired_moves_of_batch w run_date (view c) new b
                (wf_batch_pk _ Hwf) Hb Hnew) as Hmoves.
  destruct (find_related (batch_step new) _ _ b (ev_batches _ _ _ Hev))
    as (y & Hfind & Hstep); [intros ? ? H; apply H | apply Hwf | exact Hb |].
  destruct Hstep as (_ & _ & _ & _ & Hs & _ & _ & Hu).
  assert (where_true (scrap_condition w run_date b) = false ->
          In b (batches (view c'))
          /\ filter (refers_to (batch_id b)) new = []) as Hkept.
  { intros Hno. rewrite Hno in Hmoves.
    assert (filter (refers_to (batch_id b)) new = []) as Hnil
      by (destruct (filter _ new); [reflexivity | discriminate]).
    split; [| exact Hnil].
    unfold delta_for in Hs. rewrite Hnil in Hs. simpl in Hs.
    apply find_some in Hfind. rewrite <- (Hu ltac:(lia)). apply Hfind. }
  split; [| split].
  - intros Hpos Hlt.
    assert (scrap_condition w run_date b = Some true) as Hc
      by (apply scrap_condition_true; auto).
    rewrite Hc in Hmoves. simpl in Hmoves.
    apply map_values_single in Hmoves. destruct Hmoves as (m & Hm & Hvm).
    split.
    + unfold stock_in. rewrite Hfind. simpl. f_equal.
      unfold delta_for in Hs. rewrite Hm in Hs. simpl in Hs.
      replace (qty_change m) with (v_qty_change (values m)) in Hs
        by reflexivity.
      rewrite Hvm in Hs. simpl in Hs. lia.
    + exists m. split; [exact Hm |].
      replace (reason m) with (v_reason (values m)) by reflexivity.
      replace (qty_change m) with (v_qty_change (values m)) by reflexivity.
      replace (ts m) with (v_ts (values m)) by reflexivity.
      rewrite Hvm. auto.
  - intros Hnull. apply Hkept. unfold scrap_condition. rewrite Hnull.
    destruct (0 <? stock_units b); reflexivity.
  - intros Hzero. apply Hkept. unfold scrap_condition. rewrite Hzero.
    reflexivity.
Qed.

Lemma scrap_expired_reclaims_witness :
  (reliable calm_world /\ wf_db (view (connect pharmacy)))
  /\ exists c',
       scrap_expired calm_world "2024-01-05" false (connect pharmacy)
       = (Ok tt, c')
       /\ stock_in (view c') 4 = Some 0
       /\ (exists m,
             filter (refers_to 4) (appended pharmacy (view c')) = [m]
             /\ reason m = "expired" /\ qty_change m = - 8)
       /\ filter (refers_to 3) (appended pharmacy (view c')) = []
       /\ filter (refers_to 5) (appended pharmacy (view c')) = [].
Proof.
  split; [auto using reliable_calm_world, wf_pharmacy |].
  destruct (scrap_expired_reclaims calm_world "2024-01-05" false
              (connect pharmacy) reliable_calm_world wf_pharmacy)
    as (c' & Hrun & _ & Hall).
  exists c'. split; [exact Hrun |].
  destruct (Hall (mkBatch 4 "C" "C-1" 8 (Some "2023-12-31")
                    "2023-12-01 09:00:00"))
    as ((Hzero & m & Hm & Hr & Hq & _) & _);
    [simpl; tauto | reflexivity | reflexivity |].
  destruct (Hall (mkBatch 3 "B" "B-1" 5 None "2023-12-01 09:00:00"))
    as (_ & Hnull & _); [simpl; tauto |].
  destruct (Hall (mkBatch 5 "A" "A-0" 0 (Some "2024-03-01")
                    "2023-12-01 09:00:00"))
    as (_ & _ & Hempty); [simpl; tauto |].
  split; [exact Hzero |]. split; [exists m; auto |].
  split; [now apply Hnull | now apply Hempty].
Defined.

Lemma string_ltb_irrefl s : String.ltb s s = false.
Proof. unfold String.ltb. now rewrite string_compare_refl. Qed.

(** C8.  A batch whose expiry_date is the run date itself is not reclaimed
    (reclamation takes the batches that expire strictly before the run
    date) and is still a candidate for consumption in the same run
    (allocation admits expiry null or on or after the run date): after
    [scrap_expired] the row is unchanged, no 'expired' movement refers to
    it, and the query of [fefo_deduct] for its medicine returns it. *)
Theorem batch_expiring_on_run_date_is_consumable
    w run_date verbose c b e day :
  reliable w -> wf_db (view c) ->
  In b (batches (view c)) -> 0 < stock_units b ->
  expiry_date b = Some e ->
  sql_date w e = Some day -> sql_date w run_date = Some day ->
  exists c',
    scrap_expired w run_date verbose c = (Ok tt, c')
    /\ In b (batches (view c'))
    /\ filter (refers_to (batch_id b)) (appended (view c) (view c')) = []
    /\ In b (fefo_batches w (medicine_id b) run_date (view c'))
    /\ In (batch_id b, stock_units b)
          (select_candidates w (medicine_id b) run_date (view c')).
Proof.
  intros Hrel Hwf Hb Hpos He Hday Hrun.
  destruct (wp_reliable w _ _ _ c Hrel
              (scrap_expired_spec w run_date verbose c
                 (wf_batch_pk _ Hwf) (fun _ => wf_batch_fk _ Hwf)))
    as ([] & c' & Hscrap & _ & new & Hev & Hnew).
  exists c'. split; [exact Hscrap |].
  rewrite (appended_app _ _ _ (ev_moves _ _ _ Hev)).
  assert (where_true (scrap_condition w run_date b) = false) as Hno.
  { unfold scrap_condition. rewrite He. simpl. rewrite Hday, Hrun. simpl.
    rewrite string_ltb_irrefl. destruct (0 <? stock_units b); reflexivity. }
  pose proof (expired_moves_of_batch w run_date (view c) new b
                (wf_batch_pk _ Hwf) Hb Hnew) as Hmoves.
  rewrite Hno in Hmoves.
  assert (filter (refers_to (batch_id b)) new = []) as Hnil
    by (destruct (filter _ new); [reflexivity | discriminate]).
  assert (In b (batches (view c'))) as Hb'.
  { destruct (Forall2_in_l _ _ _ _ b (ev_batches _ _ _ Hev) Hb)
      as (y & Hy & Hstep).
    destruct Hstep as (_ & _ & _ & _ & Hs & _ & _ & Hu).
    unfold delta_for in Hs. rewrite Hnil in Hs. simpl in Hs.
    rewrite <- (Hu ltac:(lia)). exact Hy. }
  assert (In b (fefo_batches w (medicine_id b) run_date (view c'))) as Hcand.
  { apply fefo_batches_in. split; [exact Hb' |].
    apply candidate_condition_true. repeat split; auto.
    right. rewrite He. simpl. rewrite Hday, Hrun. simpl.
    now rewrite string_leb_refl. }
  repeat split; auto.
  unfold select_candidates. apply in_map_iff. exists b. auto.
Qed.

Lemma batch_expiring_on_run_date_is_consumable_witness :
  (reliable calm_world /\ wf_db (view (connect pharmacy))
   /\ sql_date calm_world "2024-01-10" = Some "2024-01-10")
  /\ exists c',
       scrap_expired calm_world "2024-01-10" false (connect pharmacy)
       = (Ok tt, c')
       /\ In (1, 50) (select_candidates calm_world "A" "2024-01-10" (view c')).
Proof.
  split; [auto using reliable_calm_world, wf_pharmacy |].
  destruct (batch_expiring_on_run_date_is_consumable calm_world "2024-01-10"
              false (connect pharmacy)
              (mkBatch 1 "A" "A-1" 50 (Some "2024-01-10")
                 "2023-12-01 09:00:00")
              "2024-01-10" "2024-01-10" reliable_calm_world wf_pharmacy)
    as (c' & Hrun & _ & _ & _ & Hrow);
    [simpl; tauto | reflexivity | reflexivity | reflexivity | reflexivity |].
  exists c'. split; [exact Hrun | exact Hrow].
Defined.

(** C10.  Every movement one run appends, 'expired', 'daily_dose' and
    'shortfall' alike, carries the same timestamp text
    '<run date> 20:00:00', whatever the clock of the world shows while the
    run executes and however the run ends; hence any two movements of the
    run compare equal by timestamp. *)
Theorem movements_share_the_run_timestamp w args_date force verbose db :
  exists new,
    stock_moves (disk (snd (main w args_date force verbose db)))
    = stock_moves db ++ new
    /\ Forall (fun m => ts m = (run_date_of w args_date ++ " 20:00:00")%string)
              new
    /\ forall m1 m2, In m1 new -> In m2 new ->
                     String.compare (ts m1) (ts m2) = Eq.
Proof.
  destruct (main w args_date force verbose db) as [o c'] eqn:Hmain.
  destruct (main_cases w args_date force verbose db o c' Hmain)
    as (_ & _ & _ & (new & Hmoves & Hts) & _).
  exists new. split; [exact Hmoves |]. split; [exact Hts |].
  intros m1 m2 H1 H2. rewrite Forall_forall in Hts.
  rewrite (Hts m1 H1), (Hts m2 H2). apply string_compare_refl.
Qed.

(** ** Where a run fails *)

(** A run that fails has failed before its commit returned, and then the
    database is as it was, or after it, and then the run is applied in
    full; the second is the failure of the query that [--verbose] makes
    after the commit. *)
Lemma main_failure w args_date force verbose db e c' :
  main w args_date force verbose db = (Failed e, c') ->
  (raised_before_commit w args_date verbose db e /\ disk c' = db)
  \/ (raised_after_commit w args_date verbose db e
      /\ verbose = true /\ e = OperationalError
      /\ exists c0,
           main (without_faults w) args_date force verbose db
           = (Completed, c0)
           /\ disk c0 = disk c').
Proof.
  intros Hmain.
  pose proof (main_unfold (without_faults w) args_date force verbose db)
    as Hmain0.
  rewrite (main_unfold w) in Hmain. cbv zeta in Hmain, Hmain0.
  change (run_date_of (without_faults w) args_date)
    with (run_date_of w args_date) in Hmain0.
  change (select_exists_run (without_faults w))
    with (select_exists_run w) in Hmain0.
  cbn [operational_error without_faults] in Hmain0.
  set (d := run_date_of w args_date) in *.
  unfold raised_before_commit, raised_after_commit. fold d.
  destruct (operational_error w 0) eqn:Hf0.
  { injection Hmain as <- <-. left. auto. }
  destruct (operational_error w 1) eqn:Hf1.
  { injection Hmain as <- <-. left. split; [right; left |]; auto. }
  destruct (select_exists_run w d db && negb force); [discriminate |].
  change (mkConn db db false true [] 2 []) with (at_reclamation db)
    in Hmain, Hmain0.
  set (c2 := at_reclamation db) in *.
  pose proof (transaction_part_spec w d verbose c2 c2
                (uncommitted_refl d c2) eq_refl eq_refl) as HT.
  pose proof (agrees_transaction_part w d verbose) as HTa.
  destruct (transaction_part w d verbose c2) as [[[] | e3] c3] eqn:HTw.
  2:{ apply (wp_raise _ _ _ _ _ _ _ HT) in HTw. destruct HTw as [HTw _].
      injection Hmain as <- <-. left. split; [| exact HTw].
      right. right. eauto. }
  rewrite (agrees_ok _ _ _ _ _ _ HTa HTw) in Hmain0.
  pose proof HTw as HTw'.
  apply (wp_ok _ _ _ _ _ _ _ HT) in HTw'. destruct HTw' as (Htx3 & _).
  pose proof (report_part_spec w d verbose c3) as HR.
  destruct (report_part w d verbose c3) as [[o1 | e4] c4] eqn:HRw.
  - apply (wp_ok _ _ _ _ _ _ _ HR) in HRw.
    destruct HRw as (-> & _ & Htx4).
    unfold commit in Hmain. rewrite Htx4, Htx3 in Hmain. discriminate.
  - pose proof HRw as HRw'.
    apply (wp_raise _ _ _ _ _ _ _ HR) in HRw'.
    destruct HRw' as (-> & -> & Hd4 & _).
    injection Hmain as <- <-. right.
    split; [eauto 6 |]. split; [reflexivity |]. split; [reflexivity |].
    pose proof (report_part_spec0 w d true c3) as HR0.
    destruct (report_part (without_faults w) d true c3)
      as [[o1 | e] c4'] eqn:HRw0; [| contradiction].
    destruct HR0 as (-> & Hd4' & Htx4').
    unfold commit in Hmain0. rewrite Htx4', Htx3 in Hmain0.
    eexists. split; [exact Hmain0 |]. cbn [rollback disk]. congruence.
Qed.

Lemma before_or_after_commit w args_date verbose db e :
  raised_before_commit w args_date verbose db e ->
  raised_after_commit w args_date verbose db e -> False.
Proof.
  intros [(H0 & _) | [(_ & H1 & _) | (_ & _ & c & Hc)]]
         (H0' & H1' & c3 & c4 & Hc3 & _); congruence.
Qed.

(** C3.  Reclamation and allocation of one run are atomic.  Next to the
    run in a world [w], take the same run in the world without storage
    failures, which applies every mutation of the run.  The database the
    run in [w] leaves committed is either the one before the run or the one
    the complete run commits: the complete one when the run reports
    completion, the one before the run when the guard refuses.  A run that
    fails has raised its error either before its commit returned (in the
    pragma, the guard, reclamation, allocation or the commit itself), and
    then the database is the one before the run, whether [--verbose] is set
    or not; or after its commit returned, which only the query of
    [--verbose] that follows the commit can do, and then the run is applied
    in full although it ends in an error. *)
Theorem run_is_atomic w args_date force verbose db :
  let r := main w args_date force verbose db in
  let r0 := main (without_faults w) args_date force verbose db in
  (disk (snd r) = db
   \/ (fst r0 = Completed /\ disk (snd r) = disk (snd r0)))
  /\ (fst r = Completed ->
      fst r0 = Completed /\ disk (snd r) = disk (snd r0))
  /\ (fst r = Skipped -> disk (snd r) = db)
  /\ (forall e, fst r = Failed e ->
        (raised_before_commit w args_date verbose db e
         /\ disk (snd r) = db)
        \/ (raised_after_commit w args_date verbose db e
            /\ verbose = true /\ e = OperationalError
            /\ fst r0 = Completed /\ disk (snd r) = disk (snd r0)))
  /\ (forall e, fst r = Failed e ->
        raised_before_commit w args_date verbose db e ->
        disk (snd r) = db)
  /\ (forall e, fst r = Failed e -> verbose = false -> disk (snd r) = db).
Proof.
  cbv zeta.
  destruct (main w args_date force verbose db) as [o c'] eqn:Hmain.
  destruct (main_cases w args_date force verbose db o c' Hmain)
    as (o0 & c0' & Hmain0 & _ & Hcases).
  assert (forall e, o = Failed e ->
            (raised_before_commit w args_date verbose db e /\ disk c' = db)
            \/ (raised_after_commit w args_date verbose db e
                /\ verbose = true /\ e = OperationalError
                /\ o0 = Completed /\ disk c' = disk c0')) as Hfailed.
  { intros e ->.
    destruct (main_failure w args_date force verbose db e c' Hmain)
      as [H | (Ha & Hv & He & c0 & Hc0 & Hd)]; [now left |].
    right. rewrite Hmain0 in Hc0. injection Hc0 as -> ->. auto. }
  rewrite Hmain0. cbn [fst snd].
  split; [| split; [| split; [| split; [| split]]]].
  - destruct o as [| | e].
    + left. apply Hcases.
    + right. destruct Hcases as [-> ->]. auto.
    + destruct (Hfailed e eq_refl) as [[_ H] | (_ & _ & _ & H1 & H2)];
        [now left | right; auto].
  - intros ->. destruct Hcases as [-> ->]. auto.
  - intros ->. apply Hcases.
  - exact Hfailed.
  - intros e He Hbefore.
    destruct (Hfailed e He) as [[_ H] | (Hafter & _)]; [exact H |].
    destruct (before_or_after_commit _ _ _ _ _ Hbefore Hafter).
  - intros e He Hv.
    destruct (Hfailed e He) as [[_ H] | (_ & Hv' & _)]; [exact H |].
    congruence.
Qed.

(** C3 as stated fails: with [--verbose], the query
    that follows the commit fails (call 18 of the run), the run ends in an
    error, and every change of the run is in the database. *)
Lemma verbose_failure_leaves_the_run_applied :
  fst (main (failing_at 18) (Some "2024-01-05") false true pharmacy)
  = Failed OperationalError
  /\ raised_after_commit (failing_at 18) (Some "2024-01-05") true pharmacy
       OperationalError
  /\ map stock_units (batches pharmacy) = [50; 30; 5; 8; 0]
  /\ map stock_units
       (batches (disk (snd (main (failing_at 18) (Some "2024-01-05") false
                              true pharmacy))))
     = [0; 20; 0; 0; 0]
  /\ List.length
       (stock_moves (disk (snd (main (failing_at 18) (Some "2024-01-05")
                                  false true pharmacy)))) = 5%nat.
Proof.
  split; [vm_compute; reflexivity |].
  split.
  - split; [reflexivity |]. split; [reflexivity |].
    eexists. eexists. split; vm_compute; reflexivity.
  - vm_compute. repeat split; reflexivity.
Qed.

(** ** A plan entry for an unknown medicine *)

Section Unknown_item.

Variable w : World.
Variable run_date : string.
Variable med : string.

(** With foreign keys enforced, a movement for a medicine that is not in
    [medicines] cannot be inserted. *)
Lemma insert_unknown_raises v c :
  foreign_keys c = true -> ~ In (v_medicine_id v) (medicines (view c)) ->
  wp (execute_insert w [v]) (fun _ _ => False) (fun _ _ => True) c.
Proof.
  intros Hfk Hmed. apply wp_execute_insert; intros _; [exact I |].
  simpl. rewrite Hfk. simpl.
  assert (fk_ok (view c) (v_medicine_id v) (v_batch_id v) = false) as ->;
    [| exact I].
  unfold fk_ok. apply andb_false_intro1. apply not_true_is_false.
  intros H. apply existsb_eqb_In in H. contradiction.
Qed.

(** If the loop returns for such a medicine, it took nothing. *)
Lemma deduct_rows_unknown rows : forall remaining c,
  foreign_keys c = true -> ~ In med (medicines (view c)) ->
  wp (deduct_rows w run_date med rows remaining)
     (fun r c' => r = remaining /\ foreign_keys c' = true
                  /\ medicines (view c') = medicines (view c))
     (fun _ _ => True) c.
Proof.
  induction rows as [| [bid stock] rows IH]; intros remaining c Hfk Hmed;
    simpl.
  - apply wp_ret. auto.
  - destruct (remaining <=? 0); [apply wp_ret; auto |].
    destruct (Z.min stock remaining <=? 0); [now apply IH |].
    apply wp_bind, wp_execute_update; intros _; [exact I |].
    destruct (update_stock _ _ _ (batches (view c))) as [bs |]; [| exact I].
    apply wp_bind.
    eapply wp_mono;
      [apply insert_unknown_raises; simpl; assumption | | auto].
    intros _ c' [].
Qed.

Lemma deduct_item_unknown need c :
  0 < need -> foreign_keys c = true -> ~ In med (medicines (view c)) ->
  wp (deduct_item w run_date (med, need))
     (fun _ _ => False) (fun _ _ => True) c.
Proof.
  intros Hpos Hfk Hmed. unfold deduct_item.
  apply wp_bind, wp_execute_select; intros _; [exact I |].
  apply wp_bind.
  eapply wp_mono; [apply deduct_rows_unknown; simpl; assumption | | auto].
  intros r c1 (-> & Hfk1 & Hmed1).
  rewrite above_tolerance_spec.
  assert ((0 <? need) = true) as -> by lia.
  apply insert_unknown_raises; [exact Hfk1 |].
  simpl in *. now rewrite Hmed1.
Qed.

Lemma deduct_plan_unknown need plan : forall c,
  In (med, need) plan -> 0 < need ->
  foreign_keys c = true -> ~ In med (medicines (view c)) ->
  wp (deduct_plan w run_date plan) (fun _ _ => False) (fun _ _ => True) c.
Proof.
  induction plan as [| item plan IH]; intros c Hin Hpos Hfk Hmed;
    [contradiction |].
  simpl. apply wp_bind. destruct Hin as [-> | Hin].
  - eapply wp_mono; [now apply deduct_item_unknown | | auto].
    intros _ c' [].
  - eapply wp_mono;
      [apply (quiet_deduct_item w run_date item c c (uncommitted_refl _ c))
      | | auto].
    intros _ c1 (_ & Hfk1 & Hmed1 & _).
    apply IH; auto; congruence.
Qed.

Lemma transaction_part_unknown need verbose c :
  In (med, need) (select_plan (view c)) ->
  in_transaction c = false ->
  foreign_keys c = true -> ~ In med (medicines (view c)) ->
  wp (transaction_part w run_date verbose)
     (fun _ _ => False) (fun _ _ => True) c.
Proof.
  intros Hin Htx Hfk Hmed. unfold transaction_part.
  apply wp_bind.
  eapply wp_mono;
    [apply (scrap_expired_uncommitted w run_date verbose c c
              (uncommitted_refl _ c) Htx)
    | | auto].
  intros _ c1 (_ & Hfk1 & Hmed1 & Hdd1 & _).
  apply wp_bind. unfold fefo_deduct.
  apply wp_bind, wp_execute_select; intros _; [exact I |].
  assert (select_plan (view c1) = select_plan (view c)) as Hplan
    by (unfold select_plan, v_daily_units; now rewrite Hdd1).
  assert (0 < need) as Hpos by (apply select_plan_in in Hin; tauto).
  simpl. rewrite Hplan.
  destruct (select_plan (view c)) as [| item plan]; [contradiction |].
  eapply wp_mono;
    [apply (deduct_plan_unknown need (item :: plan)); auto | | auto].
  - simpl. congruence.
  - simpl. congruence.
  - intros _ c' [].
Qed.

End Unknown_item.

(** C7, as the code has it.  When an entry of the dosage plan with
    units_per_day > 0 names a medicine that is not in [medicines], a run
    that the guard lets through does not skip the entry: the foreign key of
    [stock_moves], which [main] switches on, refuses the movement of that
    entry, [main] ends with the exception (an [IntegrityError] when the
    storage layer itself does not fail), the transaction is rolled back and
    the database stays as it was before the run, for every item. *)
Theorem unknown_item_aborts_the_run
    w args_date force verbose db med need :
  In (med, need) (select_plan db) ->
  ~ In med (medicines db) ->
  select_exists_run w (run_date_of w args_date) db && negb force = false ->
  exists e c',
    main w args_date force verbose db = (Failed e, c')
    /\ disk c' = db /\ view c' = db
    /\ (reliable w -> e = IntegrityError).
Proof.
  intros Hin Hmed Hguard.
  rewrite main_unfold. cbv zeta. rewrite Hguard.
  destruct (operational_error w 0) eqn:Hf0.
  { eexists _, _. split; [reflexivity |]. repeat split.
    intros Hrel. rewrite Hrel in Hf0. discriminate. }
  destruct (operational_error w 1) eqn:Hf1.
  { eexists _, _. split; [reflexivity |]. repeat split.
    intros Hrel. rewrite Hrel in Hf1. discriminate. }
  set (d := run_date_of w args_date).
  set (c2 := mkConn db db false true [] 2 []).
  pose proof (transaction_part_unknown w d med need verbose c2 Hin
                eq_refl eq_refl Hmed) as Hnever.
  pose proof (transaction_part_spec w d verbose c2 c2
                (uncommitted_refl d c2) eq_refl eq_refl) as Hspec.
  unfold wp in Hnever, Hspec.
  destruct (transaction_part w d verbose c2) as [[[] | e] c3];
    [contradiction |].
  destruct Hspec as (Hdisk & Hraised).
  exists e, (rollback c3). split; [reflexivity |].
  simpl. repeat split; try exact Hdisk.
  intros Hrel. destruct Hraised as [He | (n & Hn)]; [exact He |].
  rewrite Hrel in Hn. discriminate.
Qed.

Lemma unknown_item_aborts_the_run_witness :
  (In ("X", 1) (select_plan pharmacy_unknown_item)
   /\ ~ In "X" (medicines pharmacy_unknown_item))
  /\ exists c',
       main calm_world (Some "2024-01-05") false false pharmacy_unknown_item
       = (Failed IntegrityError, c')
       /\ disk c' = pharmacy_unknown_item.
Proof.
  assert (In ("X", 1) (select_plan pharmacy_unknown_item)) as Hin
    by (now left).
  assert (~ In "X" (medicines pharmacy_unknown_item)) as Hmed
    by (simpl; intros [H | [H | [H | []]]]; discriminate H).
  split; [auto |].
  destruct (unknown_item_aborts_the_run calm_world (Some "2024-01-05")
              false false pharmacy_unknown_item "X" 1 Hin Hmed eq_refl)
    as (e & c' & Hmain & Hdisk & _ & He).
  exists c'. rewrite <- (He reliable_calm_world). auto.
Defined.

(** C7 as stated fails: with a plan entry for the unknown medicine "X"
    next to the entries of the known medicines, the run neither skips "X"
    nor goes on to the others.  It ends with [IntegrityError], prints
    nothing (no warning), and leaves every batch as it was: medicine "A",
    whose 60 units are in stock, is not consumed. *)
Lemma unknown_item_is_not_skipped :
  fst (main calm_world (Some "2024-01-05") false false pharmacy_unknown_item)
  = Failed IntegrityError
  /\ stdout (snd (main calm_world (Some "2024-01-05") false false
                     pharmacy_unknown_item)) = []
  /\ disk (snd (main calm_world (Some "2024-01-05") false false
                   pharmacy_unknown_item)) = pharmacy_unknown_item
  /\ stock_in (disk (snd (main calm_world (Some "2024-01-05") false false
                             pharmacy_unknown_item))) 1 = Some 50
  /\ consumed "A"
       (appended pharmacy_unknown_item
          (disk (snd (main calm_world (Some "2024-01-05") false false
                        pharmacy_unknown_item)))) = 0.
Proof.
  vm_compute. repeat split; reflexivity.
Qed.

(** ** The guard *)

(** [already_ran_for]: a 'daily_dose' movement exists whose timestamp and
    the run date are read by [date()] as the same calendar date. *)
Lemma select_exists_run_iff w run_date db :
  select_exists_run w run_date db = true <->
  exists m, In m (stock_moves db) /\ reason m = "daily_dose"
            /\ exists day, sql_date w (ts m) = Some day
                           /\ sql_date w run_date = Some day.
Proof.
  unfold select_exists_run. rewrite existsb_exists.
  split; intros (m & Hm & H); exists m; (split; [exact Hm |]).
  - unfold ran_condition in H.
    destruct (String.eqb_spec (reason m) "daily_dose") as [Hr | Hr];
      destruct (sql_date w (ts m)) as [x |];
      destruct (sql_date w run_date) as [y |]; simpl in H;
      try discriminate.
    destruct (String.eqb_spec x y) as [-> | Hne]; [| discriminate].
    split; [exact Hr | eauto].
  - destruct H as (Hr & day & Hts & Hrun).
    unfold ran_condition. rewrite Hr, Hts, Hrun. simpl.
    now rewrite String.eqb_refl.
Qed.

(** A refusal of the guard changes nothing. *)
Lemma guard_refuses w args_date verbose db :
  reliable w ->
  select_exists_run w (run_date_of w args_date) db = true ->
  exists c, main w args_date false verbose db = (Skipped, c)
            /\ disk c = db /\ view c = db.
Proof.
  intros Hrel Hguard. rewrite main_unfold. cbv zeta.
  rewrite !Hrel, Hguard. simpl. eauto.
Qed.

(** C2, as the code has it.  The guard [already_ran_for] holds iff the
    ledger has a 'daily_dose' (consumption) movement whose timestamp falls
    on the calendar date of the run date, and when it holds and force is
    unset the run is skipped and the database, batches and movements, is
    left exactly as it was.  A second run for the same date is therefore
    skipped when the first run left a consumption movement (and [date()]
    reads '<run date> 20:00:00' as the run date); a first run that consumed
    nothing leaves no such movement. *)
Theorem rerun_is_skipped_after_consumption
    w args_date force verbose db o1 c1 :
  reliable w ->
  main w args_date force verbose db = (o1, c1) ->
  (exists m, In m (appended db (disk c1)) /\ reason m = "daily_dose") ->
  sql_date w (log_ts (run_date_of w args_date))
  = sql_date w (run_date_of w args_date) ->
  sql_date w (run_date_of w args_date) <> None ->
  (exists c2,
     main w args_date false verbose (disk c1) = (Skipped, c2)
     /\ disk c2 = disk c1 /\ view c2 = disk c1)
  /\ (forall db',
        select_exists_run w (run_date_of w args_date) db' = true <->
        exists m, In m (stock_moves db') /\ reason m = "daily_dose"
                  /\ exists day,
                       sql_date w (ts m) = Some day
                       /\ sql_date w (run_date_of w args_date) = Some day)
  /\ (forall db' verbose',
        select_exists_run w (run_date_of w args_date) db' = true ->
        exists c, main w args_date false verbose' db' = (Skipped, c)
                  /\ disk c = db' /\ view c = db').
Proof.
  intros Hrel Hmain (m & Hm & Hreason) Hdate Hvalid.
  set (d := run_date_of w args_date) in *.
  split; [| split].
  - apply guard_refuses; [exact Hrel |]. fold d.
    apply select_exists_run_iff.
    destruct (main_cases w args_date force verbose db o1 c1 Hmain)
      as (_ & _ & _ & (new & Hmoves & Hts) & _).
    rewrite (appended_app _ _ _ Hmoves) in Hm.
    exists m. split; [rewrite Hmoves; apply in_or_app; now right |].
    split; [exact Hreason |].
    rewrite Forall_forall in Hts. rewrite (Hts m Hm). fold d.
    rewrite Hdate. destruct (sql_date w d) as [day |]; [eauto | congruence].
  - intros db'. apply select_exists_run_iff.
  - intros db' verbose'. now apply guard_refuses.
Qed.

Lemma rerun_is_skipped_after_consumption_witness :
  (reliable calm_world
   /\ sql_date calm_world (log_ts "2024-01-05")
      = sql_date calm_world "2024-01-05"
   /\ sql_date calm_world "2024-01-05" <> None)
  /\ exists c1 c2,
       main calm_world (Some "2024-01-05") false false pharmacy
       = (Completed, c1)
       /\ main calm_world (Some "2024-01-05") false false (disk c1)
          = (Skipped, c2)
       /\ disk c2 = disk c1.
Proof.
  assert (sql_date calm_world "2024-01-05" <> None) as Hvalid
    by discriminate.
  split; [split; [exact reliable_calm_world | split; [reflexivity | exact Hvalid]] |].
  destruct (main calm_world (Some "2024-01-05") false false pharmacy)
    as [o1 c1] eqn:Hmain.
  assert (o1 = Completed) as ->
    by (vm_compute in Hmain; now injection Hmain as <- _).
  assert (exists m, In m (appended pharmacy (disk c1))
                    /\ reason m = "daily_dose") as Hconsumed.
  { vm_compute in Hmain. injection Hmain as <-.
    eexists. split; [right; left; reflexivity | reflexivity]. }
  destruct (rerun_is_skipped_after_consumption calm_world
              (Some "2024-01-05") false false pharmacy Completed c1
              reliable_calm_world Hmain Hconsumed eq_refl Hvalid)
    as ((c2 & Hskip & Hdisk & _) & _).
  exists c1, c2. auto.
Defined.

(** C2 as stated fails: a first run that finds nothing to consume records
    only a shortfall, so the guard does not see it.  The second run for the
    same date is not skipped: it completes and appends a second shortfall
    movement to the ledger. *)
Lemma rerun_after_shortfall_is_not_skipped :
  fst (main calm_world (Some "2024-01-05") false false empty_shelf)
  = Completed
  /\ List.length
       (stock_moves
          (disk (snd (main calm_world (Some "2024-01-05") false false
                        empty_shelf)))) = 1%nat
  /\ fst (main calm_world (Some "2024-01-05") false false
            (disk (snd (main calm_world (Some "2024-01-05") false false
                          empty_shelf))))
     = Completed
  /\ List.length
       (stock_moves
          (disk (snd (main calm_world (Some "2024-01-05") false false
                   (disk (snd (main calm_world (Some "2024-01-05") false
                                 false empty_shelf)))))))
     = 2%nat.
Proof.
  vm_compute. repeat split; reflexivity.
Qed.

(** * Further properties of the engine *)

(** ** What a run keeps *)

Lemma Forall2_Forall_r {Row} (step : Row -> Row -> Prop) (ok : Row -> Prop)
    (before after : list Row) :
  (forall r r', step r r' -> ok r -> ok r') ->
  Forall2 step before after -> Forall ok before -> Forall ok after.
Proof.
  intros Hkeep Hstep. induction Hstep as [| r r' before after Hr _ IH];
    intros Hok; [constructor |].
  inversion Hok; subst. constructor; eauto.
Qed.

(** The constraints of the schema hold on what a complete run leaves. *)
Lemma applied_wf w run_date db db' :
  wf_db db -> applied w run_date db db' -> wf_db db'.
Proof.
  intros [Hpk Hdd Hst Hbfk Hdfk Hse Hde Hsl]
         (Hmed & Hdos & expired & alloc & _ & _ & _ & Hb).
  constructor.
  - rewrite (Forall2_map_eq _ _ (batch_step (expired ++ alloc)) batch_id
               _ _ (fun x y H => proj1 H) Hb).
    exact Hpk.
  - now rewrite Hdos.
  - apply (Forall2_Forall_r (batch_step (expired ++ alloc))
             (fun b => 0 <= stock_units b) _ _) with (2 := Hb) (3 := Hst).
    intros r r' (_ & _ & _ & _ & _ & _ & Hp & _). exact Hp.
  - rewrite Hmed.
    apply (Forall2_Forall_r (batch_step (expired ++ alloc))
             (fun b => In (medicine_id b) (medicines db)) _ _)
      with (2 := Hb) (3 := Hbfk).
    intros r r' (_ & Hm & _). now rewrite Hm.
  - now rewrite Hmed, Hdos.
  - apply (Forall2_Forall_r (batch_step (expired ++ alloc))
             (fun b => stock_units b < exact_bound) _ _)
      with (2 := Hb) (3 := Hse).
    intros r r' (_ & _ & _ & _ & _ & Hle & _). lia.
  - now rewrite Hdos.
  - now rewrite Hdos.
Qed.

(** X2.  What a run never does: it never changes [medicines] or
    [daily_dosage], never adds or removes a batch, never changes the
    identifier, medicine, batch number or expiry date of a batch, never
    raises a stock, never rewrites a row whose stock it does not change,
    and never edits or deletes a movement already in the log. *)
Theorem run_only_lowers_stock_and_appends w args_date force verbose db o c' :
  wf_db db ->
  main w args_date force verbose db = (o, c') ->
  medicines (disk c') = medicines db
  /\ daily_dosage (disk c') = daily_dosage db
  /\ Forall2 (fun b b' =>
                batch_id b' = batch_id b
                /\ medicine_id b' = medicine_id b
                /\ batch_no b' = batch_no b
                /\ expiry_date b' = expiry_date b
                /\ stock_units b' <= stock_units b
                /\ (stock_units b' = stock_units b -> b' = b))
             (batches db) (batches (disk c'))
  /\ firstn (List.length (stock_moves db)) (stock_moves (disk c'))
     = stock_moves db.
Proof.
  intros Hwf Hmain.
  destruct (main_ledger w args_date force verbose db o c' Hwf Hmain)
    as [-> | (Hmed & Hdos & expired & alloc & Hmoves & _ & _ & Hb)].
  - split; [reflexivity |]. split; [reflexivity |]. split.
    + apply Forall2_refl_in. intros b _.
      repeat split; auto; try lia.
    + apply firstn_all.
  - split; [exact Hmed |]. split; [exact Hdos |]. split.
    + eapply Forall2_impl; [| exact Hb].
      intros b b' (H1 & H2 & H3 & H4 & _ & H6 & _ & H8). tauto.
    + rewrite Hmoves, firstn_app, Nat.sub_diag, firstn_all. simpl.
      apply app_nil_r.
Qed.

Lemma run_only_lowers_stock_and_appends_witness :
  wf_db pharmacy
  /\ medicines (disk (snd (main calm_world (Some "2024-01-05") false false
                             pharmacy))) = medicines pharmacy
  /\ map batch_no (batches (disk (snd (main calm_world (Some "2024-01-05")
                                         false false pharmacy))))
     = map batch_no (batches pharmacy).
Proof.
  split; [exact wf_pharmacy |].
  destruct (run_only_lowers_stock_and_appends calm_world (Some "2024-01-05")
              false false pharmacy
              (fst (main calm_world (Some "2024-01-05") false false pharmacy))
              (snd (main calm_world (Some "2024-01-05") false false pharmacy))
              wf_pharmacy (surjective_pairing _))
    as (Hmed & _ & Hb & _).
  split; [exact Hmed |].
  apply (Forall2_map_eq _ _ _ batch_no _ _ (fun x y H => proj1 (proj2 (proj2 H)))
           Hb).
Defined.

(** ** Runs in sequence *)

Lemma main_disk_wf w args_date force verbose db :
  wf_db db -> wf_db (disk (snd (main w args_date force verbose db))).
Proof.
  intros Hwf.
  destruct (main w args_date force verbose db) as [o c'] eqn:Hmain.
  cbn [snd].
  destruct (main_ledger w args_date force verbose db o c' Hwf Hmain)
    as [-> | Happ]; [exact Hwf |].
  eapply applied_wf; eauto.
Qed.

(** X1.  The schema is an invariant of the database file under any sequence
    of invocations, whatever their dates, flags and outcomes: unique batch
    identifiers and dosage keys, no negative stock, every batch and dosage
    row naming a known medicine. *)
Theorem schema_is_invariant invocations db :
  wf_db db -> wf_db (run_all invocations db).
Proof.
  revert db. induction invocations as [| i rest IH]; intros db Hwf;
    [exact Hwf |].
  simpl. apply IH. unfold run. now apply main_disk_wf.
Qed.

Lemma schema_is_invariant_witness :
  wf_db pharmacy
  /\ wf_db (run_all [mkInvocation calm_world (Some "2024-01-05") false false;
                     mkInvocation (failing_at 9) (Some "2024-01-06") false
                       true;
                     mkInvocation calm_world (Some "2024-01-06") true false]
              pharmacy).
Proof.
  split; [exact wf_pharmacy |].
  apply (schema_is_invariant _ pharmacy wf_pharmacy).
Defined.

Lemma select_plan_dosage db db' :
  daily_dosage db' = daily_dosage db -> select_plan db' = select_plan db.
Proof. intros H. unfold select_plan, v_daily_units. now rewrite H. Qed.

(** X3.  [--force] switches the guard off: after a complete run, a forced
    run on any date completes too and consumes the same plan once more,
    each planned medicine giving what it needs up to what its eligible
    batches still hold. *)
Theorem forced_run_consumes_again
    w args_date force verbose db c1 args_date' verbose' :
  reliable w -> wf_db db ->
  main w args_date force verbose db = (Completed, c1) ->
  exists c2,
    main w args_date' true verbose' (disk c1) = (Completed, c2)
    /\ select_plan (disk c1) = select_plan db
    /\ forall med need,
         In (med, need) (select_plan db) ->
         consumed med (appended (disk c1) (disk c2))
         = Z.min need
             (eligible_stock w med (run_date_of w args_date') (disk c1)).
Proof.
  intros Hrel Hwf Hmain.
  assert (wf_db (disk c1)) as Hwf1.
  { pose proof (main_disk_wf w args_date force verbose db Hwf) as H.
    now rewrite Hmain in H. }
  assert (select_plan (disk c1) = select_plan db) as Hplan.
  { apply select_plan_dosage.
    destruct (main_ledger w args_date force verbose db _ c1 Hwf Hmain)
      as [-> | (_ & Hd & _)]; auto. }
  destruct (main_completes w args_date' true verbose' (disk c1) Hrel Hwf1)
    as (c2 & Hmain2 & Happ2); [apply andb_false_r |].
  exists c2. split; [exact Hmain2 |]. split; [exact Hplan |].
  intros med need Hin. rewrite <- Hplan in Hin.
  now apply applied_consumed.
Qed.

Lemma forced_run_consumes_again_witness :
  reliable calm_world /\ wf_db pharmacy
  /\ exists c1 c2,
       main calm_world (Some "2024-01-05") false false pharmacy
       = (Completed, c1)
       /\ main calm_world (Some "2024-01-05") true false (disk c1)
          = (Completed, c2)
       /\ consumed "A" (appended (disk c1) (disk c2)) = 20.
Proof.
  split; [exact reliable_calm_world |]. split; [exact wf_pharmacy |].
  destruct (main calm_world (Some "2024-01-05") false false pharmacy)
    as [o c1] eqn:Hmain.
  assert (o = Completed) as ->.
  { apply (f_equal fst) in Hmain. vm_compute in Hmain. now symmetry. }
  destruct (forced_run_consumes_again calm_world (Some "2024-01-05") false
              false pharmacy c1 (Some "2024-01-05") false
              reliable_calm_world wf_pharmacy Hmain)
    as (c2 & Hmain2 & _ & Hcons).
  exists c1, c2. split; [reflexivity |]. split; [exact Hmain2 |].
  rewrite (Hcons "A" 60) by (vm_compute; auto).
  apply (f_equal snd) in Hmain. cbn [snd] in Hmain. subst c1.
  vm_compute. reflexivity.
Defined.

(** ** Reclamation, once more *)

Lemma Forall2_same_rows {Row} (step : Row -> Row -> Prop)
    (before after : list Row) :
  (forall r r', step r r' -> r' = r) ->
  Forall2 step before after -> after = before.
Proof.
  intros Hsame Hstep.
  induction Hstep as [| r r' before after Hr _ IH]; [reflexivity |].
  now rewrite (Hsame _ _ Hr), IH.
Qed.

Lemma scrap_condition_no_stock w run_date b :
  stock_units b = 0 -> where_true (scrap_condition w run_date b) = false.
Proof.
  intros Hs. unfold scrap_condition, sql_text_lt, date_of. rewrite Hs.
  destruct (expiry_date b) as [e |]; simpl; [destruct (sql_date w e) |];
    destruct (sql_date w run_date); reflexivity.
Qed.

(** After reclamation no batch is left to reclaim. *)
Lemma nothing_left_to_scrap w run_date new c c1 :
  NoDup (map batch_id (batches (view c))) ->
  evolves new c c1 ->
  map values new
  = expired_values run_date (select_to_scrap w run_date (view c)) ->
  select_to_scrap w run_date (view c1) = [].
Proof.
  intros Hnd Hev Hvals. unfold select_to_scrap.
  rewrite filter_none; [reflexivity |].
  intros b' Hb'. apply idx_batches_expiry_in in Hb'.
  destruct (Forall2_in_r _ _ _ _ b' (ev_batches _ _ _ Hev) Hb')
    as (b & Hb & _ & _ & _ & _ & Hs & _ & _ & Hu).
  rewrite delta_for_values, Hvals, expired_sum_select in Hs by auto.
  destruct (where_true (scrap_condition w run_date b)) eqn:Hc.
  - apply scrap_condition_no_stock. lia.
  - rewrite (Hu ltac:(lia)). exact Hc.
Qed.

(** X4.  Reclamation is idempotent: run again on the connection it returned on,
    [scrap_expired] finds nothing to reclaim and leaves every table as it
    is, unless the storage layer fails. *)
Theorem scrap_expired_is_idempotent w run_date verbose verbose' c c1 :
  NoDup (map batch_id (batches (view c))) ->
  (foreign_keys c = true ->
   Forall (fun b => In (medicine_id b) (medicines (view c)))
          (batches (view c))) ->
  scrap_expired w run_date verbose c = (Ok tt, c1) ->
  wp (scrap_expired w run_date verbose')
     (fun _ c2 => view c2 = view c1) (only_faults w) c1.
Proof.
  intros Hnd Hfk Hrun.
  destruct (wp_ok _ _ _ _ _ _ _ (scrap_expired_spec w run_date verbose c Hnd
                                  Hfk) Hrun)
    as (_ & new & Hev & Hvals).
  pose proof (nothing_left_to_scrap w run_date new c c1 Hnd Hev Hvals)
    as Hnone.
  assert (NoDup (map batch_id (batches (view c1)))) as Hnd1.
  { rewrite (Forall2_map_eq _ _ (batch_step new) batch_id _ _
               (fun x y H => proj1 H) (ev_batches _ _ _ Hev)).
    exact Hnd. }
  assert (foreign_keys c1 = true ->
          Forall (fun b => In (medicine_id b) (medicines (view c1)))
                 (batches (view c1))) as Hfk1.
  { rewrite (ev_foreign_keys _ _ _ Hev), (ev_medicines _ _ _ Hev).
    intros Hon.
    apply (Forall2_Forall_r (batch_step new)
             (fun b => In (medicine_id b) (medicines (view c))) _ _)
      with (2 := ev_batches _ _ _ Hev) (3 := Hfk Hon).
    intros r r' (_ & Hm & _). now rewrite Hm. }
  eapply wp_mono;
    [apply (scrap_expired_spec w run_date verbose' c1 Hnd1 Hfk1) | | auto].
  intros [] c2 (_ & new2 & Hev2 & Hvals2). cbv beta.
  rewrite Hnone in Hvals2. apply map_eq_nil in Hvals2. subst new2.
  destruct Hev2 as [_ _ Hmed Hdos Hmoves Hb].
  rewrite app_nil_r in Hmoves.
  apply Forall2_same_rows in Hb.
  - destruct (view c2), (view c1). simpl in *. congruence.
  - intros r r' (_ & _ & _ & _ & Hs & _ & _ & Hu).
    apply Hu. unfold delta_for in Hs. simpl in Hs. lia.
Qed.

Lemma scrap_expired_is_idempotent_witness :
  NoDup (map batch_id (batches (view (connect pharmacy))))
  /\ exists c1,
       scrap_expired calm_world "2024-01-05" false (connect pharmacy)
       = (Ok tt, c1)
       /\ wp (scrap_expired calm_world "2024-01-05" true)
             (fun _ c2 => view c2 = view c1) (only_faults calm_world) c1.
Proof.
  split; [apply wf_pharmacy |].
  destruct (scrap_expired calm_world "2024-01-05" false (connect pharmacy))
    as [r c1] eqn:Hrun.
  assert (r = Ok tt) as ->.
  { apply (f_equal fst) in Hrun. vm_compute in Hrun. now symmetry. }
  exists c1. split; [reflexivity |].
  apply (scrap_expired_is_idempotent calm_world "2024-01-05" false true
           (connect pharmacy) c1).
  - apply wf_pharmacy.
  - intros _. apply wf_pharmacy.
  - exact Hrun.
Defined.

(** ** The order of allocation is canonical *)

Lemma filter_perm {Row} (keep : Row -> bool) (rows rows' : list Row) :
  Permutation rows rows' -> Permutation (filter keep rows) (filter keep rows').
Proof.
  induction 1 as [| r l l' _ IH | r r' l | l l' l'' _ IH1 _ IH2]; simpl.
  - constructor.
  - destruct (keep r); auto.
  - destruct (keep r), (keep r'); auto. apply perm_swap.
  - eapply perm_trans; eauto.
Qed.

(** Two sorted lists with the same rows are the same list, when no two
    distinct rows tie. *)
Lemma sorted_rows_unique {Row} (le : Row -> Row -> Prop)
    (sorted sorted' : list Row) :
  (forall r r', In r sorted -> In r' sorted -> le r r' -> le r' r -> r = r') ->
  (forall r, In r sorted -> le r r) ->
  StronglySorted le sorted -> StronglySorted le sorted' ->
  Permutation sorted sorted' -> sorted = sorted'.
Proof.
  intros Hanti Hrefl Hs. revert sorted'.
  induction Hs as [| r rest Hrest IH Hr]; intros sorted' Hs' Hp.
  - apply Permutation_nil in Hp. now subst.
  - destruct Hs' as [| r' rest' Hrest' Hr'].
    + apply Permutation_sym, Permutation_nil in Hp. discriminate.
    + assert (r = r') as <-.
      { assert (le r r') as H1.
        { assert (In r' (r :: rest)) as Hin
            by (eapply Permutation_in; [apply Permutation_sym, Hp | now left]).
          destruct Hin as [<- | Hin]; [apply Hrefl; now left |].
          rewrite Forall_forall in Hr. auto. }
        assert (le r' r) as H2.
        { assert (In r (r' :: rest')) as Hin
            by (eapply Permutation_in; [apply Hp | now left]).
          destruct Hin as [<- | Hin]; [apply Hrefl; now left |].
          rewrite Forall_forall in Hr'. auto. }
        apply Hanti; auto; [now left |].
        eapply Permutation_in; [apply Permutation_sym, Hp | now left]. }
      f_equal. apply IH; auto.
      * intros a b Ha Hb. apply Hanti; now right.
      * intros a Ha. apply Hrefl; now right.
      * eapply Permutation_cons_inv; eauto.
Qed.

Lemma fefo_leb_refl w b : fefo_leb w b b = true.
Proof.
  destruct (fefo_leb w b b) eqn:H; [reflexivity |].
  pose proof (fefo_leb_total _ _ _ H). congruence.
Qed.

Lemma fefo_leb_antisym w a b :
  fefo_leb w a b = true -> fefo_leb w b a = true -> batch_id a = batch_id b.
Proof.
  unfold fefo_leb. rewrite (fefo_compare_antisym w a b).
  destruct (fefo_compare w a b) eqn:Hc; simpl; try discriminate.
  intros _ _. now apply fefo_compare_eq in Hc.
Qed.

(** X5.  The candidates of a medicine and their order do not depend on the order
    in which the table holds its rows: with unique batch identifiers the
    ORDER BY clause of [fefo_deduct] leaves no tie. *)
Theorem candidates_ignore_row_order w med run_date db db' :
  NoDup (map batch_id (batches db)) ->
  Permutation (batches db) (batches db') ->
  select_candidates w med run_date db' = select_candidates w med run_date db.
Proof.
  intros Hnd Hp. unfold select_candidates. f_equal. symmetry.
  apply (sorted_rows_unique (fefo_le w)).
  - intros a b Ha Hb Hab Hba.
    apply fefo_batches_in in Ha, Hb.
    apply (NoDup_map_eq _ _ batch_id (batches db)); try tauto.
    now apply fefo_leb_antisym with w.
  - intros a _. apply fefo_leb_refl.
  - apply fefo_batches_sorted.
  - apply fefo_batches_sorted.
  - eapply perm_trans; [apply fefo_batches_perm |].
    eapply perm_trans; [| apply Permutation_sym, fefo_batches_perm].
    now apply filter_perm.
Qed.

Lemma candidates_ignore_row_order_witness :
  NoDup (map batch_id (batches pharmacy))
  /\ select_candidates calm_world "A" "2024-01-05"
       (set_batches (rev (batches pharmacy)) pharmacy)
     = select_candidates calm_world "A" "2024-01-05" pharmacy.
Proof.
  split; [apply wf_pharmacy |].
  apply (candidates_ignore_row_order calm_world "A" "2024-01-05" pharmacy
           (set_batches (rev (batches pharmacy)) pharmacy)).
  - apply wf_pharmacy.
  - apply Permutation_rev.
Defined.

(** ** Allocation, batch by batch *)

(** When the rows hold no more than what is needed, the loop takes all of
    every row. *)
Lemma takes_everything rows remaining :
  Forall (fun r => 0 < snd r) rows ->
  sumZ (map snd rows) <= remaining ->
  takes rows remaining = rows.
Proof.
  revert remaining.
  induction rows as [| [bid stock] rows IH]; intros remaining Hpos Hsum;
    [reflexivity |].
  inversion Hpos as [| ? ? Hs Hrest]; subst. simpl in Hs, Hsum |- *.
  assert (0 <= sumZ (map snd rows)) as Hnn.
  { clear - Hrest. induction Hrest as [| r l Hr _ IH]; simpl; lia. }
  destruct (Z.leb_spec remaining 0); [lia |].
  rewrite Z.min_l by lia.
  destruct (Z.leb_spec stock 0); [lia |].
  f_equal. apply IH; auto. lia.
Qed.

Lemma candidate_not_scrapped w med run_date b :
  candidate_condition w med run_date b = Some true ->
  scrap_condition w run_date b <> Some true.
Proof.
  intros Hc Hs. now apply (scrap_not_candidate w med run_date b Hs).
Qed.

(** X6.  A planned medicine whose eligible stock does not exceed its daily need
    is emptied: the run leaves every one of its eligible batches at 0. *)
Theorem short_supply_empties_eligible_batches
    w args_date force verbose db med need :
  reliable w -> wf_db db ->
  select_exists_run w (run_date_of w args_date) db && negb force = false ->
  In (med, need) (select_plan db) ->
  eligible_stock w med (run_date_of w args_date) db <= need ->
  exists c',
    main w args_date force verbose db = (Completed, c')
    /\ forall b,
         In b (fefo_batches w med (run_date_of w args_date) db) ->
         stock_in (disk c') (batch_id b) = Some 0.
Proof.
  intros Hrel Hwf Hguard Hin Hshort.
  destruct (main_completes w args_date force verbose db Hrel Hwf Hguard)
    as (c' & Hmain & Happ).
  exists c'. split; [exact Hmain |]. intros b Hb.
  set (d := run_date_of w args_date) in *.
  pose proof Hb as Hb'. apply fefo_batches_in in Hb'.
  destruct Hb' as [Hbin Hc].
  rewrite (applied_stock_in w d db (disk c') Hwf Happ b Hbin).
  rewrite (applied_delta w d db (disk c') Hwf Happ b med need Hbin);
    auto.
  - rewrite takes_everything.
    + rewrite (sum_at_key_present _ (batch_id b) (stock_units b)).
      * f_equal. lia.
      * unfold select_candidates. rewrite map_map. simpl.
        apply fefo_batches_NoDup, Hwf.
      * unfold select_candidates. apply in_map_iff. exists b. auto.
    + apply Forall_forall. intros r Hr. unfold select_candidates in Hr.
      apply in_map_iff in Hr. destruct Hr as (x & <- & Hx).
      apply fefo_batches_in in Hx. destruct Hx as [_ Hx].
      apply candidate_condition_true in Hx. simpl. tauto.
    + unfold select_candidates. rewrite map_map. simpl. exact Hshort.
  - apply candidate_condition_true in Hc. tauto.
  - now apply candidate_not_scrapped with med.
Qed.

Lemma short_supply_empties_eligible_batches_witness :
  reliable calm_world /\ wf_db pharmacy
  /\ exists c',
       main calm_world (Some "2024-01-05") false false pharmacy
       = (Completed, c')
       /\ stock_in (disk c') 3 = Some 0.
Proof.
  split; [exact reliable_calm_world |]. split; [exact wf_pharmacy |].
  destruct (short_supply_empties_eligible_batches calm_world
              (Some "2024-01-05") false false pharmacy "B" 7
              reliable_calm_world wf_pharmacy)
    as (c' & Hmain & Hzero).
  - reflexivity.
  - vm_compute. auto.
  - vm_compute. discriminate.
  - exists c'. split; [exact Hmain |].
    apply (Hzero (mkBatch 3 "B" "B-1" 5 None "2023-12-01 09:00:00")).
    vm_compute. auto.
Defined.

(** The 'daily_dose' values of a plan item are the takes of the loop. *)
Lemma item_values_taken w run_date db med need v :
  In v (item_values w run_date db (med, need)) ->
  v_reason v = "daily_dose" ->
  exists bid take,
    In (bid, take) (takes (select_candidates w med run_date db) need)
    /\ v = daily_dose_values run_date med bid take.
Proof.
  unfold item_values. cbn [fst snd]. intros Hv Hr.
  apply in_app_or in Hv. destruct Hv as [Hv | Hv].
  - apply in_map_iff in Hv. destruct Hv as ([bid take] & <- & Ht).
    exists bid, take. auto.
  - destruct (above_tolerance _); [| contradiction].
    destruct Hv as [<- | []]. discriminate.
Qed.

(** What a run appended, as values. *)
Lemma applied_values w run_date db db' m :
  applied w run_date db db' ->
  In m (appended db db') ->
  In (values m) (expired_values run_date (select_to_scrap w run_date db))
  \/ exists item, In item (select_plan db)
                  /\ In (values m) (item_values w run_date db item).
Proof.
  intros (_ & _ & expired & alloc & Hmoves & Hexp & Halloc & _) Hm.
  rewrite (appended_app _ _ _ Hmoves) in Hm.
  apply in_app_or in Hm. destruct Hm as [Hm | Hm].
  - left. rewrite <- Hexp. now apply in_map.
  - right. apply (in_map values) in Hm. rewrite Halloc in Hm.
    apply in_flat_map in Hm. exact Hm.
Qed.

(** X7.  Consumption is only ever taken from an eligible batch: every
    'daily_dose' movement a run records names a batch of its medicine that
    held stock and was not expired on the run date, takes a positive
    quantity that the batch held, and belongs to a medicine of the plan. *)
Theorem consumption_comes_from_eligible_batches
    w args_date force verbose db o c' m :
  wf_db db ->
  main w args_date force verbose db = (o, c') ->
  In m (appended db (disk c')) ->
  reason m = "daily_dose" ->
  exists b need,
    In b (batches db)
    /\ mv_batch_id m = Some (batch_id b)
    /\ candidate_condition w (mv_medicine_id m) (run_date_of w args_date) b
       = Some true
    /\ 0 < - qty_change m <= stock_units b
    /\ In (mv_medicine_id m, need) (select_plan db).
Proof.
  intros Hwf Hmain Hm Hr.
  destruct (main_ledger w args_date force verbose db o c' Hwf Hmain)
    as [Hsame | Happ].
  { rewrite Hsame, appended_same in Hm. contradiction. }
  set (d := run_date_of w args_date) in *.
  destruct (applied_values w d db (disk c') m Happ Hm)
    as [Hv | ([med need] & Hin & Hv)].
  - unfold expired_values in Hv. apply in_map_iff in Hv.
    destruct Hv as (r & Hv & _).
    apply (f_equal v_reason) in Hv. simpl in Hv.
    change (v_reason (values m)) with (reason m) in Hv. congruence.
  - destruct (item_values_taken w d db med need _ Hv Hr)
      as (bid & take & Ht & Hval).
    apply takes_in in Ht. destruct Ht as (stock & Hrow & Hq).
    unfold select_candidates in Hrow. apply in_map_iff in Hrow.
    destruct Hrow as (b & Hb & Hbin). injection Hb as <- <-.
    apply fefo_batches_in in Hbin. destruct Hbin as [Hbin Hc].
    replace (mv_medicine_id m) with (v_medicine_id (values m))
      by reflexivity.
    replace (mv_batch_id m) with (v_batch_id (values m)) by reflexivity.
    replace (qty_change m) with (v_qty_change (values m)) by reflexivity.
    rewrite Hval. simpl. exists b, need. repeat split; auto; lia.
Qed.

Lemma consumption_comes_from_eligible_batches_witness :
  wf_db pharmacy
  /\ exists b need,
       In b (batches pharmacy)
       /\ batch_id b = 1
       /\ candidate_condition calm_world "A" "2024-01-05" b = Some true
       /\ 0 < 50 <= stock_units b
       /\ In ("A", need) (select_plan pharmacy).
Proof.
  split; [exact wf_pharmacy |].
  destruct (main calm_world (Some "2024-01-05") false false pharmacy)
    as [o c'] eqn:Hmain.
  destruct (consumption_comes_from_eligible_batches calm_world
              (Some "2024-01-05") false false pharmacy o c'
              (mkStockMove 2 "2024-01-05 20:00:00" "A" (Some 1) (-50)
                 "daily_dose" (Some "FEFO daily deduction 2024-01-05"))
              wf_pharmacy Hmain)
    as (b & need & Hb & Hid & Hc & Hq & Hin).
  - apply (f_equal snd) in Hmain. cbn [snd] in Hmain. subst c'.
    vm_compute. auto.
  - reflexivity.
  - exists b, need. simpl in Hid. injection Hid as Hid.
    repeat split; auto; simpl in Hq; lia.
Defined.

(** ** A run date that SQLite cannot read *)

Section Unreadable_date.

Variable w : World.
Variable run_date : string.
Hypothesis Hdate : sql_date w run_date = None.

Lemma unreadable_never_ran db : select_exists_run w run_date db = false.
Proof.
  unfold select_exists_run.
  induction (stock_moves db) as [| m ms IH]; [reflexivity |].
  simpl. rewrite IH, orb_false_r.
  unfold ran_condition, sql_text_eq. rewrite Hdate.
  destruct (String.eqb _ _), (sql_date w (ts m)); reflexivity.
Qed.

Lemma unreadable_nothing_expired b :
  where_true (scrap_condition w run_date b) = false.
Proof.
  unfold scrap_condition, sql_text_lt. rewrite Hdate.
  destruct (0 <? stock_units b), (expiry_date b) as [e |]; simpl;
    try destruct (sql_date w e); reflexivity.
Qed.

Lemma unreadable_candidates_undated med b :
  candidate_condition w med run_date b = Some true -> expiry_date b = None.
Proof.
  unfold candidate_condition, sql_text_ge. rewrite Hdate.
  destruct (String.eqb _ _), (0 <? stock_units b),
    (expiry_date b) as [e |]; simpl; try destruct (sql_date w e);
    simpl; auto; discriminate.
Qed.

Lemma unreadable_select_to_scrap db : select_to_scrap w run_date db = [].
Proof.
  unfold select_to_scrap. rewrite filter_none; [reflexivity |].
  intros b _. apply unreadable_nothing_expired.
Qed.

End Unreadable_date.

(** X8.  A run whose date SQLite's [date()] cannot read (any text is accepted
    for [--date]) is never refused by the guard, reclaims nothing, and
    allocates from undated batches only: no 'expired' movement is appended
    and every dated batch is left as it was. *)
Theorem unreadable_run_date_skips_dated_stock w args_date verbose db :
  reliable w -> wf_db db ->
  sql_date w (run_date_of w args_date) = None ->
  exists c',
    main w args_date false verbose db = (Completed, c')
    /\ (forall m, In m (appended db (disk c')) ->
                  reason m <> "expired"
                  /\ forall b, In b (batches db) ->
                               mv_batch_id m = Some (batch_id b) ->
                               expiry_date b = None)
    /\ (forall b, In b (batches db) -> expiry_date b <> None ->
                  In b (batches (disk c'))).
Proof.
  intros Hrel Hwf Hdate.
  set (d := run_date_of w args_date) in *.
  destruct (main_completes w args_date false verbose db Hrel Hwf)
    as (c' & Hmain & Happ).
  { fold d. now rewrite (unreadable_never_ran w d Hdate). }
  fold d in Happ.
  assert (forall m, In m (appended db (disk c')) ->
                    reason m <> "expired"
                    /\ forall b, In b (batches db) ->
                                 mv_batch_id m = Some (batch_id b) ->
                                 expiry_date b = None) as Hmoves.
  { intros m Hm.
    destruct (applied_values w d db (disk c') m Happ Hm)
      as [Hv | ([med need] & Hin & Hv)].
    { rewrite (unreadable_select_to_scrap w d Hdate) in Hv. contradiction. }
    apply item_values_in in Hv. destruct Hv as (_ & _ & Hr & Hid).
    change (v_reason (values m)) with (reason m) in Hr.
    change (v_batch_id (values m)) with (mv_batch_id m) in Hid.
    split; [destruct Hr as [-> | ->]; discriminate |].
    intros b Hb Hmb. destruct (Hid _ Hmb) as (x & Hx & Hxid).
    apply fefo_batches_in in Hx. destruct Hx as [Hx Hc].
    assert (x = b) as <-
      by (apply (NoDup_map_eq _ _ batch_id (batches db)); auto; apply Hwf).
    now apply (unreadable_candidates_undated w d Hdate med). }
  exists c'. split; [exact Hmain |]. split; [exact Hmoves |].
  intros b Hb Hdated.
  apply (applied_untouched w d db (disk c') Happ b Hb).
  unfold delta_for. rewrite filter_none; [reflexivity |].
  intros m Hm. unfold refers_to.
  destruct (mv_batch_id m) as [i |] eqn:Hi; [| reflexivity].
  destruct (Z.eqb_spec i (batch_id b)) as [-> |]; [| reflexivity].
  destruct (Hmoves m Hm) as [_ Hund]. now apply Hund in Hi.
Qed.

Lemma unreadable_run_date_skips_dated_stock_witness :
  reliable calm_world /\ wf_db pharmacy
  /\ sql_date calm_world (run_date_of calm_world day_first) = None
  /\ exists c',
       main calm_world day_first false false pharmacy = (Completed, c')
       /\ In (mkBatch 4 "C" "C-1" 8 (Some "2023-12-31") "2023-12-01 09:00:00")
             (batches (disk c')).
Proof.
  split; [exact reliable_calm_world |]. split; [exact wf_pharmacy |].
  split; [reflexivity |].
  destruct (unreadable_run_date_skips_dated_stock calm_world day_first false
              pharmacy reliable_calm_world wf_pharmacy eq_refl)
    as (c' & Hmain & _ & Hkept).
  exists c'. split; [exact Hmain |].
  apply Hkept; [vm_compute; tauto | discriminate].
Defined.

(** ** What a run prints *)

Lemma silent_ret A (a : A) : silent (ret a).
Proof. intros c. reflexivity. Qed.

Lemma silent_bind A B (m : M A) (k : A -> M B) :
  silent m -> (forall a, silent (k a)) -> silent (bind m k).
Proof.
  unfold silent, wp, bind. intros Hm Hk c. specialize (Hm c).
  destruct (m c) as [[a | e] c1]; [| exact Hm].
  specialize (Hk a c1). destruct (k a c1) as [[b | e] c2]; congruence.
Qed.

Section Silent.

Variable w : World.

Lemma silent_call : silent (call w).
Proof.
  intros c. unfold wp, call.
  destruct (operational_error w (calls c)); reflexivity.
Qed.

Lemma silent_after_call A (k : nat -> M A) :
  (forall n, silent (k n)) -> silent (bind (call w) k).
Proof. intros Hk. apply silent_bind; [apply silent_call | exact Hk]. Qed.

Lemma silent_commit : silent (commit w).
Proof.
  intros c. unfold wp, commit.
  destruct (in_transaction c); [| reflexivity].
  unfold bind, call. destruct (operational_error w (calls c)); reflexivity.
Qed.

Lemma silent_execute_select A (q : DB -> A) : silent (execute_select w q).
Proof. apply silent_after_call. intros n c. reflexivity. Qed.

Lemma silent_execute_select_to_scrap A (q : list ScrapRow -> A) :
  silent (execute_select_to_scrap w q).
Proof. apply silent_after_call. intros n c. reflexivity. Qed.

Lemma silent_execute_update sel f : silent (execute_update w sel f).
Proof.
  apply silent_after_call. intros n c. unfold wp, bind, begin_implicit.
  cbn [batches view]. destruct (update_stock _ _ _ _); reflexivity.
Qed.

Lemma silent_execute_insert vs : silent (execute_insert w vs).
Proof.
  apply silent_after_call. intros n c. unfold wp, bind, begin_implicit.
  cbn [foreign_keys view]. destruct (insert_moves _ _ _ _); reflexivity.
Qed.

Lemma silent_scrap_expired run_date verbose :
  silent (scrap_expired w run_date verbose).
Proof.
  unfold scrap_expired.
  apply silent_bind; [apply silent_after_call; intros n c; reflexivity |].
  intros _.
  apply silent_bind; [apply silent_after_call; intros n c; reflexivity |].
  intros _. apply silent_bind; [intros c; reflexivity |]. intros scrap.
  apply silent_bind; [apply silent_execute_update |]. intros _.
  apply silent_bind; [apply silent_execute_insert |]. intros _.
  destruct verbose; [| apply silent_ret].
  apply silent_bind; [apply silent_execute_select_to_scrap |].
  intros _. apply silent_ret.
Qed.

Lemma silent_deduct_rows run_date med rows : forall remaining,
  silent (deduct_rows w run_date med rows remaining).
Proof.
  induction rows as [| [bid stock] rows IH]; intros remaining; simpl;
    [apply silent_ret |].
  destruct (remaining <=? 0); [apply silent_ret |].
  destruct (Z.min stock remaining <=? 0); [apply IH |].
  apply silent_bind; [apply silent_execute_update |]. intros _.
  apply silent_bind; [apply silent_execute_insert |]. intros _. apply IH.
Qed.

Lemma silent_deduct_item run_date item :
  silent (deduct_item w run_date item).
Proof.
  destruct item as [med need]. unfold deduct_item.
  apply silent_bind; [apply silent_execute_select |]. intros rows.
  apply silent_bind; [apply silent_deduct_rows |]. intros remaining.
  destruct (above_tolerance remaining);
    [apply silent_execute_insert | apply silent_ret].
Qed.

Lemma silent_deduct_plan run_date plan :
  silent (deduct_plan w run_date plan).
Proof.
  induction plan as [| item plan IH]; simpl; [apply silent_ret |].
  apply silent_bind; [apply silent_deduct_item | intros _; exact IH].
Qed.

(** [fefo_deduct] prints its line when it returns with an empty plan, and
    nothing when it raises. *)
Lemma fefo_deduct_prints run_date verbose c :
  wp (fefo_deduct w run_date verbose)
     (fun _ c' => stdout c' = stdout c ++ info_lines (select_plan (view c)))
     (fun _ c' => stdout c' = stdout c) c.
Proof.
  unfold fefo_deduct. apply wp_bind, wp_execute_select; [reflexivity |].
  intros _. change (view c) with (view (called c)).
  change (stdout c) with (stdout (called c)).
  destruct (select_plan (view (called c))) as [| item plan] eqn:Hplan.
  - apply wp_print. reflexivity.
  - eapply wp_mono; [apply (silent_deduct_plan run_date (item :: plan)) | |];
      cbv beta; intros; simpl; rewrite ?app_nil_r; auto.
Qed.

(** The part of a run up to its commit prints the line of the plan, and
    only once the plan was read. *)
Lemma transaction_part_prints run_date verbose c :
  in_transaction c = false ->
  wp (transaction_part w run_date verbose)
     (fun _ c' => stdout c' = stdout c ++ info_lines (select_plan (view c)))
     (fun _ c' => stdout c' = stdout c
                  \/ stdout c' = stdout c
                                 ++ info_lines (select_plan (view c))) c.
Proof.
  intros Htx. unfold transaction_part. apply wp_bind.
  pose proof (silent_scrap_expired run_date verbose c) as Hs.
  pose proof (scrap_expired_uncommitted w run_date verbose c c
                (uncommitted_refl run_date c) Htx) as Hq.
  unfold wp in Hs, Hq |- *.
  destruct (scrap_expired w run_date verbose c) as [[[] | e] c1];
    [| now left].
  assert (select_plan (view c1) = select_plan (view c)) as Hplan.
  { apply select_plan_dosage. destruct Hq as (_ & _ & _ & Hd & _). exact Hd. }
  fold (wp (fefo_deduct w run_date verbose ;; commit w)
           (fun _ c' => stdout c' = stdout c
                        ++ info_lines (select_plan (view c)))
           (fun _ c' => stdout c' = stdout c
                        \/ stdout c' = stdout c
                           ++ info_lines (select_plan (view c))) c1).
  apply wp_bind.
  eapply wp_mono; [apply (fefo_deduct_prints run_date verbose c1) | |];
    cbv beta.
  - intros [] c2 H2.
    eapply wp_mono; [apply (silent_commit c2) | |]; cbv beta; intros;
      [| right]; congruence.
  - intros e c2 H2. left. congruence.
Qed.

Lemma report_part_prints run_date verbose c :
  stdout (snd (report_part w run_date verbose c))
  = stdout c ++ [("[OK] FEFO daily deduction complete for " ++ run_date
                  ++ ".")%string].
Proof.
  unfold report_part, bind, print. destruct verbose; [| reflexivity].
  unfold execute_select, bind, call. cbn [calls].
  destruct (operational_error w _); reflexivity.
Qed.

End Silent.

Lemma main_prints w args_date force verbose db :
  match main w args_date force verbose db with
  | (Failed _, c') =>
      exists k, stdout c' = firstn k (report w args_date force db)
  | (_, c') => stdout c' = report w args_date force db
  end.
Proof.
  rewrite main_unfold. cbv zeta. unfold report.
  destruct (operational_error w 0); [now exists 0%nat |].
  destruct (operational_error w 1); [now exists 0%nat |].
  destruct (select_exists_run w (run_date_of w args_date) db && negb force);
    [reflexivity |].
  set (d := run_date_of w args_date).
  set (ok := ("[OK] FEFO daily deduction complete for " ++ d ++ ".")%string).
  pose proof (transaction_part_prints w d verbose
                (mkConn db db false true [] 2 []) eq_refl) as Ht.
  unfold wp in Ht. cbn [stdout view app] in Ht.
  destruct (transaction_part w d verbose _) as [[[] | e] c3].
  - pose proof (report_part_prints w d verbose c3) as Hr.
    pose proof (report_part_spec w d verbose c3) as Ho.
    unfold wp in Ho. fold ok in Hr.
    destruct (report_part w d verbose c3) as [[o | e] c4];
      cbn [snd] in Hr.
    + destruct Ho as (-> & _).
      pose proof (silent_commit w c4) as Hc. unfold wp in Hc.
      destruct (commit w c4) as [[[] | e] c5].
      * congruence.
      * exists (List.length (info_lines (select_plan db) ++ [ok])).
        rewrite firstn_all. congruence.
    + exists (List.length (info_lines (select_plan db) ++ [ok])).
      rewrite firstn_all. cbn [rollback stdout]. congruence.
  - cbn [rollback stdout]. destruct Ht as [-> | ->].
    + now exists 0%nat.
    + exists (List.length (info_lines (select_plan db))).
      now rewrite firstn_app, firstn_all, Nat.sub_diag, app_nil_r.
Qed.

(** X9.  What the operator reads, without [--verbose].  A run that is skipped or
    completed prints exactly its report: the [SKIP] line alone when the
    guard refuses; otherwise the [INFO] line if and only if no medicine has
    a positive daily dosage, then the [OK] line.  A failed run prints a
    prefix of that report and nothing else. *)
Theorem run_prints_its_report w args_date force db :
  match main w args_date force false db with
  | (Failed _, c') =>
      exists k, stdout c' = firstn k (report w args_date force db)
  | (_, c') => stdout c' = report w args_date force db
  end.
Proof.
  apply main_prints.
Qed.

(** ** Stock totals against the log *)

Section Totals.

(** [class] selects batches, [counts] the movements on them. *)
Variable class : Batch -> bool.
Variable counts : StockMove -> bool.

Lemma sum_off_batch bs (i q : Z) :
  ~ In i (map batch_id bs) ->
  sumZ (map (fun b => if i =? batch_id b then q else 0) (filter class bs))
  = 0.
Proof.
  induction bs as [| b bs IH]; intros Hi; [reflexivity |]. simpl in Hi |- *.
  assert ((i =? batch_id b) = false) as Hne by (apply Z.eqb_neq; intuition).
  destruct (class b); simpl; [rewrite Hne |]; apply IH; tauto.
Qed.

Lemma sum_at_batch bs b0 (q : Z) :
  NoDup (map batch_id bs) -> In b0 bs ->
  sumZ (map (fun b => if batch_id b0 =? batch_id b then q else 0)
            (filter class bs))
  = if class b0 then q else 0.
Proof.
  induction bs as [| b bs IH]; simpl; [tauto |].
  intros Hnd Hin. inversion Hnd as [| ? ? Hb Hnd']; subst.
  destruct Hin as [-> | Hin].
  - pose proof (sum_off_batch bs (batch_id b0) q Hb) as Hrest.
    destruct (class b0); simpl; [| exact Hrest].
    rewrite Z.eqb_refl, Hrest. lia.
  - assert ((batch_id b0 =? batch_id b) = false) as Hne.
    { apply Z.eqb_neq. intros Heq. apply Hb. rewrite <- Heq.
      now apply in_map. }
    destruct (class b); simpl; [rewrite Hne |]; apply IH; auto.
Qed.

Lemma sum_zero_rows {Row} (rows : list Row) :
  sumZ (map (fun _ => 0) rows) = 0.
Proof. induction rows; simpl; lia. Qed.

Lemma sum_add_rows {Row} (f g : Row -> Z) (rows : list Row) :
  sumZ (map (fun r => f r + g r) rows)
  = sumZ (map f rows) + sumZ (map g rows).
Proof. induction rows; simpl; lia. Qed.

(** The movements on the batches of a class add up, batch by batch, to the
    movements that count. *)
Lemma delta_of_class bs new :
  NoDup (map batch_id bs) ->
  (forall m, In m new -> mv_batch_id m = None -> qty_change m = 0) ->
  (forall m i, In m new -> mv_batch_id m = Some i ->
               exists b, In b bs /\ batch_id b = i /\ class b = counts m) ->
  sumZ (map (fun b => delta_for (batch_id b) new) (filter class bs))
  = sumZ (map qty_change (filter counts new)).
Proof.
  intros Hnd. induction new as [| m new IH]; intros Hnone Hsome.
  - apply sum_zero_rows.
  - assert (sumZ (map (fun b => delta_for (batch_id b) new) (filter class bs))
            = sumZ (map qty_change (filter counts new))) as IH'.
    { apply IH; intros; [eapply Hnone | eapply Hsome]; eauto; now right. }
    assert (forall b, delta_for (batch_id b) (m :: new)
                      = (if refers_to (batch_id b) m then qty_change m else 0)
                        + delta_for (batch_id b) new) as Hd.
    { intros b. unfold delta_for. simpl.
      destruct (refers_to (batch_id b) m); reflexivity. }
    rewrite (map_ext _ _ Hd), sum_add_rows, IH'. clear Hd IH IH'.
    assert (sumZ (map (fun b => if refers_to (batch_id b) m
                                then qty_change m else 0) (filter class bs))
            = if counts m then qty_change m else 0) as ->.
    { unfold refers_to. destruct (mv_batch_id m) as [i |] eqn:Hi.
      - destruct (Hsome m i (or_introl eq_refl) Hi) as (b0 & Hb0 & <- & <-).
        now apply sum_at_batch.
      - rewrite sum_zero_rows, (Hnone m (or_introl eq_refl) Hi).
        now destruct (counts m). }
    simpl. destruct (counts m); reflexivity.
Qed.

(** The stock of a class of batches moves by the movements on them. *)
Lemma class_stock_after new bs bs' :
  (forall b b', batch_step new b b' -> class b' = class b) ->
  Forall2 (batch_step new) bs bs' ->
  sumZ (map stock_units (filter class bs'))
  = sumZ (map stock_units (filter class bs))
    + sumZ (map (fun b => delta_for (batch_id b) new) (filter class bs)).
Proof.
  intros Hclass Hstep.
  induction Hstep as [| b b' bs bs' Hb _ IH]; [reflexivity |].
  simpl. rewrite (Hclass _ _ Hb).
  destruct Hb as (_ & _ & _ & _ & Hs & _).
  destruct (class b); simpl; lia.
Qed.

End Totals.

(** Every movement a run appends on a batch names a batch of the table and
    carries its medicine; if it reclaims, the batch was expired. *)
Lemma appended_refers w run_date db db' m i :
  wf_db db -> applied w run_date db db' ->
  In m (appended db db') -> mv_batch_id m = Some i ->
  exists b, In b (batches db) /\ batch_id b = i
            /\ medicine_id b = mv_medicine_id m
            /\ (reason m = "expired"
                /\ scrap_condition w run_date b = Some true
                \/ reason m = "daily_dose"
                   /\ candidate_condition w (mv_medicine_id m) run_date b
                      = Some true).
Proof.
  intros Hwf Happ Hm Hi.
  destruct (applied_values w run_date db db' m Happ Hm)
    as [Hv | ([med need] & Hin & Hv)].
  - rewrite expired_values_select in Hv. apply in_map_iff in Hv.
    destruct Hv as (b & Hv & Hb). apply filter_In in Hb.
    destruct Hb as [Hb Hc]. apply idx_batches_expiry_in in Hb. exists b.
    replace (mv_medicine_id m) with (v_medicine_id (values m))
      by reflexivity.
    replace (reason m) with (v_reason (values m)) by reflexivity.
    assert (v_batch_id (values m) = Some i) as Hi' by exact Hi.
    rewrite <- Hv in *. simpl in Hi'. injection Hi' as <-.
    repeat split; auto. left. split; [reflexivity |].
    destruct (scrap_condition w run_date b) as [[|] |]; auto; discriminate.
  - pose proof (item_values_in w run_date db med need _ Hv)
      as (_ & Hmed & Hr & Hid).
    destruct (Hid i Hi) as (b & Hb & Hbid).
    apply fefo_batches_in in Hb. destruct Hb as [Hb Hc].
    change (v_medicine_id (values m)) with (mv_medicine_id m) in Hmed.
    change (v_reason (values m)) with (reason m) in Hr.
    exists b. rewrite Hmed. repeat split; auto.
    + apply candidate_condition_true in Hc. tauto.
    + right. split; [| exact Hc].
      destruct Hr as [Hr | Hr]; [exact Hr |].
      unfold item_values in Hv. cbn [fst snd] in Hv.
      apply in_app_or in Hv. destruct Hv as [Hv | Hv].
      * apply in_map_iff in Hv. destruct Hv as (t & Hv & _).
        apply (f_equal v_reason) in Hv. simpl in Hv.
        change (v_reason (values m)) with (reason m) in Hv. congruence.
      * destruct (above_tolerance _); [| contradiction].
        destruct Hv as [Hv | []].
        apply (f_equal v_batch_id) in Hv. simpl in Hv.
        change (v_batch_id (values m)) with (mv_batch_id m) in Hv.
        congruence.
Qed.

Lemma appended_unbatched w run_date db db' m :
  applied w run_date db db' ->
  In m (appended db db') -> mv_batch_id m = None -> qty_change m = 0.
Proof.
  intros Happ Hm Hnone.
  pose proof (applied_shapes w run_date db db' Happ) as Hs.
  rewrite Forall_forall in Hs.
  destruct (Hs m Hm) as [(_ & (i & Hi) & _) | (_ & _ & Hq)];
    [congruence | exact Hq].
Qed.

(** X10.  The dashboard's totals reconcile with the log: whatever way a run ends,
    "Units in stock" moves by the sum of the movements the run appended, and
    the total stock of each medicine by the sum of the movements appended
    for that medicine. *)
Theorem totals_follow_the_log w args_date force verbose db o c' :
  wf_db db ->
  main w args_date force verbose db = (o, c') ->
  units_in_stock (disk c')
  = units_in_stock db + sumZ (map qty_change (appended db (disk c')))
  /\ forall med,
       total_stock med (disk c')
       = total_stock med db
         + sumZ (map qty_change
                   (filter (fun m => String.eqb (mv_medicine_id m) med)
                           (appended db (disk c')))).
Proof.
  intros Hwf Hmain.
  destruct (main_ledger w args_date force verbose db o c' Hwf Hmain)
    as [-> | Happ].
  { rewrite appended_same. simpl. split; [| intros med]; lia. }
  set (d := run_date_of w args_date) in *.
  pose proof Happ as (_ & _ & expired & alloc & Hmoves & _ & _ & Hb).
  rewrite (appended_app _ _ _ Hmoves).
  assert (forall m, In m (expired ++ alloc) -> In m (appended db (disk c')))
    as Hback by (intros m; now rewrite (appended_app _ _ _ Hmoves)).
  split; [| intros med].
  - unfold units_in_stock.
    rewrite <- (filter_all _ (fun _ => true) (batches (disk c')))
      by reflexivity.
    rewrite <- (filter_all _ (fun _ => true) (batches db)) at 1
      by reflexivity.
    rewrite <- (filter_all _ (fun _ => true) (expired ++ alloc))
      by reflexivity.
    rewrite (class_stock_after (fun _ => true) (expired ++ alloc) _ _
               (fun _ _ _ => eq_refl) Hb).
    f_equal. apply delta_of_class; [apply Hwf | |].
    + intros m Hm. apply (appended_unbatched w d db (disk c') m Happ).
      now apply Hback.
    + intros m i Hm Hi.
      destruct (appended_refers w d db (disk c') m i Hwf Happ (Hback m Hm) Hi)
        as (b & Hbin & Hid & _).
      exists b. auto.
  - unfold total_stock.
    rewrite (class_stock_after (fun b => String.eqb (medicine_id b) med)
               (expired ++ alloc) _ _) with (2 := Hb).
    + f_equal. apply delta_of_class; [apply Hwf | |].
      * intros m Hm. apply (appended_unbatched w d db (disk c') m Happ).
        now apply Hback.
      * intros m i Hm Hi.
        destruct (appended_refers w d db (disk c') m i Hwf Happ (Hback m Hm)
                    Hi) as (b & Hbin & Hid & Hmed & _).
        exists b. rewrite Hmed. auto.
    + intros b b' (_ & Hm & _). now rewrite Hm.
Qed.

Lemma totals_follow_the_log_witness :
  wf_db pharmacy
  /\ units_in_stock
       (disk (snd (main calm_world (Some "2024-01-05") false false pharmacy)))
     = 93 + -73.
Proof.
  split; [exact wf_pharmacy |].
  destruct (main calm_world (Some "2024-01-05") false false pharmacy)
    as [o c'] eqn:Hmain.
  destruct (totals_follow_the_log calm_world (Some "2024-01-05") false false
              pharmacy o c' wf_pharmacy Hmain) as [Htotal _].
  cbn [snd]. rewrite Htotal.
  apply (f_equal snd) in Hmain. cbn [snd] in Hmain. subst c'.
  vm_compute. reflexivity.
Defined.

(** ** What is left for the next day *)

Lemma sumZ_perm (l l' : list Z) : Permutation l l' -> sumZ l = sumZ l'.
Proof. induction 1; simpl; lia. Qed.

Lemma candidate_in_date w med run_date b :
  where_true (candidate_condition w med run_date b)
  = in_date w med run_date b && (0 <? stock_units b).
Proof.
  unfold candidate_condition, in_date.
  destruct (String.eqb _ _), (0 <? stock_units b),
    (sql_or _ _) as [[|] |]; reflexivity.
Qed.

(** The eligible stock of a medicine is the stock of its batches in date. *)
Lemma eligible_stock_in_date w med run_date db :
  Forall (fun b => 0 <= stock_units b) (batches db) ->
  eligible_stock w med run_date db
  = sumZ (map stock_units (filter (in_date w med run_date) (batches db))).
Proof.
  intros Hnn. unfold eligible_stock.
  rewrite (sumZ_perm _ _ (Permutation_map stock_units
                            (fefo_batches_perm w med run_date db))).
  induction Hnn as [| b bs Hb _ IH]; [reflexivity |].
  simpl. rewrite candidate_in_date.
  destruct (in_date w med run_date b); simpl; [| exact IH].
  destruct (Z.ltb_spec 0 (stock_units b)); simpl; lia.
Qed.

Lemma consumed_as_sum med ms :
  consumed med ms
  = - sumZ (map qty_change (filter (is_move "daily_dose" med) ms)).
Proof.
  unfold consumed.
  induction (filter _ ms) as [| m l IH]; simpl; lia.
Qed.

(** Whatever way a run ends, the eligible stock of a medicine goes down by
    what the run recorded as consumed from it. *)
Lemma eligible_stock_after w args_date force verbose db o c' med :
  wf_db db ->
  main w args_date force verbose db = (o, c') ->
  eligible_stock w med (run_date_of w args_date) (disk c')
  = eligible_stock w med (run_date_of w args_date) db
    - consumed med (appended db (disk c')).
Proof.
  intros Hwf Hmain.
  destruct (main_ledger w args_date force verbose db o c' Hwf Hmain)
    as [-> | Happ].
  { rewrite appended_same. unfold consumed. simpl. lia. }
  set (d := run_date_of w args_date) in *.
  pose proof (applied_wf w d db (disk c') Hwf Happ) as Hwf'.
  rewrite !eligible_stock_in_date by apply Hwf || apply Hwf'.
  pose proof Happ as (_ & _ & expired & alloc & Hmoves & _ & _ & Hb).
  rewrite (class_stock_after (in_date w med d) (expired ++ alloc) _ _)
    with (2 := Hb).
  - rewrite consumed_as_sum, (appended_app _ _ _ Hmoves).
    rewrite (delta_of_class (in_date w med d) (is_move "daily_dose" med));
      [lia | apply Hwf | |].
    + intros m Hm. apply (appended_unbatched w d db (disk c') m Happ).
      now rewrite (appended_app _ _ _ Hmoves).
    + intros m i Hm Hi.
      rewrite <- (appended_app _ _ _ Hmoves) in Hm.
      destruct (appended_refers w d db (disk c') m i Hwf Happ Hm Hi)
        as (b & Hbin & Hid & Hmed & [[Hr Hc] | [Hr Hc]]);
        exists b; split; auto; split; auto; unfold is_move; rewrite Hr.
      * simpl.
        apply scrap_condition_true in Hc. destruct Hc as [_ Hc].
        unfold in_date, sql_text_lt, sql_text_ge in *.
        destruct (expiry_date b) as [e |]; simpl in *;
          [| discriminate].
        destruct (sql_date w e) as [x |], (sql_date w d) as [y |];
          try discriminate.
        injection Hc as Hc. simpl.
        unfold String.ltb, String.leb in *.
        rewrite (String.compare_antisym y x).
        destruct (String.compare x y); try discriminate.
        simpl. apply andb_false_r.
      * simpl. rewrite <- Hmed.
        apply candidate_condition_true in Hc.
        destruct Hc as (_ & _ & Hc). unfold in_date.
        destruct (String.eqb (medicine_id b) med); simpl.
        -- destruct Hc as [-> | ->]; [reflexivity |].
           now destruct (is_null (expiry_date b)).
        -- reflexivity.
  - intros b b' (_ & Hm & _ & He & _). unfold in_date.
    now rewrite Hm, He.
Qed.

(** X11.  After a complete run, the eligible stock of a planned medicine is what
    it was less the daily need, and 0 if it did not cover the need. *)
Theorem eligible_stock_after_a_run w args_date force verbose db med need :
  reliable w -> wf_db db ->
  select_exists_run w (run_date_of w args_date) db && negb force = false ->
  In (med, need) (select_plan db) ->
  exists c',
    main w args_date force verbose db = (Completed, c')
    /\ eligible_stock w med (run_date_of w args_date) (disk c')
       = Z.max 0 (eligible_stock w med (run_date_of w args_date) db - need).
Proof.
  intros Hrel Hwf Hguard Hin.
  destruct (main_completes w args_date force verbose db Hrel Hwf Hguard)
    as (c' & Hmain & Happ).
  exists c'. split; [exact Hmain |].
  rewrite (eligible_stock_after w args_date force verbose db _ c' med Hwf
             Hmain).
  rewrite (applied_consumed w _ db Hwf (disk c') med need Happ Hin). lia.
Qed.

Lemma eligible_stock_after_a_run_witness :
  reliable calm_world /\ wf_db pharmacy
  /\ exists c',
       main calm_world (Some "2024-01-05") false false pharmacy
       = (Completed, c')
       /\ eligible_stock calm_world "A" "2024-01-05" (disk c') = 20.
Proof.
  split; [exact reliable_calm_world |]. split; [exact wf_pharmacy |].
  destruct (eligible_stock_after_a_run calm_world (Some "2024-01-05") false
              false pharmacy "A" 60 reliable_calm_world wf_pharmacy)
    as (c' & Hmain & Hleft).
  - reflexivity.
  - vm_compute. auto.
  - exists c'. split; [exact Hmain |]. exact Hleft.
Defined.

(** ** A medicine without dosage, over a whole run *)




(** * The dashboard *)

(** ** The listing "Batches in FEFO order" *)

Lemma sorted_filter {Row} (le : Row -> Row -> Prop) (keep : Row -> bool)
    (rows : list Row) :
  StronglySorted le rows -> StronglySorted le (filter keep rows).
Proof.
  induction 1 as [| r rows Hs IH Hr]; simpl; [constructor |].
  destruct (keep r); [| exact IH].
  constructor; [exact IH |].
  rewrite Forall_forall in Hr |- *. intros x Hx.
  apply filter_In in Hx. now apply Hr.
Qed.

(** With unique batch identifiers, selecting rows before or after the
    ORDER BY gives the same list. *)
Lemma order_by_fefo_filter w (keep : Batch -> bool) bs :
  NoDup (map batch_id bs) ->
  filter keep (order_by (fefo_leb w) bs)
  = order_by (fefo_leb w) (filter keep bs).
Proof.
  intros Hnd.
  apply (sorted_rows_unique (fefo_le w)).
  - intros a b Ha Hb Hab Hba.
    apply filter_In in Ha, Hb. destruct Ha as [Ha _], Hb as [Hb _].
    apply (Permutation_in _ (order_by_perm (fefo_leb w) bs)) in Ha, Hb.
    apply (NoDup_map_eq _ _ batch_id bs); auto.
    now apply fefo_leb_antisym with w.
  - intros a _. apply fefo_leb_refl.
  - apply sorted_filter, order_by_sorted;
      [apply fefo_leb_total | apply fefo_leb_trans].
  - apply order_by_sorted; [apply fefo_leb_total | apply fefo_leb_trans].
  - eapply perm_trans; [apply filter_perm, order_by_perm |].
    apply Permutation_sym, order_by_perm.
Qed.

Lemma filter_twice {Row} (keep keep' : Row -> bool) (rows : list Row) :
  filter keep (filter keep' rows)
  = filter (fun r => keep' r && keep r) rows.
Proof.
  induction rows as [| r rows IH]; [reflexivity |]. simpl.
  destruct (keep' r); simpl; [destruct (keep r) |]; now rewrite IH.
Qed.

(** X12.  The dashboard lists the batches in the order the engine consumes them:
    filtered on a medicine and on stock, the rows of the listing that are
    still in date on the run date are exactly the candidates of that
    medicine, in allocation order. *)
Theorem listing_shows_the_allocation_order w med run_date db :
  NoDup (map batch_id (batches db)) ->
  med <> "" ->
  filter (row_in_date w run_date) (fefo_listing w med true db)
  = map listing_row (fefo_batches w med run_date db).
Proof.
  intros Hnd Hmed. unfold fefo_listing, fefo_batches.
  rewrite filter_map_comm. f_equal.
  rewrite order_by_fefo_filter by now apply NoDup_map_filter.
  f_equal. rewrite filter_twice. apply filter_ext. intros b.
  unfold listing_condition, row_in_date, listing_row, candidate_condition.
  cbn [fst snd negb orb].
  apply String.eqb_neq in Hmed. rewrite Hmed. cbn [orb].
  destruct (String.eqb (medicine_id b) med), (0 <? stock_units b),
    (sql_or _ _) as [[|] |]; reflexivity.
Qed.

Lemma listing_shows_the_allocation_order_witness :
  NoDup (map batch_id (batches pharmacy))
  /\ filter (row_in_date calm_world "2024-01-15")
            (fefo_listing calm_world "A" true pharmacy)
     = [("A", "A-2", Some "2024-02-01", 30)].
Proof.
  split; [apply wf_pharmacy |].
  rewrite (listing_shows_the_allocation_order calm_world "A" "2024-01-15"
             pharmacy).
  - vm_compute. reflexivity.
  - apply wf_pharmacy.
  - discriminate.
Defined.

(** ** The button "Run FEFO now" *)

(** X13.  When the dashboard reports "FEFO script failed.", the database is as it
    was before the button was pressed: the dashboard never asks for
    [--verbose], so a failing script has committed nothing. *)
Theorem failed_button_leaves_the_database w run_date force db db' :
  run_fefo_now w run_date force db = (ScriptFailed, db') -> db' = db.
Proof.
  unfold run_fefo_now.
  destruct (main w (Some run_date) force false db) as [o c'] eqn:Hmain.
  destruct (main_cases w (Some run_date) force false db o c' Hmain)
    as (o0 & c0 & _ & _ & Hcase).
  destruct o; try discriminate.
  intros H. injection H as <-.
  destruct Hcase as [H | (H & _)]; [exact H | discriminate].
Qed.

Lemma failed_button_leaves_the_database_witness :
  run_fefo_now (failing_at 6) "2024-01-05" false pharmacy
  = (ScriptFailed, pharmacy).
Proof.
  destruct (run_fefo_now (failing_at 6) "2024-01-05" false pharmacy)
    as [banner db'] eqn:Hrun.
  assert (banner = ScriptFailed) as ->.
  { apply (f_equal fst) in Hrun. vm_compute in Hrun. now symmetry. }
  f_equal.
  apply (failed_button_leaves_the_database (failing_at 6) "2024-01-05" false
           pharmacy db' Hrun).
Defined.



(** ** The button "Apply adjustment" *)

(** One statement on a connection of its own, when nothing fails. *)
Lemma exec_sql_update w sel new_qty db :
  reliable w -> 0 <= new_qty ->
  exec_sql w (execute_update w sel (fun _ => new_qty)) db
  = (Ok tt,
     set_batches
       (map (fun b => if sel b
                      then touch_last_updated (current_timestamp w 1) b
                             (with_stock b new_qty)
                      else b) (batches db)) db).
Proof.
  intros Hrel Hq.
  unfold exec_sql, execute_pragma_foreign_keys, execute_update, commit, bind,
    call, begin_implicit, connect, update_stock.
  cbn [calls in_transaction view disk foreign_keys to_scrap stdout batches].
  rewrite !Hrel.
  cbn [calls in_transaction view disk foreign_keys to_scrap stdout batches].
  assert (forallb (fun b => negb (sel b) || (0 <=? new_qty)) (batches db)
          = true) as ->.
  { apply forallb_forall. intros b _.
    apply orb_true_iff. right. now apply Z.leb_le. }
  cbn [set_view calls in_transaction view disk foreign_keys to_scrap stdout].
  rewrite !Hrel. reflexivity.
Qed.

Lemma exec_sql_insert_select w rows db :
  reliable w ->
  exec_sql w (execute_insert_select w rows) db
  = match insert_moves true db (rows (current_timestamp w 1) db)
                       (stock_moves db) with
    | Some ms => (Ok tt, set_stock_moves ms db)
    | None => (Raise IntegrityError, db)
    end.
Proof.
  intros Hrel.
  unfold exec_sql, execute_pragma_foreign_keys, execute_insert_select, commit,
    bind, call, begin_implicit, connect.
  cbn [calls in_transaction view disk foreign_keys to_scrap stdout].
  rewrite !Hrel.
  cbn [calls in_transaction view disk foreign_keys to_scrap stdout].
  destruct (insert_moves true db _ _); [| reflexivity].
  cbn [set_view calls in_transaction view disk foreign_keys to_scrap stdout].
  rewrite !Hrel. reflexivity.
Qed.

(** A statement on a connection that fails within its first three calls
    (the pragma, the statement, the commit) leaves the database as it
    was. *)
Lemma exec_sql_insert_select_fails w rows db n :
  (n <= 2)%nat -> operational_error w n = true ->
  exec_sql w (execute_insert_select w rows) db = (Raise OperationalError, db)
  \/ exec_sql w (execute_insert_select w rows) db = (Raise IntegrityError, db).
Proof.
  intros Hn Hfail.
  unfold exec_sql, execute_pragma_foreign_keys, execute_insert_select, commit,
    bind, call, begin_implicit, connect.
  cbn [calls in_transaction view disk foreign_keys to_scrap stdout].
  destruct (operational_error w 0) eqn:H0; [now left |].
  cbn [calls in_transaction view disk foreign_keys to_scrap stdout].
  destruct (operational_error w 1) eqn:H1; [now left |].
  cbn [calls in_transaction view disk foreign_keys to_scrap stdout].
  destruct (insert_moves true db _ _); [| now right].
  cbn [set_view calls in_transaction view disk foreign_keys to_scrap stdout].
  destruct (operational_error w 2) eqn:H2; [now left |].
  exfalso.
  destruct n as [| [| [| n]]]; try congruence. lia.
Qed.

Lemma update_one_batch (g : Batch -> Batch) bs b :
  NoDup (map batch_id bs) -> In b bs ->
  batch_id (g b) = batch_id b ->
  filter (fun x => batch_id x =? batch_id b)
         (map (fun x => if batch_id x =? batch_id b then g x else x) bs)
  = [g b].
Proof.
  intros Hnd Hin Hg.
  induction bs as [| x bs IH]; [contradiction |].
  inversion Hnd as [| ? ? Hx Hnd']; subst. simpl.
  destruct Hin as [-> | Hin].
  - rewrite Z.eqb_refl, Hg, Z.eqb_refl. f_equal.
    apply filter_none. intros y Hy. apply in_map_iff in Hy.
    destruct Hy as (z & <- & Hz).
    assert (batch_id z <> batch_id b)
      by (intros Heq; apply Hx; rewrite <- Heq; now apply in_map).
    destruct (Z.eqb_spec (batch_id z) (batch_id b)); [contradiction |].
    now apply Z.eqb_neq.
  - assert (batch_id x <> batch_id b)
      by (intros Heq; apply Hx; rewrite Heq; now apply in_map).
    destruct (Z.eqb_spec (batch_id x) (batch_id b)); [contradiction |].
    destruct (Z.eqb_spec (batch_id x) (batch_id b)); [contradiction |].
    simpl. auto.
Qed.

Lemma touch_keeps w_now b s :
  batch_id (touch_last_updated w_now b (with_stock b s)) = batch_id b
  /\ medicine_id (touch_last_updated w_now b (with_stock b s))
     = medicine_id b
  /\ stock_units (touch_last_updated w_now b (with_stock b s)) = s.
Proof.
  unfold touch_last_updated, with_stock. simpl.
  destruct (negb (s =? stock_units b)); auto.
Qed.

Lemma find_updated (g : Batch -> Batch) bs b :
  NoDup (map batch_id bs) -> In b bs ->
  batch_id (g b) = batch_id b ->
  find (fun x => batch_id x =? batch_id b)
       (map (fun x => if batch_id x =? batch_id b then g x else x) bs)
  = Some (g b).
Proof.
  intros Hnd Hin Hg.
  induction bs as [| x bs IH]; [contradiction |].
  inversion Hnd as [| ? ? Hx Hnd']; subst. simpl.
  destruct Hin as [-> | Hin].
  - now rewrite Z.eqb_refl, Hg, Z.eqb_refl.
  - assert (batch_id x <> batch_id b)
      by (intros Heq; apply Hx; rewrite Heq; now apply in_map).
    destruct (Z.eqb_spec (batch_id x) (batch_id b)); [contradiction |].
    destruct (Z.eqb_spec (batch_id x) (batch_id b)); [contradiction |].
    auto.
Qed.

Lemma adjustment_first_step w1 w2 sel shown new_qty note_text db :
  reliable w1 -> 0 <= new_qty ->
  apply_adjustment w1 w2 sel shown new_qty note_text db
  = match exec_sql w2
            (execute_insert_select w2
               (adjustment_values sel (new_qty - shown) note_text))
            (set_batches
               (map (fun b => if batch_id b =? sel
                              then touch_last_updated (current_timestamp w1 1)
                                     b (with_stock b new_qty)
                              else b) (batches db)) db) with
    | (Raise e, db2) => (Error e, db2)
    | (Ok _, db2) => (Success, db2)
    end.
Proof.
  intros Hrel Hq. unfold apply_adjustment. cbv zeta.
  now rewrite (exec_sql_update w1 _ new_qty db Hrel Hq).
Qed.

(** X15.  An adjustment of an existing batch sets its stock to the quantity
    entered and appends one 'adjustment' movement whose delta is that
    quantity less the stock the selector showed.  The stock therefore
    reconciles with the log exactly when the stock shown (a cached read) was
    the stock of the batch. *)
Theorem adjustment_sets_and_logs w1 w2 sel shown new_qty note_text db b :
  reliable w1 -> reliable w2 ->
  NoDup (map batch_id (batches db)) ->
  In b (batches db) -> batch_id b = sel ->
  In (medicine_id b) (medicines db) ->
  0 <= new_qty ->
  exists db' m,
    apply_adjustment w1 w2 sel shown new_qty note_text db = (Success, db')
    /\ stock_in db' sel = Some new_qty
    /\ appended db db' = [m]
    /\ values m
       = mkMoveValues (current_timestamp w2 1) (medicine_id b) (Some sel)
                      (new_qty - shown) "adjustment" (Some note_text)
    /\ (forall x, In x (batches db) -> batch_id x <> sel ->
                  In x (batches db'))
    /\ (new_qty = stock_units b + delta_for sel (appended db db')
        <-> shown = stock_units b).
Proof.
  intros Hrel1 Hrel2 Hnd Hin Hsel Hfk Hq. subst sel.
  rewrite (adjustment_first_step w1 w2 _ shown new_qty note_text db Hrel1
             Hq).
  rewrite (exec_sql_insert_select w2 _ _ Hrel2).
  set (g := fun x => touch_last_updated (current_timestamp w1 1) x
                       (with_stock x new_qty)).
  set (db1 := set_batches _ db).
  destruct (touch_keeps (current_timestamp w1 1) b new_qty)
    as (Hid & Hmed & Hstock).
  assert (adjustment_values (batch_id b) (new_qty - shown) note_text
            (current_timestamp w2 1) db1
          = [mkMoveValues (current_timestamp w2 1) (medicine_id b) (Some (batch_id b))
               (new_qty - shown) "adjustment" (Some note_text)]) as ->.
  { unfold adjustment_values.
    change (batches db1)
      with (map (fun x => if batch_id x =? batch_id b then g x else x)
                (batches db)).
    rewrite (update_one_batch g _ b Hnd Hin Hid).
    simpl. fold (g b). unfold g. now rewrite Hid, Hmed. }
  assert (fk_ok db1 (medicine_id b) (Some (batch_id b)) = true) as Hok.
  { unfold fk_ok. apply andb_true_iff. split.
    - apply existsb_exists. exists (medicine_id b).
      split; [exact Hfk | apply String.eqb_refl].
    - apply existsb_exists. exists (g b). split.
      + unfold db1. cbn [batches set_batches]. apply in_map_iff.
        exists b. now rewrite Z.eqb_refl.
      + unfold g. rewrite Hid. now apply Z.eqb_eq. }
  cbn [insert_moves v_medicine_id v_batch_id negb orb]. rewrite Hok.
  eexists. eexists. split; [reflexivity |].
  assert (appended db (set_stock_moves
                         (stock_moves db1 ++
                          [stored (next_id (stock_moves db1))
                             (mkMoveValues (current_timestamp w2 1)
                                (medicine_id b) (Some (batch_id b)) (new_qty - shown)
                                "adjustment" (Some note_text))]) db1)
          = [stored (next_id (stock_moves db1))
               (mkMoveValues (current_timestamp w2 1) (medicine_id b)
                  (Some (batch_id b)) (new_qty - shown) "adjustment"
                  (Some note_text))]) as Happ
    by (apply appended_app; reflexivity).
  rewrite Happ. repeat split.
  - unfold stock_in. cbn [batches set_stock_moves].
    change (batches db1)
      with (map (fun x => if batch_id x =? batch_id b then g x else x)
                (batches db)).
    rewrite (find_updated g _ b Hnd Hin Hid).
    simpl. f_equal. exact Hstock.
  - intros x Hx Hne. cbn [batches set_stock_moves set_batches db1].
    unfold db1. cbn [batches set_batches]. apply in_map_iff. exists x.
    split; [| exact Hx].
    destruct (Z.eqb_spec (batch_id x) (batch_id b)); [contradiction | reflexivity].
  - unfold delta_for, refers_to. simpl. rewrite Z.eqb_refl. simpl. lia.
  - unfold delta_for, refers_to. simpl. rewrite Z.eqb_refl. simpl. lia.
Qed.

Lemma adjustment_sets_and_logs_witness :
  reliable calm_world
  /\ In (mkBatch 1 "A" "A-1" 50 (Some "2024-01-10") "2023-12-01 09:00:00")
        (batches pharmacy)
  /\ exists db' m,
       apply_adjustment calm_world calm_world 1 50 45 "Streamlit adjustment"
         pharmacy = (Success, db')
       /\ stock_in db' 1 = Some 45
       /\ appended pharmacy db' = [m]
       /\ qty_change m = -5.
Proof.
  split; [exact reliable_calm_world |].
  split; [vm_compute; auto |].
  destruct (adjustment_sets_and_logs calm_world calm_world 1 50 45
              "Streamlit adjustment" pharmacy
              (mkBatch 1 "A" "A-1" 50 (Some "2024-01-10")
                 "2023-12-01 09:00:00")
              reliable_calm_world reliable_calm_world)
    as (db' & m & Hrun & Hstock & Happ & Hval & _).
  - apply wf_pharmacy.
  - vm_compute. auto.
  - reflexivity.
  - vm_compute. auto.
  - lia.
  - exists db', m. repeat split; auto.
    change (qty_change m) with (v_qty_change (values m)). now rewrite Hval.
Defined.

(** X16.  The two statements of an adjustment are two transactions: when the
    second connection fails, the dashboard shows an error, yet the stock of
    the batch has been overwritten and no movement records it. *)
Theorem adjustment_is_not_atomic w1 w2 sel shown new_qty note_text db b n :
  reliable w1 ->
  (n <= 2)%nat -> operational_error w2 n = true ->
  NoDup (map batch_id (batches db)) ->
  In b (batches db) -> batch_id b = sel ->
  0 <= new_qty ->
  exists e db',
    apply_adjustment w1 w2 sel shown new_qty note_text db = (Error e, db')
    /\ stock_in db' sel = Some new_qty
    /\ stock_moves db' = stock_moves db.
Proof.
  intros Hrel1 Hn Hfail Hnd Hin Hsel Hq. subst sel.
  rewrite (adjustment_first_step w1 w2 _ shown new_qty note_text db Hrel1
             Hq).
  set (g := fun x => touch_last_updated (current_timestamp w1 1) x
                       (with_stock x new_qty)).
  set (db1 := set_batches _ db).
  destruct (touch_keeps (current_timestamp w1 1) b new_qty)
    as (Hid & _ & Hstock).
  assert (stock_in db1 (batch_id b) = Some new_qty) as Hs.
  { unfold stock_in.
    change (batches db1)
      with (map (fun x => if batch_id x =? batch_id b then g x else x)
                (batches db)).
    rewrite (find_updated g _ b Hnd Hin Hid). simpl. f_equal. exact Hstock. }
  destruct (exec_sql_insert_select_fails w2
              (adjustment_values (batch_id b) (new_qty - shown) note_text)
              db1 n Hn Hfail) as [-> | ->]; eexists; eexists;
    (split; [reflexivity | split; [exact Hs | reflexivity]]).
Qed.

Lemma adjustment_is_not_atomic_witness :
  reliable calm_world
  /\ operational_error (failing_at 1) 1 = true
  /\ exists e db',
       apply_adjustment calm_world (failing_at 1) 1 50 45
         "Streamlit adjustment" pharmacy = (Error e, db')
       /\ stock_in db' 1 = Some 45
       /\ stock_moves db' = stock_moves pharmacy.
Proof.
  split; [exact reliable_calm_world |]. split; [reflexivity |].
  apply (adjustment_is_not_atomic calm_world (failing_at 1) 1 50 45
           "Streamlit adjustment" pharmacy
           (mkBatch 1 "A" "A-1" 50 (Some "2024-01-10") "2023-12-01 09:00:00")
           1%nat reliable_calm_world).
  - lia.
  - reflexivity.
  - apply wf_pharmacy.
  - vm_compute. auto.
  - reflexivity.
  - lia.
Defined.

Lemma set_batches_same db : set_batches (batches db) db = db.
Proof. now destruct db. Qed.

Lemma set_stock_moves_same db : set_stock_moves (stock_moves db) db = db.
Proof. now destruct db. Qed.

(** X17.  An adjustment of a batch that is no longer in the table (the selector is
    a cached read) changes nothing and records nothing, and the dashboard
    still reports success. *)
Theorem adjustment_of_a_missing_batch w1 w2 sel shown new_qty note_text db :
  reliable w1 -> reliable w2 ->
  ~ In sel (map batch_id (batches db)) ->
  0 <= new_qty ->
  apply_adjustment w1 w2 sel shown new_qty note_text db = (Success, db).
Proof.
  intros Hrel1 Hrel2 Hmiss Hq.
  rewrite (adjustment_first_step w1 w2 sel shown new_qty note_text db Hrel1
             Hq).
  assert (forall x, In x (batches db) -> (batch_id x =? sel) = false)
    as Hne.
  { intros x Hx. apply Z.eqb_neq. intros Heq. apply Hmiss.
    rewrite <- Heq. now apply in_map. }
  assert (map (fun b => if batch_id b =? sel
                        then touch_last_updated (current_timestamp w1 1) b
                               (with_stock b new_qty)
                        else b) (batches db) = batches db) as ->.
  { rewrite <- (map_id (batches db)) at 2. apply map_ext_in.
    intros x Hx. now rewrite (Hne x Hx). }
  rewrite set_batches_same.
  rewrite (exec_sql_insert_select w2 _ _ Hrel2).
  unfold adjustment_values. rewrite (filter_none _ _ _ Hne). simpl.
  now rewrite set_stock_moves_same.
Qed.

Lemma adjustment_of_a_missing_batch_witness :
  reliable calm_world
  /\ apply_adjustment calm_world calm_world 9 50 45 "Streamlit adjustment"
       pharmacy = (Success, pharmacy).
Proof.
  split; [exact reliable_calm_world |].
  apply (adjustment_of_a_missing_batch calm_world calm_world 9 50 45
           "Streamlit adjustment" pharmacy reliable_calm_world
           reliable_calm_world).
  - vm_compute. intuition discriminate.
  - lia.
Defined.

(** ** The form "Receive stock" *)





Lemma same_batch_iff med batch b :
  same_batch med batch b = true <-> medicine_id b = med /\ batch_no b = batch.
Proof.
  unfold same_batch. rewrite andb_true_iff, !String.eqb_eq. tauto.
Qed.

Lemma next_batch_id_fresh seq bs b :
  In b bs -> batch_id b < next_batch_id seq bs.
Proof.
  unfold next_batch_id. induction bs as [| x bs IH]; [contradiction |].
  cbn [fold_right]. intros [-> | Hin]; [lia |]. specialize (IH Hin). lia.
Qed.

Lemma received_keeps now qty exp b :
  batch_id (touch_last_updated now b (received_into qty exp b)) = batch_id b
  /\ medicine_id (touch_last_updated now b (received_into qty exp b))
     = medicine_id b
  /\ batch_no (touch_last_updated now b (received_into qty exp b))
     = batch_no b
  /\ stock_units (touch_last_updated now b (received_into qty exp b))
     = stock_units b + qty.
Proof.
  unfold touch_last_updated, received_into. simpl.
  destruct (negb (stock_units b + qty =? stock_units b)); auto.
Qed.







(** ** The actions keep the schema *)

(** However a statement run by [exec_sql] ends, the database is as it was or
    as the statement made it. *)
Lemma exec_sql_update_cases w sel f db :
  snd (exec_sql w (execute_update w sel f) db) = db
  \/ exists n bs,
       update_stock (current_timestamp w n) sel f (batches db) = Some bs
       /\ exec_sql w (execute_update w sel f) db = (Ok tt, set_batches bs db).
Proof.
  unfold exec_sql, execute_pragma_foreign_keys, execute_update, commit, bind,
    call, begin_implicit, connect.
  cbn [calls in_transaction view disk foreign_keys to_scrap stdout batches].
  destruct (operational_error w 0); [now left |].
  cbn [calls in_transaction view disk foreign_keys to_scrap stdout batches].
  destruct (operational_error w 1); [now left |].
  cbn [calls in_transaction view disk foreign_keys to_scrap stdout batches].
  destruct (update_stock _ _ _ _) as [bs |] eqn:Hup; [| now left].
  cbn [set_view calls in_transaction view disk foreign_keys to_scrap stdout].
  destruct (operational_error w 2); [now left |].
  right. exists 1%nat, bs. auto.
Qed.

Lemma exec_sql_insert_select_cases w rows db :
  snd (exec_sql w (execute_insert_select w rows) db) = db
  \/ exists ms,
       snd (exec_sql w (execute_insert_select w rows) db)
       = set_stock_moves ms db.
Proof.
  unfold exec_sql, execute_pragma_foreign_keys, execute_insert_select, commit,
    bind, call, begin_implicit, connect.
  cbn [calls in_transaction view disk foreign_keys to_scrap stdout].
  destruct (operational_error w 0); [now left |].
  cbn [calls in_transaction view disk foreign_keys to_scrap stdout].
  destruct (operational_error w 1); [now left |].
  cbn [calls in_transaction view disk foreign_keys to_scrap stdout].
  destruct (insert_moves true db _ _) as [ms |]; [| now left].
  cbn [set_view calls in_transaction view disk foreign_keys to_scrap stdout].
  destruct (operational_error w 2); [now left |].
  right. now exists ms.
Qed.

Lemma exec_script_insert_select_cases w rows db :
  snd (exec_script w (executescript_insert_select w rows) db) = db
  \/ exists ms,
       snd (exec_script w (executescript_insert_select w rows) db)
       = set_stock_moves ms db.
Proof.
  unfold exec_script, exec_sql, execute_pragma_foreign_keys,
    executescript_insert_select, commit, bind, call, connect.
  cbn [calls in_transaction view disk foreign_keys to_scrap stdout].
  destruct (operational_error w 0); [now left |].
  cbn [calls in_transaction view disk foreign_keys to_scrap stdout].
  destruct (operational_error w 1); [now left |].
  cbn [calls in_transaction view disk foreign_keys to_scrap stdout].
  destruct (insert_moves true db _ _) as [ms |]; [| now left].
  right. now exists ms.
Qed.

Lemma exec_sql_upsert_cases w seq med batch qty exp db :
  snd (exec_sql w (execute_upsert w seq med batch qty exp) db) = db
  \/ exists n bs,
       upsert_batch true (current_timestamp w n) seq med batch qty exp db
       = Some bs
       /\ exec_sql w (execute_upsert w seq med batch qty exp) db
          = (Ok tt, set_batches bs db).
Proof.
  unfold exec_sql, execute_pragma_foreign_keys, execute_upsert, commit, bind,
    call, begin_implicit, connect.
  cbn [calls in_transaction view disk foreign_keys to_scrap stdout].
  destruct (operational_error w 0); [now left |].
  cbn [calls in_transaction view disk foreign_keys to_scrap stdout].
  destruct (operational_error w 1); [now left |].
  cbn [calls in_transaction view disk foreign_keys to_scrap stdout].
  destruct (upsert_batch _ _ _ _ _ _ _ _) as [bs |] eqn:Hup; [| now left].
  cbn [set_view calls in_transaction view disk foreign_keys to_scrap stdout].
  destruct (operational_error w 2); [now left |].
  right. exists 1%nat, bs. auto.
Qed.

(** The constraints of the schema, with the uniqueness of batch numbers. *)
Lemma wf_set_stock_moves ms db :
  wf_db db -> wf_db (set_stock_moves ms db).
Proof. intros [? ? ? ? ? ? ? ?]. now constructor. Qed.

Lemma wf_set_batches bs db :
  wf_db db ->
  NoDup (map batch_id bs) ->
  Forall (fun b => 0 <= stock_units b < exact_bound
                   /\ In (medicine_id b) (medicines db)) bs ->
  wf_db (set_batches bs db).
Proof.
  intros [? ? ? ? ? ? ? ?] Hnd Hall. constructor; cbn [batches set_batches
    medicines daily_dosage]; auto;
    eapply Forall_impl; [| exact Hall | | exact Hall | | exact Hall];
    cbv beta; intros; tauto || lia.
Qed.

Lemma update_stock_wf now sel new_qty db bs :
  wf_db db -> batch_numbers_unique db ->
  new_qty < exact_bound ->
  update_stock now sel (fun _ => new_qty) (batches db) = Some bs ->
  wf_db (set_batches bs db) /\ batch_numbers_unique (set_batches bs db).
Proof.
  intros Hwf Huniq Hq. unfold update_stock.
  destruct (forallb _ _) eqn:Hcheck; [| discriminate].
  intros H. injection H as <-.
  rewrite forallb_forall in Hcheck.
  assert (forall b, batch_id (if sel b
                              then touch_last_updated now b
                                     (with_stock b new_qty) else b)
                    = batch_id b
                    /\ medicine_id (if sel b
                                    then touch_last_updated now b
                                           (with_stock b new_qty) else b)
                       = medicine_id b
                    /\ batch_no (if sel b
                                 then touch_last_updated now b
                                        (with_stock b new_qty) else b)
                       = batch_no b) as Hkeep.
  { intros b. destruct (sel b); [| auto].
    unfold touch_last_updated, with_stock. simpl.
    destruct (negb (new_qty =? stock_units b)); auto. }
  split.
  - apply wf_set_batches; [exact Hwf | |].
    + rewrite map_map, (map_ext _ batch_id); [apply Hwf |].
      intros b. apply Hkeep.
    + apply Forall_forall. intros x Hx. apply in_map_iff in Hx.
      destruct Hx as (b & <- & Hb).
      pose proof (wf_stock _ Hwf) as Hs. pose proof (wf_stock_exact _ Hwf) as He.
      pose proof (wf_batch_fk _ Hwf) as Hf.
      rewrite Forall_forall in Hs, He, Hf.
      specialize (Hcheck b Hb). specialize (Hs b Hb).
      specialize (He b Hb). specialize (Hf b Hb).
      rewrite (proj1 (proj2 (Hkeep b))).
      split; [| exact Hf].
      destruct (sel b); [| lia].
      rewrite (proj2 (proj2 (touch_keeps now b new_qty))).
      simpl in Hcheck. apply Z.leb_le in Hcheck. lia.
  - unfold batch_numbers_unique. cbn [batches set_batches].
    rewrite map_map.
    rewrite (map_ext _ (fun b => (medicine_id b, batch_no b)));
      [exact Huniq |].
    intros b. destruct (Hkeep b) as (_ & -> & ->). reflexivity.
Qed.

(** X20.  An adjustment keeps the schema, whatever is entered and however the two
    connections fare: unique batch identifiers and batch numbers, no
    negative stock, known medicines. *)
Theorem adjustment_keeps_the_schema
    w1 w2 sel shown new_qty note_text db :
  wf_db db -> batch_numbers_unique db ->
  new_qty < exact_bound ->
  wf_db (snd (apply_adjustment w1 w2 sel shown new_qty note_text db))
  /\ batch_numbers_unique
       (snd (apply_adjustment w1 w2 sel shown new_qty note_text db)).
Proof.
  intros Hwf Huniq Hq. unfold apply_adjustment. cbv zeta.
  destruct (exec_sql_update_cases w1 (fun b => batch_id b =? sel)
              (fun _ => new_qty) db) as [Hsame | (n & bs & Hup & Hrun)].
  - destruct (exec_sql w1 _ db) as [[[] | e] db1] eqn:Hfirst;
      cbn [snd] in Hsame; subst db1; [| now split].
    destruct (exec_sql_insert_select_cases w2
                (adjustment_values sel (new_qty - shown) note_text) db)
      as [Hsame2 | (ms & Hms)];
      destruct (exec_sql w2 _ db) as [[[] | e] db2]; cbn [snd] in *;
      subst db2; split; auto using wf_set_stock_moves.
  - rewrite Hrun.
    destruct (update_stock_wf _ _ _ _ _ Hwf Huniq Hq Hup) as [Hwf1 Hu1].
    destruct (exec_sql_insert_select_cases w2
                (adjustment_values sel (new_qty - shown) note_text)
                (set_batches bs db)) as [Hsame2 | (ms & Hms)];
      destruct (exec_sql w2 _ (set_batches bs db)) as [[[] | e] db2];
      cbn [snd] in *; subst db2; split; auto using wf_set_stock_moves.
Qed.

Lemma adjustment_keeps_the_schema_witness :
  wf_db pharmacy /\ batch_numbers_unique pharmacy
  /\ wf_db (snd (apply_adjustment calm_world (failing_at 2) 2 30 0
                   "Streamlit adjustment" pharmacy)).
Proof.
  split; [exact wf_pharmacy |].
  assert (batch_numbers_unique pharmacy) as Huniq
    by (vm_compute; repeat constructor; simpl; intuition discriminate).
  split; [exact Huniq |].
  apply (adjustment_keeps_the_schema calm_world (failing_at 2) 2 30 0
           "Streamlit adjustment" pharmacy wf_pharmacy Huniq).
  reflexivity.
Defined.

Lemma upsert_wf now seq med batch qty exp db bs :
  wf_db db -> batch_numbers_unique db ->
  qty < exact_bound ->
  Forall (fun b => stock_units b + qty < exact_bound) (batches db) ->
  upsert_batch true now seq med batch qty exp db = Some bs ->
  wf_db (set_batches bs db) /\ batch_numbers_unique (set_batches bs db).
Proof.
  intros Hwf Huniq Hq Hroom. unfold upsert_batch.
  destruct (Z.ltb_spec qty 0) as [| Hq0]; [discriminate |].
  pose proof (wf_stock _ Hwf) as Hs. pose proof (wf_batch_fk _ Hwf) as Hf.
  rewrite Forall_forall in Hs, Hf, Hroom.
  destruct (existsb (same_batch med batch) (batches db)) eqn:Hex.
  - destruct (forallb _ _); [| discriminate].
    intros H. injection H as <-.
    set (g := fun b => if same_batch med batch b
                       then touch_last_updated now b (received_into qty exp b)
                       else b).
    assert (forall b, batch_id (g b) = batch_id b
                      /\ medicine_id (g b) = medicine_id b
                      /\ batch_no (g b) = batch_no b
                      /\ (stock_units (g b) = stock_units b
                          \/ stock_units (g b) = stock_units b + qty))
      as Hkeep.
    { intros b. unfold g. destruct (same_batch med batch b); [| auto].
      destruct (received_keeps now qty exp b) as (-> & -> & -> & ->). auto. }
    split.
    + apply wf_set_batches; [exact Hwf | |].
      * rewrite map_map, (map_ext _ batch_id); [apply Hwf |].
        intros b. apply Hkeep.
      * apply Forall_forall. intros x Hx. apply in_map_iff in Hx.
        destruct Hx as (b & <- & Hb). fold (g b).
        destruct (Hkeep b) as (_ & -> & _ & Hst).
        pose proof (wf_stock_exact _ Hwf) as He.
        rewrite Forall_forall in He.
        specialize (Hs b Hb). specialize (Hroom b Hb). specialize (He b Hb).
        split; [lia | auto].
    + unfold batch_numbers_unique. cbn [batches set_batches].
      rewrite map_map.
      rewrite (map_ext _ (fun b => (medicine_id b, batch_no b)));
        [exact Huniq |].
      intros b. fold (g b). destruct (Hkeep b) as (_ & -> & -> & _).
      reflexivity.
  - cbn [negb orb].
    destruct (existsb (String.eqb med) (medicines db)) eqn:Hmed;
      [| discriminate].
    intros H. injection H as <-.
    apply existsb_exists in Hmed. destruct Hmed as (x & Hx & Heq).
    apply String.eqb_eq in Heq. subst x.
    split.
    + apply wf_set_batches; [exact Hwf | |].
      * rewrite map_app. simpl.
        apply (Permutation_NoDup (Permutation_cons_append _ _)).
        constructor; [| apply Hwf].
        intros Hin. apply in_map_iff in Hin.
        destruct Hin as (b & Hb & Hbin).
        pose proof (next_batch_id_fresh seq (batches db) b Hbin). lia.
      * apply Forall_app. split.
        -- apply Forall_forall. intros b Hb.
           pose proof (wf_stock_exact _ Hwf) as He.
           rewrite Forall_forall in He.
           specialize (Hs b Hb). specialize (He b Hb). auto.
        -- constructor; [| constructor]. simpl. split; [lia | exact Hx].
    + unfold batch_numbers_unique. cbn [batches set_batches].
      rewrite map_app. simpl.
      apply (Permutation_NoDup (Permutation_cons_append _ _)).
      constructor; [| exact Huniq].
      intros Hin. apply in_map_iff in Hin. destruct Hin as (b & Hb & Hbin).
      injection Hb as Hm Hn.
      assert (existsb (same_batch med batch) (batches db) = true).
      { apply existsb_exists. exists b. split; [exact Hbin |].
        now apply same_batch_iff. }
      congruence.
Qed.

(** X21.  Receiving stock keeps the schema, for texts without a quote (the log
    statement is the one modelled only for them) and a quantity that leaves
    every stock within the exact range, however the two connections fare:
    the action ends with a banner, and the database it leaves has unique
    batch identifiers and batch numbers, no negative stock, and no batch of
    an unknown medicine.  In particular a receipt never makes a second
    batch of the same medicine and batch number, and never reuses a batch
    identifier. *)
Theorem receive_keeps_the_schema w1 w2 seq med batch qty exp db :
  wf_db db -> batch_numbers_unique db ->
  quote_free med = true -> quote_free batch = true ->
  qty < exact_bound ->
  Forall (fun b => stock_units b + qty < exact_bound) (batches db) ->
  exists banner db',
    receive_stock w1 w2 seq med batch qty exp db = Some (banner, db')
    /\ wf_db db' /\ batch_numbers_unique db'.
Proof.
  intros Hwf Huniq Hqm Hqb Hq Hroom. unfold receive_stock.
  rewrite Hqm, Hqb. cbn [andb].
  destruct (exec_sql_upsert_cases w1 seq med batch qty (nullif_empty exp) db)
    as [Hsame | (n & bs & Hup & Hrun)].
  - destruct (exec_sql w1 _ db) as [[[] | e] db1] eqn:Hfirst;
      cbn [snd] in Hsame; subst db1.
    + destruct (exec_script_insert_select_cases w2
                  (receipt_values med batch qty) db)
        as [Hsame2 | (ms & Hms)];
        destruct (exec_script w2 _ db) as [[[] | e] db2]; cbn [snd] in *;
        subst db2; eexists; eexists; (split; [reflexivity |]);
        split; auto using wf_set_stock_moves.
    + eexists. eexists. split; [reflexivity |]. now split.
  - rewrite Hrun.
    destruct (upsert_wf _ _ _ _ _ _ _ _ Hwf Huniq Hq Hroom Hup)
      as [Hwf1 Hu1].
    destruct (exec_script_insert_select_cases w2
                (receipt_values med batch qty) (set_batches bs db))
      as [Hsame2 | (ms & Hms)];
      destruct (exec_script w2 _ (set_batches bs db)) as [[[] | e] db2];
      cbn [snd] in *; subst db2; eexists; eexists;
      (split; [reflexivity |]); split; auto using wf_set_stock_moves.
Qed.

Lemma receive_keeps_the_schema_witness :
  wf_db pharmacy /\ batch_numbers_unique pharmacy
  /\ exists banner db',
       receive_stock calm_world (failing_at 1) 5 "A" "A-9" 40 "2025-01-31"
         pharmacy = Some (banner, db')
       /\ wf_db db' /\ batch_numbers_unique db'.
Proof.
  split; [exact wf_pharmacy |].
  assert (batch_numbers_unique pharmacy) as Huniq
    by (vm_compute; repeat constructor; simpl; intuition discriminate).
  split; [exact Huniq |].
  apply (receive_keeps_the_schema calm_world (failing_at 1) 5 "A" "A-9" 40
           "2025-01-31" pharmacy wf_pharmacy Huniq).
  - reflexivity.
  - reflexivity.
  - vm_compute. reflexivity.
  - apply Forall_forall. intros b Hb. simpl in Hb.
    repeat (destruct Hb as [<- | Hb]; [vm_compute; reflexivity |]).
    contradiction.
Defined.



